(** * clouds client: the dispatch core (CloudsClient), embedded and verified

    The client is an event-driven object: user code calls [call], [bind] and
    [exit]; the redis connections and the timers call back later.  The
    embedding keeps the object's fields in a record [Client], turns every
    method into a function on that record, and turns every asynchronous
    completion (a KEYS reply, a timer expiry, a delivered message) into an
    [Event] that the environment feeds to [step].  Closures are kept as
    frames: one [CallFrame] per execution of [call], one [BindFrame] per
    execution of [bind], one [InvFrame] per execution of a bound caller. *)

From Stdlib Require Import ZArith Lia Ascii String.
From stdpp Require Import gmap strings list fin_maps pretty.

Open Scope string_scope.
Open Scope Z_scope.

(** ** JavaScript values that cross the client *)

Inductive Value :=
| VUndefined
| VNull
| VBool (b : bool)
| VNum (n : Z)
| VStr (s : string)
| VError (message : string) (code : option string)
| VFn (u : nat).

#[global] Instance Value_eq_dec : EqDecision Value.
Proof. solve_decision. Defined.

(** ToBoolean *)
Definition truthy (v : Value) : bool :=
  match v with
  | VUndefined | VNull => false
  | VBool b => b
  | VNum n => negb (n =? 0)
  | VStr s => negb (String.eqb s EmptyString)
  | VError _ _ | VFn _ => true
  end.

(** [v.code] *)
Definition code_of (v : Value) : option string :=
  match v with
  | VError _ c => c
  | _ => None
  end.

(** [a || b] *)
Definition js_or (a b : Value) : Value := if truthy a then a else b.

(** The functions the client can hold and apply: a function of the user, the
    logging default that [_callback] substitutes, and the [onCallback]
    closure of one execution of a bound caller. *)
Inductive Fn :=
| UserFn (u : nat)
| DebugFn
| OnCallback (inv : nat).

#[global] Instance Fn_eq_dec : EqDecision Fn.
Proof. solve_decision. Defined.

(** [Array.prototype.join]: an undefined element prints as the empty string. *)
Definition seg_str (x : option string) : string := default EmptyString x.

Fixpoint join (sep : string) (l : list (option string)) : string :=
  match l with
  | [] => EmptyString
  | [x] => seg_str x
  | x :: l' => seg_str x ++ sep ++ join sep l'
  end.

(** [String.prototype.split] on a one-character separator. *)
Fixpoint split (sep : Ascii.ascii) (s : string) : list string :=
  match s with
  | EmptyString => [EmptyString]
  | String a s' =>
      if Ascii.eqb a sep then EmptyString :: split sep s'
      else match split sep s' with
           | seg :: rest => String a seg :: rest
           | [] => [String a EmptyString]
           end
  end.

(** [item.split(':').pop()] *)
Definition last_segment (item : string) : string := List.last (split ":"%char item) EmptyString.

(** ** lib/define.js *)
Module define.
Definition heartbeat : Z := 5.
Definition timeout : Z := 60.
Definition serverMaxAge : Z := 60.
Definition redisHost : string := "127.0.0.1".
Definition redisPort : Z := 6379.
Definition redisDb : Z := 0.
Definition redisPrefix : string := "clouds".
End define.

Definition CLOUDS_CALL_SERVICE_TIMEOUT : string := "CLOUDS_CALL_SERVICE_TIMEOUT".
Definition CLOUDS_NO_AVAILABLE_SERVER : string := "CLOUDS_NO_AVAILABLE_SERVER".

(** ** Frames and the client record *)

(** What [utils.pocketCallMessage] returns: the correlation id and the
    encoded envelope. *)
Record CallMessage := { m_id : string; m_data : string }.

(** What [utils.parseMessage] returns. *)
Record Envelope := {
  e_type : string;
  e_id : string;
  e_sender : string;
  e_error : Value;
  e_args : list Value
}.

(** The variables of one execution of [call]: its parameters, [msg],
    [serverId] ([None] is undefined), the latch [hasCallback], and the
    timer behind [tid] ([Some delay] while it is pending). *)
Record CallFrame := {
  f_name : string;
  f_args : list Value;
  f_callback : Fn;
  f_msg : CallMessage;
  f_serverId : option string;
  f_hasCallback : bool;
  f_tid : option Z
}.

(** The variable [onRetry] of one execution of [bind].  A function supplied
    by the user is taken to follow the format documented at [bind]: it hands
    (possibly changed) arguments to the continuation it receives last. *)
Inductive OnRetry :=
| NotAFunction
| UserOnRetry (g : list Value -> list Value)
| DefaultOnRetry (inv : nat).

Record BindFrame := {
  b_name : string;
  b_retry : Z;
  b_timeout : Z;
  b_onRetry : OnRetry
}.

(** The variables of one execution of a bound caller. *)
Record InvFrame := {
  i_bind : nat;
  i_args : list Value;
  i_callback : nat;
  i_retryCounter : Z
}.

(** What leaves the client: commands on the two connections and the
    application of completion callbacks.  [Apply k fn args] is
    [callback.apply(null, arguments)] inside [cb] of call frame [k];
    [Outer inv u args] is the same statement inside [onCallback] of
    invocation [inv]. *)
Inductive Effect :=
| Subscribe (key : string) (ack : Fn)
| Publish (key data : string) (ack : Fn)
| Keys (pattern : string)
| Del (key : string) (ack : Fn)
| EndCp
| EndCs
| Apply (k : nat) (fn : Fn) (args : list Value)
| Outer (inv : nat) (u : nat) (args : list Value).

#[global] Instance Effect_eq_dec : EqDecision Effect.
Proof. solve_decision. Defined.

(** The fields of a CloudsClient, followed by the frames of its closures,
    the commands and timers that are pending, the number of random draws
    made, and the trace of effects.  [_timeout] and [_serverMaxAge] are in
    whole seconds; timestamps, delays and periods are in milliseconds.
    [_cp] and [_cs] tell whether the connection is still open.

    [_messages], [_servers] and [_serversTimestamp] are plain objects
    ({}).  Each map holds the own properties of its object, and what a read
    finds under a name that is no own property is given by [read_servers]
    and [read_messages] below.  The name __proto__ is no property of a
    plain object but the accessor of its prototype: the entry of
    [_servers] under that name is the array that an assignment to it has
    put in the place of the prototype, and [_serversTimestamp] never has
    one, since that assignment ignores a number.  The ids in [_messages]
    are those that utils.pocketCallMessage makes; what the listener reads
    from the table is stated for tables without a handler under the id
    __proto__, where the prototype is still Object.prototype. *)
Record Client := {
  _id : string;
  _prefix : string;
  _timeout : Z;
  _serverMaxAge : Z;
  notAutoCleanRemoteServer : bool;
  _messages : gmap string nat;
  _servers : gmap string (list string);
  _serversTimestamp : gmap string Z;
  _clearServerListTid : option Z;
  _cp : bool;
  _cs : bool;
  frames : list CallFrame;
  keysPending : list (string * nat);
  binds : list BindFrame;
  invocations : list InvFrame;
  retryTimers : list (nat * Z);
  draws : nat;
  trace : list Effect
}.

(** Field updates. *)
Definition with_messages (m : gmap string nat) (c : Client) : Client :=
  {| _id := _id c; _prefix := _prefix c; _timeout := _timeout c;
     _serverMaxAge := _serverMaxAge c;
     notAutoCleanRemoteServer := notAutoCleanRemoteServer c;
     _messages := m; _servers := _servers c;
     _serversTimestamp := _serversTimestamp c;
     _clearServerListTid := _clearServerListTid c; _cp := _cp c; _cs := _cs c;
     frames := frames c; keysPending := keysPending c; binds := binds c;
     invocations := invocations c; retryTimers := retryTimers c;
     draws := draws c; trace := trace c |}.

Definition with_servers (m : gmap string (list string)) (c : Client) : Client :=
  {| _id := _id c; _prefix := _prefix c; _timeout := _timeout c;
     _serverMaxAge := _serverMaxAge c;
     notAutoCleanRemoteServer := notAutoCleanRemoteServer c;
     _messages := _messages c; _servers := m;
     _serversTimestamp := _serversTimestamp c;
     _clearServerListTid := _clearServerListTid c; _cp := _cp c; _cs := _cs c;
     frames := frames c; keysPending := keysPending c; binds := binds c;
     invocations := invocations c; retryTimers := retryTimers c;
     draws := draws c; trace := trace c |}.

Definition with_serversTimestamp (m : gmap string Z) (c : Client) : Client :=
  {| _id := _id c; _prefix := _prefix c; _timeout := _timeout c;
     _serverMaxAge := _serverMaxAge c;
     notAutoCleanRemoteServer := notAutoCleanRemoteServer c;
     _messages := _messages c; _servers := _servers c;
     _serversTimestamp := m;
     _clearServerListTid := _clearServerListTid c; _cp := _cp c; _cs := _cs c;
     frames := frames c; keysPending := keysPending c; binds := binds c;
     invocations := invocations c; retryTimers := retryTimers c;
     draws := draws c; trace := trace c |}.

Definition with_clearServerListTid (t : option Z) (c : Client) : Client :=
  {| _id := _id c; _prefix := _prefix c; _timeout := _timeout c;
     _serverMaxAge := _serverMaxAge c;
     notAutoCleanRemoteServer := notAutoCleanRemoteServer c;
     _messages := _messages c; _servers := _servers c;
     _serversTimestamp := _serversTimestamp c;
     _clearServerListTid := t; _cp := _cp c; _cs := _cs c;
     frames := frames c; keysPending := keysPending c; binds := binds c;
     invocations := invocations c; retryTimers := retryTimers c;
     draws := draws c; trace := trace c |}.

Definition with_cp (b : bool) (c : Client) : Client :=
  {| _id := _id c; _prefix := _prefix c; _timeout := _timeout c;
     _serverMaxAge := _serverMaxAge c;
     notAutoCleanRemoteServer := notAutoCleanRemoteServer c;
     _messages := _messages c; _servers := _servers c;
     _serversTimestamp := _serversTimestamp c;
     _clearServerListTid := _clearServerListTid c; _cp := b; _cs := _cs c;
     frames := frames c; keysPending := keysPending c; binds := binds c;
     invocations := invocations c; retryTimers := retryTimers c;
     draws := draws c; trace := trace c |}.

Definition with_cs (b : bool) (c : Client) : Client :=
  {| _id := _id c; _prefix := _prefix c; _timeout := _timeout c;
     _serverMaxAge := _serverMaxAge c;
     notAutoCleanRemoteServer := notAutoCleanRemoteServer c;
     _messages := _messages c; _servers := _servers c;
     _serversTimestamp := _serversTimestamp c;
     _clearServerListTid := _clearServerListTid c; _cp := _cp c; _cs := b;
     frames := frames c; keysPending := keysPending c; binds := binds c;
     invocations := invocations c; retryTimers := retryTimers c;
     draws := draws c; trace := trace c |}.

Definition with_frames (l : list CallFrame) (c : Client) : Client :=
  {| _id := _id c; _prefix := _prefix c; _timeout := _timeout c;
     _serverMaxAge := _serverMaxAge c;
     notAutoCleanRemoteServer := notAutoCleanRemoteServer c;
     _messages := _messages c; _servers := _servers c;
     _serversTimestamp := _serversTimestamp c;
     _clearServerListTid := _clearServerListTid c; _cp := _cp c; _cs := _cs c;
     frames := l; keysPending := keysPending c; binds := binds c;
     invocations := invocations c; retryTimers := retryTimers c;
     draws := draws c; trace := trace c |}.

Definition with_keysPending (l : list (string * nat)) (c : Client) : Client :=
  {| _id := _id c; _prefix := _prefix c; _timeout := _timeout c;
     _serverMaxAge := _serverMaxAge c;
     notAutoCleanRemoteServer := notAutoCleanRemoteServer c;
     _messages := _messages c; _servers := _servers c;
     _serversTimestamp := _serversTimestamp c;
     _clearServerListTid := _clearServerListTid c; _cp := _cp c; _cs := _cs c;
     frames := frames c; keysPending := l; binds := binds c;
     invocations := invocations c; retryTimers := retryTimers c;
     draws := draws c; trace := trace c |}.

Definition with_binds (l : list BindFrame) (c : Client) : Client :=
  {| _id := _id c; _prefix := _prefix c; _timeout := _timeout c;
     _serverMaxAge := _serverMaxAge c;
     notAutoCleanRemoteServer := notAutoCleanRemoteServer c;
     _messages := _messages c; _servers := _servers c;
     _serversTimestamp := _serversTimestamp c;
     _clearServerListTid := _clearServerListTid c; _cp := _cp c; _cs := _cs c;
     frames := frames c; keysPending := keysPending c; binds := l;
     invocations := invocations c; retryTimers := retryTimers c;
     draws := draws c; trace := trace c |}.

Definition with_invocations (l : list InvFrame) (c : Client) : Client :=
  {| _id := _id c; _prefix := _prefix c; _timeout := _timeout c;
     _serverMaxAge := _serverMaxAge c;
     notAutoCleanRemoteServer := notAutoCleanRemoteServer c;
     _messages := _messages c; _servers := _servers c;
     _serversTimestamp := _serversTimestamp c;
     _clearServerListTid := _clearServerListTid c; _cp := _cp c; _cs := _cs c;
     frames := frames c; keysPending := keysPending c; binds := binds c;
     invocations := l; retryTimers := retryTimers c;
     draws := draws c; trace := trace c |}.

Definition with_retryTimers (l : list (nat * Z)) (c : Client) : Client :=
  {| _id := _id c; _prefix := _prefix c; _timeout := _timeout c;
     _serverMaxAge := _serverMaxAge c;
     notAutoCleanRemoteServer := notAutoCleanRemoteServer c;
     _messages := _messages c; _servers := _servers c;
     _serversTimestamp := _serversTimestamp c;
     _clearServerListTid := _clearServerListTid c; _cp := _cp c; _cs := _cs c;
     frames := frames c; keysPending := keysPending c; binds := binds c;
     invocations := invocations c; retryTimers := l;
     draws := draws c; trace := trace c |}.

Definition with_draws (n : nat) (c : Client) : Client :=
  {| _id := _id c; _prefix := _prefix c; _timeout := _timeout c;
     _serverMaxAge := _serverMaxAge c;
     notAutoCleanRemoteServer := notAutoCleanRemoteServer c;
     _messages := _messages c; _servers := _servers c;
     _serversTimestamp := _serversTimestamp c;
     _clearServerListTid := _clearServerListTid c; _cp := _cp c; _cs := _cs c;
     frames := frames c; keysPending := keysPending c; binds := binds c;
     invocations := invocations c; retryTimers := retryTimers c;
     draws := n; trace := trace c |}.

Definition with_trace (t : list Effect) (c : Client) : Client :=
  {| _id := _id c; _prefix := _prefix c; _timeout := _timeout c;
     _serverMaxAge := _serverMaxAge c;
     notAutoCleanRemoteServer := notAutoCleanRemoteServer c;
     _messages := _messages c; _servers := _servers c;
     _serversTimestamp := _serversTimestamp c;
     _clearServerListTid := _clearServerListTid c; _cp := _cp c; _cs := _cs c;
     frames := frames c; keysPending := keysPending c; binds := binds c;
     invocations := invocations c; retryTimers := retryTimers c;
     draws := draws c; trace := t |}.

(** The newest effect is at the head of [trace]. *)
Definition emit (e : Effect) (c : Client) : Client := with_trace (e :: trace c) c.

(** Updates of single variables of a call frame. *)
Definition set_serverId (s : option string) (f : CallFrame) : CallFrame :=
  {| f_name := f_name f; f_args := f_args f; f_callback := f_callback f;
     f_msg := f_msg f; f_serverId := s; f_hasCallback := f_hasCallback f;
     f_tid := f_tid f |}.

Definition set_hasCallback (b : bool) (f : CallFrame) : CallFrame :=
  {| f_name := f_name f; f_args := f_args f; f_callback := f_callback f;
     f_msg := f_msg f; f_serverId := f_serverId f; f_hasCallback := b;
     f_tid := f_tid f |}.

Definition set_tid (t : option Z) (f : CallFrame) : CallFrame :=
  {| f_name := f_name f; f_args := f_args f; f_callback := f_callback f;
     f_msg := f_msg f; f_serverId := f_serverId f;
     f_hasCallback := f_hasCallback f; f_tid := t |}.

Definition update_frame (k : nat) (g : CallFrame -> CallFrame) (c : Client) : Client :=
  with_frames (alter g k (frames c)) c.

Definition set_onRetry (r : OnRetry) (b : BindFrame) : BindFrame :=
  {| b_name := b_name b; b_retry := b_retry b; b_timeout := b_timeout b;
     b_onRetry := r |}.

Definition set_retryCounter (n : Z) (i : InvFrame) : InvFrame :=
  {| i_bind := i_bind i; i_args := i_args i; i_callback := i_callback i;
     i_retryCounter := n |}.

(** ** Plain objects and what they inherit

    A read [o[name]] of a name that is no own property of a plain object
    finds what the prototype of the object has under that name.  These are
    the functions of Object.prototype, with their [length]. *)
Definition object_prototype : list (string * nat) :=
  [("constructor", 1); ("hasOwnProperty", 1); ("isPrototypeOf", 1);
   ("propertyIsEnumerable", 1); ("toLocaleString", 0); ("toString", 0);
   ("valueOf", 0); ("__defineGetter__", 2); ("__defineSetter__", 2);
   ("__lookupGetter__", 1); ("__lookupSetter__", 1)]%nat.

Definition function_of (table : list (string * nat)) (name : string) : option nat :=
  snd <$> List.find (fun entry => String.eqb (fst entry) name) table.

(** What a read of [this._servers[name]] can yield: an array of server ids;
    a function, with its [length]; a string or a number (an element and the
    length of an array that is the prototype); an object without [length]
    (Object.prototype itself, under __proto__); or undefined. *)
Inductive Read :=
| RArray (l : list string)
| RFunction (len : nat)
| RString (s : string)
| RNumber (n : nat)
| RObject
| RUndefined.

(** [Object.prototype[name]], for a name other than __proto__. *)
Definition read_prototype (name : string) : Read :=
  match function_of object_prototype name with
  | Some len => RFunction len
  | None => RUndefined
  end.

(** [p[name]] for the own properties of an array [p] apart from [length]:
    its elements, under their indices written in decimal. *)
Definition array_element (p : list string) (name : string) : option string :=
  snd <$> List.find (fun entry => String.eqb (pretty (fst entry)) name)
            (combine (seq 0 (length p)) p).

(** [v && v.length > 0] *)
Definition has_length (v : Read) : bool :=
  match v with
  | RArray l => (0 <? length l)%nat
  | RFunction len => (0 <? len)%nat
  | RString s => (0 <? String.length s)%nat
  | RNumber _ | RObject | RUndefined => false
  end.

(** What a read of [me._messages[id]] can yield, as far as [typeof] and an
    application tell: the [cb] of call frame [k]; a function that
    Object.prototype has under the name [id]; or something that is not a
    function. *)
Inductive Handler :=
| HCb (k : nat)
| HInherited (name : string)
| HNoFunction.

(** [Object.prototype[id]] as a handler; under __proto__ it is an object. *)
Definition inherited_handler (id : string) : Handler :=
  match function_of object_prototype id with
  | Some _ => HInherited id
  | None => HNoFunction
  end.

(** [o[name] = n] for a number [n] on a plain object [o]: under the name
    __proto__ it is the setter of the prototype that is called, and that
    ignores a number. *)
Definition set_number (name : string) (n : Z) (o : gmap string Z) : gmap string Z :=
  if String.eqb name "__proto__" then o else <[name := n]> o.

(** A method returns or throws; either way it leaves the client in some
    state, since what it has assigned before it throws stays assigned. *)
Inductive Outcome :=
| Returns (c : Client)
| Throws (c : Client).

Definition state_of (o : Outcome) : Client :=
  match o with Returns c | Throws c => c end.

Definition throws (o : Outcome) : bool :=
  match o with Returns _ => false | Throws _ => true end.

(** ** A reference environment

    Concrete stand-ins for the three helpers of lib/utils.js and for the
    two tables of the runtime, used to run the client on examples: message
    ids are numbered, the random index is always the first, and a payload
    reads [type:id:error:number]; Array.prototype is that of ECMAScript
    5.1, and the functions of Object.prototype applied to a null [this] do
    what ECMAScript says. *)
Definition digit_id (n : nat) : string :=
  "m" ++ String (ascii_of_nat (48 + n)) EmptyString.

Definition ref_pocketCallMessage (n : nat) (id name : string) (args : list Value) : CallMessage :=
  {| m_id := digit_id n; m_data := "call:" ++ digit_id n ++ ":" ++ id ++ ":" ++ name |}.

Definition ref_random_index (n len : nat) : nat := 0%nat.

Fixpoint parse_dec (acc : Z) (s : string) : Z :=
  match s with
  | EmptyString => acc
  | String a s' => parse_dec (10 * acc + (Z.of_nat (nat_of_ascii a) - 48)) s'
  end.

Definition ref_parseMessage (payload : string) : Envelope :=
  let segs := split ":"%char payload in
  let seg i := default EmptyString (segs !! i) in
  {| e_type := seg 0%nat;
     e_id := seg 1%nat;
     e_sender := EmptyString;
     e_error := if String.eqb (seg 2%nat) EmptyString then VNull else VError (seg 2%nat) (Some (seg 2%nat));
     e_args := [VNum (parse_dec 0 (seg 3%nat))] |}.

Definition ref_array_prototype (name : string) : option nat :=
  function_of
    [("constructor", 1); ("toString", 0); ("toLocaleString", 0); ("concat", 1);
     ("join", 1); ("pop", 0); ("push", 1); ("reverse", 0); ("shift", 0);
     ("slice", 2); ("sort", 1); ("splice", 2); ("unshift", 1); ("indexOf", 1);
     ("lastIndexOf", 1); ("every", 1); ("some", 1); ("forEach", 1); ("map", 1);
     ("filter", 1); ("reduce", 1); ("reduceRight", 1)]%nat name.

Definition is_object (v : Value) : bool :=
  match v with VError _ _ | VFn _ => true | _ => false end.

Definition ref_builtin_throws (name : string) (arguments : list Value) : bool :=
  if String.eqb name "constructor" || String.eqb name "toString" then false
  else if String.eqb name "isPrototypeOf" then is_object (List.hd VUndefined arguments)
  else true.

(** ** The methods of CloudsClient *)

Section Methods.

(** Three helpers of lib/utils.js reach the dispatch core.  They are taken
    as they are used: [pocketCallMessage n id name args] is the message the
    helper builds when [n] messages were built before it,
    [random_index n len] is [parseInt(Math.random() * len, 10)] at the
    [n]-th draw, and [parseMessage] decodes a delivered payload. *)
Variable pocketCallMessage : nat -> string -> string -> list Value -> CallMessage.
Variable random_index : nat -> nat -> nat.
Variable parseMessage : string -> Envelope.

(** Two tables of the runtime reach it too, through what the plain objects
    inherit.  [array_prototype name] is the [length] of the function that
    Array.prototype has under [name], if it has one: which methods there
    are depends on the version of the runtime.
    [builtin_throws name arguments] tells whether the function that
    Object.prototype has under [name] throws when it is applied to
    [arguments] with [this] null. *)
Variable array_prototype : string -> option nat.
Variable builtin_throws : string -> list Value -> bool.

(** [_key]: the segments joined by a colon, after the prefix when it is set. *)
Definition _key (c : Client) (list : list (option string)) : string :=
  let list := if negb (String.eqb (_prefix c) EmptyString) then Some (_prefix c) :: list else list in
  join ":" list.

(** [_callback]: anything that is not a function becomes the logging default. *)
Definition _callback (fn : Value) : Fn :=
  match fn with
  | VFn u => UserFn u
  | _ => DebugFn
  end.

Definition _sendCallRequest (c : Client) (serverId : option string) (msg : string)
    (callback : Value) : Client :=
  let key := _key c [Some "L"; serverId] in
  emit (Publish key msg (_callback callback)) c.

(** [_saveServerList], with [now] the value of [Date.now()]; [list] is
    [None] for a falsy argument.  Under the name __proto__ the first
    assignment makes the list the prototype of [_servers], and the second
    does nothing: the setter of the prototype ignores a number. *)
Definition _saveServerList (c : Client) (name : string) (list : option (list string))
    (now : Z) : Client :=
  let c := with_servers (<[name := default [] list]> (_servers c)) c in
  with_serversTimestamp (set_number name now (_serversTimestamp c)) c.

(** [this._servers[name]]: an own property; or, through the prototype,
    which is Object.prototype unless an array has been assigned to
    __proto__: Object.prototype itself under __proto__, an element or the
    length of that array, a method of Array.prototype, a function of
    Object.prototype. *)
Definition read_servers (c : Client) (name : string) : Read :=
  match _servers c !! name with
  | Some l => RArray l
  | None =>
      if String.eqb name "__proto__" then RObject
      else
        match _servers c !! "__proto__" with
        | None => read_prototype name
        | Some p =>
            match array_element p name with
            | Some s => RString s
            | None =>
                if String.eqb name "length" then RNumber (length p)
                else
                  match array_prototype name with
                  | Some len => RFunction len
                  | None => read_prototype name
                  end
            end
        end
  end.

(** [_removeServer].  The guard [this._servers[name] &&
    this._servers[name].length > 0] also lets through a function or a
    string that has a [length] above 0; these have no [filter], and calling
    it throws a TypeError before anything else is done. *)
Definition _removeServer (c : Client) (serverId : option string) (name : string) : Outcome :=
  let filtered :=
    let v := read_servers c name in
    if has_length v then
      match v with
      | RArray l =>
          Returns (with_servers
                     (<[name := filter (fun item => Some item <> serverId) l]> (_servers c)) c)
      | _ => Throws c
      end
    else Returns c in
  match filtered with
  | Throws c => Throws c
  | Returns c =>
      Returns (if negb (notAutoCleanRemoteServer c)
               then emit (Del (_key c [Some "S"; Some name; serverId]) (_callback VUndefined)) c
               else c)
  end.

(** Whether [_removeServer] throws: it does for no own list under [name]
    and an inherited value that passes the guard. *)
Definition removeServer_throws (c : Client) (name : string) : bool :=
  match read_servers c name with
  | RArray _ => false
  | v => has_length v
  end.

Definition _removeMessageHandler (c : Client) (id : string) : Client :=
  with_messages (delete id (_messages c)) c.

(** *** [call] and [bind], with the inner function [cb] left open

    [cb] applies the caller's callback, which for a bound caller is
    [onCallback], which may start the next attempt with [call]; and [call]
    hands [cb] to [_findOneServer].  The functions of this cycle are first
    written over an arbitrary [cb]; the cycle is closed below. *)
Section OpenCb.

Variable cb : Client -> nat -> list Value -> Client.

(** The function literal that [call] passes to [_findOneServer], in the
    closure of call frame [k]. *)
Definition found (c : Client) (k : nat) (err : Value) (ret : option string) : Client :=
  if truthy err then cb c k [err]
  else
    match frames c !! k with
    | None => c
    | Some f =>
        let c := update_frame k (set_serverId ret) c in
        let c := with_messages (<[m_id (f_msg f) := k]> (_messages c)) c in
        _sendCallRequest c ret (m_data (f_msg f)) VUndefined
    end.

(** [returnOneServer] inside [_findOneServer]; both places that call it
    have stored an array under [name] just before. *)
Definition returnOneServer (c : Client) (name : string) (k : nat) : Client :=
  match _servers c !! name with
  | None => c
  | Some l =>
      let len := length l in
      if (len <? 1)%nat
      then found c k (VError "no available server" (Some CLOUDS_NO_AVAILABLE_SERVER)) None
      else
        let i := random_index (draws c) (length l) in
        let id := l !! i in
        found (with_draws (S (draws c)) c) k VNull id
  end.

(** The function literal that [_findOneServer] passes to [keys]; [list] is
    [None] when the reply is not an array. *)
Definition keysReply (c : Client) (name : string) (k : nat) (err : Value)
    (list : option (list string)) (now : Z) : Client :=
  if truthy err then found c k err None
  else
    let list := default [] list in
    let list := map last_segment list in
    let c := _saveServerList c name (Some list) now in
    returnOneServer c name k.

(** [_findOneServer (name, callback)] where [callback] is the function
    literal of call frame [k].  The KEYS command is left pending.
    [Array.isArray(me._servers[name])] holds exactly of what the map has
    under [name]: nothing that is inherited is an array of its own. *)
Definition _findOneServer (c : Client) (name : string) (k : nat) : Client :=
  let c :=
    match _servers c !! name with
    | Some _ => c
    | None => with_servers (<[name := []]> (_servers c)) c
    end in
  if (length (default [] (_servers c !! name)) <? 1)%nat
  then
    let key := _key c [Some "S"; Some name; Some "*"] in
    with_keysPending (keysPending c ++ [(name, k)]) (emit (Keys key) c)
  else returnOneServer c name k.

Definition call (c : Client) (name : string) (args : list Value) (callback : Fn) : Client :=
  let k := length (frames c) in
  let msg := pocketCallMessage k (_id c) name args in
  let c := with_frames (frames c ++
             [{| f_name := name; f_args := args; f_callback := callback;
                 f_msg := msg; f_serverId := None; f_hasCallback := false;
                 f_tid := None |}]) c in
  let c := _findOneServer c name k in
  let c := update_frame k (set_hasCallback false) c in
  update_frame k (set_tid (Some (_timeout c * 1000))) c.

(** The inner function [call] of a bound caller, in invocation [inv]. *)
Definition bound_call (c : Client) (inv : nat) (args : list Value) : Client :=
  match invocations c !! inv with
  | None => c
  | Some iv =>
      match binds c !! i_bind iv with
      | None => c
      | Some b => call c (b_name b) args (OnCallback inv)
      end
  end.

(** The default [onRetry] that invocation [j] stored. *)
Definition default_onRetry (c : Client) (j : nat) : Client :=
  match invocations c !! j with
  | None => c
  | Some ivj => bound_call c j (i_args ivj)
  end.

(** [start]: [onRetry.apply(null, args.concat(call))] *)
Definition start (c : Client) (inv : nat) : Client :=
  match invocations c !! inv with
  | None => c
  | Some iv =>
      match binds c !! i_bind iv with
      | None => c
      | Some b =>
          match b_onRetry b with
          | NotAFunction => c
          | UserOnRetry g => bound_call c inv (g (i_args iv))
          | DefaultOnRetry j => default_onRetry c j
          end
      end
  end.

Definition tryAgain (c : Client) (inv : nat) : Client :=
  let c := with_invocations
             (alter (fun iv => set_retryCounter (i_retryCounter iv + 1) iv) inv (invocations c)) c in
  start c inv.

Definition onCallback (c : Client) (inv : nat) (arguments : list Value) : Client :=
  match invocations c !! inv with
  | None => c
  | Some iv =>
      match binds c !! i_bind iv with
      | None => c
      | Some b =>
          let err := List.hd VUndefined arguments in
          if truthy err && (i_retryCounter iv <? b_retry b) then
            if decide (code_of err = Some CLOUDS_CALL_SERVICE_TIMEOUT) then tryAgain c inv
            else if decide (code_of err = Some CLOUDS_NO_AVAILABLE_SERVER)
            then with_retryTimers (retryTimers c ++ [(inv, b_timeout b)]) c
            else emit (Outer inv (i_callback iv) arguments) c
          else emit (Outer inv (i_callback iv) arguments) c
      end
  end.

(** [callback.apply(null, arguments)] inside [cb] of call frame [k]. *)
Definition apply_callback (c : Client) (k : nat) (callback : Fn) (arguments : list Value) : Client :=
  let c := emit (Apply k callback arguments) c in
  match callback with
  | OnCallback inv => onCallback c inv arguments
  | UserFn _ | DebugFn => c
  end.

(** The body of [cb] in call frame [k]. *)
Definition cb_body (c : Client) (k : nat) (arguments : list Value) : Client :=
  match frames c !! k with
  | None => c
  | Some f =>
      if f_hasCallback f then c
      else
        let c := update_frame k (set_hasCallback true) c in
        let c := update_frame k (set_tid None) c in
        apply_callback c k (f_callback f) arguments
  end.

End OpenCb.

(** Closing the cycle.  [call] reaches [returnOneServer] directly only when
    the cached list is not empty, and then [found] does not apply [cb]
    ([call_any_cb] below); so one unfolding of [cb_body] does not depend on
    the function it is given, and [cb] satisfies its own defining equation
    ([cb_unfold] below). *)
Definition cb_unreached (c : Client) (k : nat) (arguments : list Value) : Client := c.

Definition cb : Client -> nat -> list Value -> Client := cb_body cb_unreached.

(** [checkTimeout] in call frame [k]: when [_removeServer] throws, [cb]
    is not reached. *)
Definition checkTimeout (c : Client) (k : nat) : Outcome :=
  match frames c !! k with
  | None => Returns c
  | Some f =>
      let err := VError "timeout" (Some CLOUDS_CALL_SERVICE_TIMEOUT) in
      let c := _removeMessageHandler c (m_id (f_msg f)) in
      match _removeServer c (f_serverId f) (f_name f) with
      | Throws c => Throws c
      | Returns c => Returns (cb c k [err])
      end
  end.

(** [me._messages[id]]: an own property, or what Object.prototype has under
    that name. *)
Definition read_messages (c : Client) (id : string) : Handler :=
  match _messages c !! id with
  | Some k => HCb k
  | None => inherited_handler id
  end.

(** [_handleCallResult]: whatever is a function is taken for the handler,
    also a function inherited from Object.prototype; that one is applied
    with [this] null and may throw. *)
Definition _handleCallResult (c : Client) (msg : Envelope) : Outcome :=
  match read_messages c (e_id msg) with
  | HNoFunction => Returns c
  | HCb k =>
      let c := _removeMessageHandler c (e_id msg) in
      Returns (cb c k ([js_or (e_error msg) VNull] ++ e_args msg))
  | HInherited name =>
      let c := _removeMessageHandler c (e_id msg) in
      if builtin_throws name ([js_or (e_error msg) VNull] ++ e_args msg)
      then Throws c else Returns c
  end.

Definition _handleMessage (c : Client) (msg : Envelope) : Outcome :=
  if String.eqb (e_type msg) "result" then _handleCallResult c msg
  else Returns c.

(** [_listen]: the subscription, and the listener for the message event. *)
Definition _listen (c : Client) (callback : Value) : Client :=
  let key := _key c [Some "L"; Some (_id c)] in
  emit (Subscribe key (_callback callback)) c.

Definition listener (c : Client) (channel msg : string) : Outcome :=
  let key := _key c [Some "L"; Some (_id c)] in
  if negb (String.eqb channel key) then Returns c
  else _handleMessage c (parseMessage msg).

(** The client after the listener has run, whether it returned or threw. *)
Definition on_message (c : Client) (channel msg : string) : Client :=
  state_of (listener c channel msg).

(** [_autoClearServerList]: the interval timer, with its period in
    milliseconds, and the function it runs at every tick. *)
Definition _autoClearServerList (c : Client) : Client :=
  with_clearServerListTid (Some (_serverMaxAge c * 500)) c.

(** One round of the loop over [Object.keys(me._servers)].  A name without
    an own timestamp reads undefined or a function of Object.prototype
    there, and neither compares at most [t]. *)
Definition clear_one (t : Z) (c : Client) (name : string) : Client :=
  match _serversTimestamp c !! name with
  | Some ts =>
      if ts <=? t
      then with_serversTimestamp (delete name (_serversTimestamp c))
             (with_servers (delete name (_servers c)) c)
      else c
  | None => c
  end.

Definition clearServerList (c : Client) (now : Z) : Client :=
  let t := now - _serverMaxAge c * 1000 in
  foldl (clear_one t) c (fst <$> map_to_list (_servers c)).

Definition exit (c : Client) (callback : Value) : Client :=
  let c := with_clearServerListTid None c in
  let c := emit EndCp (with_cp false c) in
  let c := emit EndCs (with_cs false c) in
  let _ := _callback callback in
  c.

(** [bind]: the new frame is the returned function; it is referred to by its
    position in [binds]. *)
Definition bind (c : Client) (name : string) (retry : Z)
    (onRetry : option (list Value -> list Value)) : Client :=
  let retry := if 0 <? retry then retry else 0 in
  let timeout := _timeout c * 1000 in
  let timeout := if 0 <? timeout then timeout else 0 in
  with_binds (binds c ++
    [{| b_name := name; b_retry := retry; b_timeout := timeout;
        b_onRetry := match onRetry with Some g => UserOnRetry g | None => NotAFunction end |}]) c.

(** The function returned by [bind], applied to [arguments]; [None] when it
    throws. *)
Definition bound (c : Client) (b : nat) (arguments : list Value) : option Client :=
  match binds c !! b with
  | None => None
  | Some bf =>
      let args := List.removelast arguments in
      match List.last arguments VUndefined with
      | VFn u =>
          let inv := length (invocations c) in
          let c :=
            match b_onRetry bf with
            | NotAFunction => with_binds (alter (set_onRetry (DefaultOnRetry inv)) b (binds c)) c
            | _ => c
            end in
          let c := with_invocations (invocations c ++
                     [{| i_bind := b; i_args := args; i_callback := u;
                         i_retryCounter := 0 |}]) c in
          Some (start cb c inv)
      | _ => None
      end
  end.

(** The constructor.  [id] is what [utils.uniqueId] returns. *)
Record Options := {
  o_redis_prefix : option string;
  o_timeout : option Z;
  o_serverMaxAge : option Z;
  o_notAutoCleanRemoteServer : bool
}.

Definition CloudsClient (options : Options) (id : string) : Client :=
  let timeout :=
    match o_timeout options with
    | Some t => if 0 <? t then t else define.timeout
    | None => define.timeout
    end in
  let serverMaxAge :=
    match o_serverMaxAge options with
    | Some a => if 0 <? a then a else define.serverMaxAge
    | None => define.serverMaxAge
    end in
  let c :=
    {| _id := id;
       _prefix := match o_redis_prefix options with
                  | Some p => if String.eqb p EmptyString then define.redisPrefix else p
                  | None => define.redisPrefix
                  end;
       _timeout := timeout;
       _serverMaxAge := if serverMaxAge =? 0 then define.serverMaxAge else serverMaxAge;
       notAutoCleanRemoteServer := o_notAutoCleanRemoteServer options;
       _messages := ∅; _servers := ∅; _serversTimestamp := ∅;
       _clearServerListTid := None; _cp := true; _cs := true;
       frames := []; keysPending := []; binds := []; invocations := [];
       retryTimers := []; draws := 0%nat; trace := [] |} in
  let c := _autoClearServerList c in
  _listen c VUndefined.

(** ** The event loop *)

Inductive Event :=
| UserCall (name : string) (args : list Value) (u : nat)
| UserBind (name : string) (retry : Z) (onRetry : option (list Value -> list Value))
| UserInvoke (b : nat) (arguments : list Value)
| UserExit (callback : Value)
| KeysReplied (i : nat) (err : Value) (list : option (list string)) (now : Z)
| TimeoutExpired (k : nat)
| RetryTimerExpired (i : nat)
| MessageDelivered (channel msg : string)
| SweepTick (now : Z).

(** The per-call timer of frame [k] expires, if it is still pending. *)
Definition timer_fires (c : Client) (k : nat) : Outcome :=
  match frames c !! k with
  | Some f =>
      match f_tid f with
      | Some _ => checkTimeout (update_frame k (set_tid None) c) k
      | None => Returns c
      end
  | None => Returns c
  end.

(** The client after the timer has fired, whether [checkTimeout] returned
    or threw. *)
Definition timeout_expires (c : Client) (k : nat) : Client :=
  state_of (timer_fires c k).

(** The [i]-th pending KEYS command is answered. *)
Definition keys_replied (c : Client) (i : nat) (err : Value)
    (list : option (list string)) (now : Z) : Client :=
  match keysPending c !! i with
  | Some (name, k) =>
      keysReply cb (with_keysPending (delete i (keysPending c)) c) name k err list now
  | None => c
  end.

(** The [i]-th pending delayed retry runs. *)
Definition retry_timer_expires (c : Client) (i : nat) : Client :=
  match retryTimers c !! i with
  | Some (inv, _) => tryAgain cb (with_retryTimers (delete i (retryTimers c)) c) inv
  | None => c
  end.

Definition sweep_tick (c : Client) (now : Z) : Client :=
  match _clearServerListTid c with
  | Some _ => clearServerList c now
  | None => c
  end.

Definition step (c : Client) (ev : Event) : Client :=
  match ev with
  | UserCall name args u => call cb c name args (UserFn u)
  | UserBind name retry onRetry => bind c name retry onRetry
  | UserInvoke b arguments => default c (bound c b arguments)
  | UserExit callback => exit c callback
  | KeysReplied i err list now => keys_replied c i err list now
  | TimeoutExpired k => timeout_expires c k
  | RetryTimerExpired i => retry_timer_expires c i
  | MessageDelivered channel msg => on_message c channel msg
  | SweepTick now => sweep_tick c now
  end.

Definition run (c : Client) (evs : list Event) : Client := foldl step c evs.

(** ** What the properties are stated with *)

(** How often [callback.apply] ran in call frame [k]. *)
Fixpoint applied (k : nat) (tr : list Effect) : nat :=
  match tr with
  | [] => 0%nat
  | Apply k' _ _ :: tr' => ((if Nat.eqb k k' then 1 else 0) + applied k tr')%nat
  | _ :: tr' => applied k tr'
  end.

Definition is_publish (e : Effect) : bool :=
  match e with Publish _ _ _ => true | _ => false end.

Definition is_del (e : Effect) : bool :=
  match e with Del _ _ => true | _ => false end.

Definition is_keys (e : Effect) : bool :=
  match e with Keys _ => true | _ => false end.

(** The applications of user function [u], through [cb] or through
    [onCallback]. *)
Definition is_invocation_of (u : nat) (e : Effect) : bool :=
  match e with
  | Apply _ (UserFn u') _ => Nat.eqb u u'
  | Outer _ u' _ => Nat.eqb u u'
  | _ => false
  end.

Definition publishes (tr : list Effect) : list Effect := List.filter is_publish tr.
Definition dels (tr : list Effect) : list Effect := List.filter is_del tr.
Definition scans (tr : list Effect) : list Effect := List.filter is_keys tr.
Definition invocations_of (u : nat) (tr : list Effect) : list Effect :=
  List.filter (is_invocation_of u) tr.

(** The state in which [cb] of frame [k] applies the callback: latch set,
    timer cleared, application recorded. *)
Definition trip (k : nat) (fn : Fn) (arguments : list Value) (c : Client) : Client :=
  emit (Apply k fn arguments)
    (update_frame k (set_tid None) (update_frame k (set_hasCallback true) c)).

(** The latch invariant: the callback of a frame ran once if its latch is
    set and never otherwise, and a set latch means a cleared timer. *)
Definition Inv (c : Client) : Prop :=
  (forall k, frames c !! k = None -> applied k (trace c) = 0%nat) /\
  (forall k f, frames c !! k = Some f ->
     applied k (trace c) = if f_hasCallback f then 1%nat else 0%nat) /\
  (forall k f, frames c !! k = Some f -> f_hasCallback f = true -> f_tid f = None).

(** [Ext c c']: what a new attempt may change.  Frames are only added, with
    the latch open; no callback is applied and nothing is deleted remotely;
    a handler is only registered for a new frame; a cached list is only
    created empty. *)
Definition Ext (c c' : Client) : Prop :=
  (exists news, frames c' = (frames c ++ news)%list /\
     Forall (fun f => f_hasCallback f = false) news) /\
  (exists extra, trace c' = (extra ++ trace c)%list) /\
  (forall j, applied j (trace c') = applied j (trace c)) /\
  dels (trace c') = dels (trace c) /\
  (forall id k', _messages c' !! id = Some k' ->
     _messages c !! id = Some k' \/ (length (frames c) <= k')%nat) /\
  (forall n, _servers c' !! n = _servers c !! n \/
     (_servers c !! n = None /\ _servers c' !! n = Some [])) /\
  _serversTimestamp c' = _serversTimestamp c /\
  _prefix c' = _prefix c /\ _id c' = _id c /\ _timeout c' = _timeout c /\
  _serverMaxAge c' = _serverMaxAge c /\
  notAutoCleanRemoteServer c' = notAutoCleanRemoteServer c /\
  _clearServerListTid c' = _clearServerListTid c.

(** Applications are never taken back. *)
Definition Mono (c c' : Client) : Prop :=
  forall j, (applied j (trace c) <= applied j (trace c'))%nat.

(** The two errors that the client itself raises. *)
Definition no_available_server : Value :=
  VError "no available server" (Some CLOUDS_NO_AVAILABLE_SERVER).

Definition call_timeout : Value :=
  VError "timeout" (Some CLOUDS_CALL_SERVICE_TIMEOUT).

(** The configuration is fixed at construction. *)
Definition Cfg (c c' : Client) : Prop :=
  _prefix c' = _prefix c /\ _id c' = _id c /\ _timeout c' = _timeout c /\
  _serverMaxAge c' = _serverMaxAge c /\
  notAutoCleanRemoteServer c' = notAutoCleanRemoteServer c.

(** The test of the sweep: the timestamp of [name] is at most the
    threshold [t]. *)
Definition expired (t : Z) (c : Client) (name : string) : bool :=
  match _serversTimestamp c !! name with
  | Some ts => ts <=? t
  | None => false
  end.

(** Successive ticks of the sweep, at the given times. *)
Definition sweeps (c : Client) (ticks : list Z) : Client := foldl clearServerList c ticks.

(** The applications of outer callbacks of bound callers. *)
Definition is_outer (e : Effect) : bool :=
  match e with Outer _ _ _ => true | _ => false end.

Definition outer_calls (tr : list Effect) : list Effect := List.filter is_outer tr.

(** The arguments that [onRetry] hands to the continuation. *)
Definition retry_args (bf : BindFrame) (iv : InvFrame) : list Value :=
  match b_onRetry bf with
  | UserOnRetry g => g (i_args iv)
  | _ => i_args iv
  end.

(** [Attempt R inv u name a c k r]: frame [k] is the newest call frame and
    is the attempt in flight of invocation [inv], which has retried [r]
    times out of [R]. *)
Definition Attempt (R : Z) (inv u : nat) (name : string) (a : list Value)
    (c : Client) (k : nat) (r : Z) : Prop :=
  length (frames c) = S k /\
  (exists fr d, frames c !! k = Some fr /\ f_callback fr = OnCallback inv /\
     f_hasCallback fr = false /\ f_tid fr = Some d /\
     f_name fr = name /\ f_args fr = a) /\
  (exists iv bf, invocations c !! inv = Some iv /\ i_retryCounter iv = r /\
     i_callback iv = u /\ binds c !! i_bind iv = Some bf /\ b_retry bf = R /\
     b_name bf = name /\ retry_args bf iv = a /\
     (b_onRetry bf = DefaultOnRetry inv \/ exists g, b_onRetry bf = UserOnRetry g)).

(** Every pending scan belongs to an existing call frame. *)
Definition Scans (c : Client) : Prop :=
  Forall (fun p => (snd p < length (frames c))%nat) (keysPending c).

(** The scan of call frame [k] is the newest pending KEYS command. *)
Definition scan_pending (c : Client) (k : nat) : bool :=
  match last (keysPending c) with
  | Some (_, k') => Nat.eqb k' k
  | None => false
  end.

(** Nobody answers the attempt in flight, call frame [k]: where its scan is
    still pending, the connection replies with the keys [keys] at time
    [now], so that the call is published; then the timer of the call
    expires. *)
Definition attempt_times_out (keys : list string) (now : Z) (c : Client) (k : nat) : Client :=
  let c :=
    if scan_pending c k
    then keys_replied c (length (keysPending c) - 1) VNull (Some keys) now
    else c in
  timeout_expires c k.

(** The attempts in the call frames [ks] time out one after the other; the
    scan of attempt [k] is answered with [keys k] at time [now k]. *)
Definition attempts_time_out (keys : nat -> list string) (now : nat -> Z) (c : Client)
    (ks : list nat) : Client :=
  foldl (fun c k => attempt_times_out (keys k) (now k) c k) c ks.

(** [InFlight name c k pending]: the service [name] of call frame [k] has
    a cached list of its own, and every pending scan belongs to an older
    call frame, except the scan of [k] itself, the newest, when [pending]. *)
Definition InFlight (name : string) (c : Client) (k : nat) (pending : bool) : Prop :=
  is_Some (_servers c !! name) /\
  exists old, Forall (fun p => (snd p < k)%nat) old /\
    keysPending c = (old ++ if pending then [(name, k)] else [])%list.

(** Every call frame from position [k0] on is an attempt of invocation
    [inv]: a call of [name] with arguments [a] whose callback is the
    [onCallback] of [inv]. *)
Definition Own (inv : nat) (name : string) (a : list Value) (k0 : nat) (c : Client) : Prop :=
  forall j fr, (k0 <= j)%nat -> frames c !! j = Some fr ->
    f_name fr = name /\ f_args fr = a /\ f_callback fr = OnCallback inv.

(** A string without a colon. *)
Fixpoint no_colon (s : string) : bool :=
  match s with
  | EmptyString => true
  | String a s' => negb (Ascii.eqb a ":"%char) && no_colon s'
  end.

(** Every handler in the table belongs to a call frame, and is stored under
    the correlation id of that frame. *)
Definition MsgInv (c : Client) : Prop :=
  forall id k, _messages c !! id = Some k ->
    exists fr, frames c !! k = Some fr /\ m_id (f_msg fr) = id.

(** Every timestamp belongs to a cached list. *)
Definition TsDom (c : Client) : Prop :=
  forall n ts, _serversTimestamp c !! n = Some ts -> is_Some (_servers c !! n).

(** Every call frame whose latch is open has its timer pending. *)
Definition Live (c : Client) : Prop :=
  forall k fr, frames c !! k = Some fr -> f_hasCallback fr = false -> is_Some (f_tid fr).

(** The client that [_removeServer] leaves when it returns. *)
Definition evicted (c : Client) (serverId : option string) (name : string) : Client :=
  let c :=
    match _servers c !! name with
    | Some l =>
        if (0 <? length l)%nat
        then with_servers (<[name := filter (fun item => Some item <> serverId) l]> (_servers c)) c
        else c
    | None => c
    end in
  if negb (notAutoCleanRemoteServer c)
  then emit (Del (_key c [Some "S"; Some name; serverId]) (_callback VUndefined)) c
  else c.

(** Whether the timer handler that event [ev] runs throws, and whether one
    has thrown in the course of the events [evs]. *)
Definition timer_throws (c : Client) (ev : Event) : bool :=
  match ev with
  | TimeoutExpired k => throws (timer_fires c k)
  | _ => false
  end.

Fixpoint run_throws (c : Client) (evs : list Event) : bool :=
  match evs with
  | [] => false
  | ev :: evs' => timer_throws c ev || run_throws (step c ev) evs'
  end.

(** The sweep timer and the two connections are as they were. *)
Definition Conn (c c' : Client) : Prop :=
  _clearServerListTid c' = _clearServerListTid c /\ _cp c' = _cp c /\ _cs c' = _cs c.

Definition is_exit (ev : Event) : bool :=
  match ev with UserExit _ => true | _ => false end.

(** ** The cycle between [call] and [cb] is well defined *)

Lemma call_any_cb (f g : Client -> nat -> list Value -> Client) c name args callback :
  call f c name args callback = call g c name args callback.
Proof.
  unfold call, _findOneServer. simpl.
  destruct (_servers c !! name) as [[|s l]|] eqn:E; simpl.
  - rewrite E. reflexivity.
  - rewrite E. simpl. unfold returnOneServer. simpl. rewrite E. reflexivity.
  - rewrite lookup_insert_eq. reflexivity.
Qed.

Lemma bound_call_any_cb f g c inv args :
  bound_call f c inv args = bound_call g c inv args.
Proof.
  unfold bound_call. destruct (invocations c !! inv); [|reflexivity].
  destruct (binds c !! _); [|reflexivity]. apply call_any_cb.
Qed.

Lemma start_any_cb f g c inv : start f c inv = start g c inv.
Proof.
  unfold start, default_onRetry.
  destruct (invocations c !! inv); [|reflexivity].
  destruct (binds c !! _) as [b|]; [|reflexivity].
  destruct (b_onRetry b) as [|h|j]; [reflexivity|apply bound_call_any_cb|].
  destruct (invocations c !! j); [apply bound_call_any_cb|reflexivity].
Qed.

Lemma onCallback_any_cb f g c inv args : onCallback f c inv args = onCallback g c inv args.
Proof.
  unfold onCallback, tryAgain.
  destruct (invocations c !! inv); [|reflexivity].
  destruct (binds c !! _); [|reflexivity].
  destruct (_ && _); [|reflexivity].
  destruct (decide _); [apply start_any_cb|reflexivity].
Qed.

Lemma cb_body_any_cb f g c k args : cb_body f c k args = cb_body g c k args.
Proof.
  unfold cb_body, apply_callback.
  destruct (frames c !! k) as [fr|]; [|reflexivity].
  destruct (f_hasCallback fr); [reflexivity|].
  destruct (f_callback fr); [reflexivity|reflexivity|apply onCallback_any_cb].
Qed.

(** [cb] is the function of the source: it satisfies the equation that the
    source's definition of [cb] is. *)
Lemma cb_unfold c k args : cb c k args = cb_body cb c k args.
Proof. unfold cb at 1. apply cb_body_any_cb. Qed.

(** ** Frames, traces and the latch invariant *)

Tactic Notation "fsimpl" :=
  cbn [_id _prefix _timeout _serverMaxAge notAutoCleanRemoteServer _messages
       _servers _serversTimestamp _clearServerListTid _cp _cs frames
       keysPending binds invocations retryTimers draws trace
       with_messages with_servers with_serversTimestamp
       with_clearServerListTid with_cp with_cs with_frames with_keysPending
       with_binds with_invocations with_retryTimers with_draws with_trace
       emit update_frame
       f_name f_args f_callback f_msg f_serverId f_hasCallback f_tid
       set_serverId set_hasCallback set_tid].

Tactic Notation "fsimpl" "in" hyp(H) :=
  cbn [_id _prefix _timeout _serverMaxAge notAutoCleanRemoteServer _messages
       _servers _serversTimestamp _clearServerListTid _cp _cs frames
       keysPending binds invocations retryTimers draws trace
       with_messages with_servers with_serversTimestamp
       with_clearServerListTid with_cp with_cs with_frames with_keysPending
       with_binds with_invocations with_retryTimers with_draws with_trace
       emit update_frame
       f_name f_args f_callback f_msg f_serverId f_hasCallback f_tid
       set_serverId set_hasCallback set_tid] in H.

Lemma Ext_refl c : Ext c c.
Proof.
  unfold Ext. repeat split; auto.
  - exists []. rewrite app_nil_r. split; [reflexivity|constructor].
  - exists []. reflexivity.
Qed.

Lemma alter_app_new {A} (g : A -> A) (l : list A) (x : A) :
  alter g (length l) (l ++ [x])%list = (l ++ [g x])%list.
Proof.
  induction l as [|a l IH]; simpl; [reflexivity|].
  f_equal. exact IH.
Qed.

(** The three ways through [_findOneServer]. *)
Lemma findOneServer_cases f c name k :
  _findOneServer f c name k =
    match _servers c !! name with
    | None =>
        with_keysPending (keysPending c ++ [(name, k)])
          (emit (Keys (_key c [Some "S"; Some name; Some "*"]))
             (with_servers (<[name := []]> (_servers c)) c))
    | Some [] =>
        with_keysPending (keysPending c ++ [(name, k)])
          (emit (Keys (_key c [Some "S"; Some name; Some "*"])) c)
    | Some (s :: l) =>
        found f (with_draws (S (draws c)) c) k VNull
          ((s :: l) !! random_index (draws c) (length (s :: l)))
    end.
Proof.
  unfold _findOneServer.
  destruct (_servers c !! name) as [[|s l]|] eqn:E.
  - rewrite E. reflexivity.
  - rewrite E. unfold returnOneServer. rewrite E. reflexivity.
  - fsimpl. rewrite lookup_insert_eq. reflexivity.
Qed.

Lemma found_ok f c k ret fr :
  frames c !! k = Some fr ->
  found f c k VNull ret =
    _sendCallRequest
      (with_messages (<[m_id (f_msg fr) := k]> (_messages c))
         (update_frame k (set_serverId ret) c))
      ret (m_data (f_msg fr)) VUndefined.
Proof. intros H. unfold found. cbn [truthy]. rewrite H. reflexivity. Qed.

Lemma found_err f c k err ret : truthy err = true -> found f c k err ret = f c k [err].
Proof. intros H. unfold found. rewrite H. reflexivity. Qed.

Lemma lookup_app_new {A} (l : list A) (x : A) : (l ++ [x])%list !! length l = Some x.
Proof. rewrite lookup_app_r by lia. rewrite Nat.sub_diag. reflexivity. Qed.

Lemma call_Ext f c name args callback : Ext c (call f c name args callback).
Proof.
  unfold call. rewrite findOneServer_cases. fsimpl.
  destruct (_servers c !! name) as [[|s l]|] eqn:E.
  - unfold Ext; fsimpl. rewrite !alter_app_new. repeat split; auto.
    + eexists. split; [reflexivity|]. repeat constructor.
    + eexists [_]. reflexivity.
  - erewrite found_ok by (fsimpl; apply lookup_app_new).
    unfold _sendCallRequest, Ext; fsimpl. rewrite !alter_app_new. repeat split; auto.
    + eexists. split; [reflexivity|]. repeat constructor.
    + eexists [_]. reflexivity.
    + intros id k' H. 
      destruct (decide (id = m_id (pocketCallMessage (length (frames c)) (_id c) name args))) as [->|Hne].
      * rewrite lookup_insert_eq in H. inversion H. right. lia.
      * rewrite lookup_insert_ne in H by congruence. left. exact H.
  - unfold Ext; fsimpl. rewrite !alter_app_new. repeat split; auto.
    + eexists. split; [reflexivity|]. repeat constructor.
    + eexists [_]. reflexivity.
    + intros n. destruct (decide (n = name)) as [->|Hne].
      * right. rewrite lookup_insert_eq. auto.
      * left. rewrite lookup_insert_ne by congruence. reflexivity.
Qed.

Lemma bound_call_Ext f c inv args : Ext c (bound_call f c inv args).
Proof.
  unfold bound_call. destruct (invocations c !! inv); [|apply Ext_refl].
  destruct (binds c !! _); [|apply Ext_refl]. apply call_Ext.
Qed.

Lemma start_Ext f c inv : Ext c (start f c inv).
Proof.
  unfold start, default_onRetry.
  destruct (invocations c !! inv); [|apply Ext_refl].
  destruct (binds c !! _) as [b|]; [|apply Ext_refl].
  destruct (b_onRetry b) as [|h|j]; [apply Ext_refl|apply bound_call_Ext|].
  destruct (invocations c !! j); [apply bound_call_Ext|apply Ext_refl].
Qed.

Lemma tryAgain_Ext f c inv : Ext c (tryAgain f c inv).
Proof. unfold tryAgain. exact (start_Ext f (with_invocations _ c) inv). Qed.

Lemma Ext_emit_Outer c inv u args : Ext c (emit (Outer inv u args) c).
Proof.
  destruct (Ext_refl c) as (H1 & _ & H). split; [exact H1|].
  split; [|exact H]. exists [Outer inv u args]. reflexivity.
Qed.

Lemma onCallback_Ext f c inv args : Ext c (onCallback f c inv args).
Proof.
  unfold onCallback.
  destruct (invocations c !! inv) as [iv|]; [|apply Ext_refl].
  destruct (binds c !! _) as [b|]; [|apply Ext_refl].
  destruct (_ && _); [|apply Ext_emit_Outer].
  destruct (decide _); [apply tryAgain_Ext|].
  destruct (decide _); [exact (Ext_refl c)|apply Ext_emit_Outer].
Qed.

(** What [cb] does: nothing when the latch is set, and otherwise it trips
    the latch and hands over to the callback. *)
Lemma cb_cases c k args :
  match frames c !! k with
  | Some fr =>
      if f_hasCallback fr then cb c k args = c
      else Ext (trip k (f_callback fr) args c) (cb c k args)
  | None => cb c k args = c
  end.
Proof.
  rewrite cb_unfold. unfold cb_body.
  destruct (frames c !! k) as [fr|]; [|reflexivity].
  destruct (f_hasCallback fr); [reflexivity|].
  unfold apply_callback. fold (trip k (f_callback fr) args c).
  destruct (f_callback fr); [apply Ext_refl|apply Ext_refl|apply onCallback_Ext].
Qed.

Lemma cb_tripped c k args fr :
  frames c !! k = Some fr -> f_hasCallback fr = true -> cb c k args = c.
Proof. intros H1 H2. pose proof (cb_cases c k args) as H. rewrite H1, H2 in H. exact H. Qed.

Lemma cb_open c k args fr :
  frames c !! k = Some fr -> f_hasCallback fr = false ->
  Ext (trip k (f_callback fr) args c) (cb c k args).
Proof. intros H1 H2. pose proof (cb_cases c k args) as H. rewrite H1, H2 in H. exact H. Qed.

Lemma cb_no_frame c k args : frames c !! k = None -> cb c k args = c.
Proof. intros H1. pose proof (cb_cases c k args) as H. rewrite H1 in H. exact H. Qed.

(** The invariant is kept by everything that only extends. *)
Lemma Inv_Ext c c' : Inv c -> Ext c c' -> Inv c'.
Proof.
  intros (Ia & Ib & Ic) ((news & Hfr & Hnews) & _ & Happ & _).
  repeat split.
  - intros k Hk. rewrite Happ. apply Ia.
    rewrite Hfr in Hk. apply lookup_ge_None in Hk. apply lookup_ge_None.
    rewrite length_app in Hk. lia.
  - intros k fr Hk. rewrite Happ. rewrite Hfr in Hk.
    apply lookup_app_Some in Hk as [Hk|[Hlen Hk]].
    + apply Ib. exact Hk.
    + rewrite (Ia k) by (apply lookup_ge_None; lia).
      apply list_elem_of_lookup_2 in Hk.
      rewrite Forall_forall in Hnews. rewrite (Hnews _ Hk). reflexivity.
  - intros k fr Hk Hl. rewrite Hfr in Hk.
    apply lookup_app_Some in Hk as [Hk|[Hlen Hk]].
    + eapply Ic; eauto.
    + apply list_elem_of_lookup_2 in Hk.
      rewrite Forall_forall in Hnews. rewrite (Hnews _ Hk) in Hl. discriminate.
Qed.

Lemma applied_other k j fn args tr :
  k <> j -> applied j (Apply k fn args :: tr) = applied j tr.
Proof.
  intros H. cbn [applied]. destruct (Nat.eqb_spec j k); [congruence|reflexivity].
Qed.

Lemma applied_same k fn args tr :
  applied k (Apply k fn args :: tr) = S (applied k tr).
Proof. cbn [applied]. rewrite Nat.eqb_refl. reflexivity. Qed.

Lemma Inv_trip c k fn args fr :
  Inv c -> frames c !! k = Some fr -> f_hasCallback fr = false ->
  Inv (trip k fn args c).
Proof.
  intros (Ia & Ib & Ic) Hk Hl. unfold trip. repeat split; fsimpl.
  - intros j Hj.
    destruct (decide (k = j)) as [->|Hne]; [rewrite !list_lookup_alter_eq in Hj|].
    + rewrite Hk in Hj. cbn in Hj. discriminate.
    + rewrite applied_other by exact Hne. apply Ia.
      rewrite !list_lookup_alter_ne in Hj by exact Hne. exact Hj.
  - intros j fj Hj.
    destruct (decide (k = j)) as [->|Hne].
    + rewrite !list_lookup_alter_eq, Hk in Hj. cbn in Hj. inversion Hj; subst fj.
      cbn [f_hasCallback set_tid set_hasCallback].
      rewrite applied_same. rewrite (Ib _ _ Hk), Hl. reflexivity.
    + rewrite !list_lookup_alter_ne in Hj by exact Hne.
      rewrite applied_other by exact Hne. apply Ib. exact Hj.
  - intros j fj Hj.
    destruct (decide (k = j)) as [->|Hne].
    + rewrite !list_lookup_alter_eq, Hk in Hj. cbn in Hj. inversion Hj; subst fj. reflexivity.
    + rewrite !list_lookup_alter_ne in Hj by exact Hne. eapply Ic; eauto.
Qed.

Lemma Inv_cb c k args : Inv c -> Inv (cb c k args).
Proof.
  intros HI. pose proof (cb_cases c k args) as H.
  destruct (frames c !! k) as [fr|] eqn:Hk; [|rewrite H; exact HI].
  destruct (f_hasCallback fr) eqn:Hl; [rewrite H; exact HI|].
  eapply Inv_Ext; [|exact H]. eapply Inv_trip; eauto.
Qed.

Lemma Inv_same c c' : frames c' = frames c -> trace c' = trace c -> Inv c -> Inv c'.
Proof. unfold Inv. intros -> ->. exact (fun H => H). Qed.

Lemma Inv_emit e c :
  (forall k fn args, e <> Apply k fn args) -> Inv c -> Inv (emit e c).
Proof.
  intros He HI.
  assert (Happ : forall k, applied k (e :: trace c) = applied k (trace c)).
  { intros k. destruct e; try reflexivity. exfalso. eapply He; reflexivity. }
  destruct HI as (Ia & Ib & Ic). unfold Inv; fsimpl.
  repeat split; intros; rewrite ?Happ; eauto.
Qed.

Lemma Inv_update_frame c k g :
  (forall fr, f_hasCallback (g fr) = f_hasCallback fr) ->
  (forall fr, f_tid (g fr) = f_tid fr \/ f_tid (g fr) = None) ->
  Inv c -> Inv (update_frame k g c).
Proof.
  intros Hl Ht (Ia & Ib & Ic). unfold Inv; fsimpl.
  assert (Hlook : forall j fj, alter g k (frames c) !! j = Some fj ->
            exists fr, frames c !! j = Some fr /\
              f_hasCallback fj = f_hasCallback fr /\
              (f_tid fj = f_tid fr \/ f_tid fj = None)).
  { intros j fj Hj. destruct (decide (k = j)) as [->|Hne].
    - rewrite list_lookup_alter_eq in Hj.
      destruct (frames c !! j) as [fr|]; [|discriminate].
      cbn in Hj. inversion Hj; subst fj. exists fr. auto.
    - rewrite list_lookup_alter_ne in Hj by exact Hne. exists fj. auto. }
  repeat split.
  - intros j Hj. apply Ia. destruct (decide (k = j)) as [->|Hne].
    + rewrite list_lookup_alter_eq in Hj.
      destruct (frames c !! j); [discriminate|reflexivity].
    + rewrite list_lookup_alter_ne in Hj by exact Hne. exact Hj.
  - intros j fj Hj. destruct (Hlook _ _ Hj) as (fr & Hfr & Hlf & _).
    rewrite Hlf. apply Ib. exact Hfr.
  - intros j fj Hj Hlatch. destruct (Hlook _ _ Hj) as (fr & Hfr & Hlf & Htf).
    destruct Htf as [Htf|Htf]; [|exact Htf].
    rewrite Htf. eapply Ic; [exact Hfr|]. rewrite <- Hlf. exact Hlatch.
Qed.

Lemma Inv_found c k err ret : Inv c -> Inv (found cb c k err ret).
Proof.
  intros HI. unfold found.
  destruct (truthy err); [apply Inv_cb; exact HI|].
  destruct (frames c !! k) as [fr|]; [|exact HI].
  unfold _sendCallRequest. apply Inv_emit; [discriminate|].
  apply (Inv_same (update_frame k (set_serverId ret) c)); [reflexivity|reflexivity|].
  apply Inv_update_frame; [reflexivity|left; reflexivity|exact HI].
Qed.

Lemma Inv_returnOneServer c name k : Inv c -> Inv (returnOneServer cb c name k).
Proof.
  intros HI. unfold returnOneServer.
  destruct (_servers c !! name) as [l|]; [|exact HI].
  destruct (_ <? _)%nat; apply Inv_found; exact HI.
Qed.

Lemma Inv_keysReply c name k err list now : Inv c -> Inv (keysReply cb c name k err list now).
Proof.
  intros HI. unfold keysReply.
  destruct (truthy err); [apply Inv_found; exact HI|].
  apply Inv_returnOneServer. exact HI.
Qed.

(** [_removeServer] throws, leaving the client as it is, or returns
    [evicted]. *)
Lemma removeServer_cases c serverId name :
  _removeServer c serverId name =
    if removeServer_throws c name then Throws c else Returns (evicted c serverId name).
Proof.
  unfold _removeServer, removeServer_throws, evicted, read_servers.
  destruct (_servers c !! name) as [l|].
  - cbn [has_length]. destruct (0 <? length l)%nat; reflexivity.
  - destruct (String.eqb name "__proto__"); [reflexivity|].
    destruct (_servers c !! "__proto__") as [p|].
    + destruct (array_element p name) as [s0|]; [cbn [has_length]; destruct (_ <? _)%nat; reflexivity|].
      destruct (String.eqb name "length"); [reflexivity|].
      destruct (array_prototype name) as [len|];
        [cbn [has_length]; destruct (_ <? _)%nat; reflexivity|].
      unfold read_prototype. destruct (function_of _ _) as [len|];
        [cbn [has_length]; destruct (_ <? _)%nat; reflexivity|reflexivity].
    + unfold read_prototype. destruct (function_of _ _) as [len|];
        [cbn [has_length]; destruct (_ <? _)%nat; reflexivity|reflexivity].
Qed.

(** With an own list under the name, [_removeServer] does not throw. *)
Lemma removeServer_own c name l : _servers c !! name = Some l -> removeServer_throws c name = false.
Proof. intros H. unfold removeServer_throws, read_servers. rewrite H. reflexivity. Qed.

(** What [checkTimeout] does, by whether [_removeServer] throws. *)
Lemma checkTimeout_cases c k fr :
  frames c !! k = Some fr ->
  let c1 := _removeMessageHandler c (m_id (f_msg fr)) in
  checkTimeout c k =
    if removeServer_throws c (f_name fr) then Throws c1
    else Returns (cb (evicted c1 (f_serverId fr) (f_name fr)) k [call_timeout]).
Proof.
  intros Hk c1. unfold checkTimeout. rewrite Hk. fold c1.
  rewrite (removeServer_cases c1).
  change (removeServer_throws c1 (f_name fr)) with (removeServer_throws c (f_name fr)).
  destruct (removeServer_throws c (f_name fr)); reflexivity.
Qed.

(** The states in which the expiry of the timer of frame [k] can leave the
    client: as it was, when the timer is not pending; with the timer
    consumed and the handler removed, when [_removeServer] throws; and
    after [cb] otherwise. *)
Lemma timeout_expires_cases c k :
  timeout_expires c k = c \/
  exists fr d, frames c !! k = Some fr /\ f_tid fr = Some d /\
    let c1 := _removeMessageHandler (update_frame k (set_tid None) c) (m_id (f_msg fr)) in
    (removeServer_throws c (f_name fr) = true /\ timer_fires c k = Throws c1 /\
     timeout_expires c k = c1) \/
    (removeServer_throws c (f_name fr) = false /\
     timer_fires c k = Returns (cb (evicted c1 (f_serverId fr) (f_name fr)) k [call_timeout]) /\
     timeout_expires c k = cb (evicted c1 (f_serverId fr) (f_name fr)) k [call_timeout]).
Proof.
  unfold timeout_expires, timer_fires.
  destruct (frames c !! k) as [fr|] eqn:Hk; [|left; reflexivity].
  destruct (f_tid fr) as [d|] eqn:Htid; [|left; reflexivity].
  right. exists fr, d. split; [reflexivity|]. split; [exact Htid|].
  assert (Hk' : frames (update_frame k (set_tid None) c) !! k = Some (set_tid None fr))
    by (fsimpl; rewrite list_lookup_alter_eq, Hk; reflexivity).
  rewrite (checkTimeout_cases _ k _ Hk'). cbv zeta.
  change (removeServer_throws (update_frame k (set_tid None) c) (f_name (set_tid None fr)))
    with (removeServer_throws c (f_name fr)).
  destruct (removeServer_throws c (f_name fr)); [left|right]; auto.
Qed.

Lemma timeout_expires_returns c k fr d :
  frames c !! k = Some fr -> f_tid fr = Some d -> removeServer_throws c (f_name fr) = false ->
  timer_fires c k =
    Returns (cb (evicted (_removeMessageHandler (update_frame k (set_tid None) c) (m_id (f_msg fr)))
                   (f_serverId fr) (f_name fr)) k [call_timeout]) /\
  timeout_expires c k =
    cb (evicted (_removeMessageHandler (update_frame k (set_tid None) c) (m_id (f_msg fr)))
          (f_serverId fr) (f_name fr)) k [call_timeout].
Proof.
  intros Hk Htid Hno. unfold timeout_expires, timer_fires. rewrite Hk, Htid.
  assert (Hk1 : frames (update_frame k (set_tid None) c) !! k = Some (set_tid None fr))
    by (fsimpl; rewrite list_lookup_alter_eq, Hk; reflexivity).
  rewrite (checkTimeout_cases _ k _ Hk1). cbv zeta.
  change (removeServer_throws (update_frame k (set_tid None) c) (f_name (set_tid None fr)))
    with (removeServer_throws c (f_name fr)).
  rewrite Hno. auto.
Qed.

Lemma timeout_expires_throws c k fr d :
  frames c !! k = Some fr -> f_tid fr = Some d -> removeServer_throws c (f_name fr) = true ->
  timer_fires c k =
    Throws (_removeMessageHandler (update_frame k (set_tid None) c) (m_id (f_msg fr))) /\
  timeout_expires c k = _removeMessageHandler (update_frame k (set_tid None) c) (m_id (f_msg fr)).
Proof.
  intros Hk Htid Hyes. unfold timeout_expires, timer_fires. rewrite Hk, Htid.
  assert (Hk1 : frames (update_frame k (set_tid None) c) !! k = Some (set_tid None fr))
    by (fsimpl; rewrite list_lookup_alter_eq, Hk; reflexivity).
  rewrite (checkTimeout_cases _ k _ Hk1). cbv zeta.
  change (removeServer_throws (update_frame k (set_tid None) c) (f_name (set_tid None fr)))
    with (removeServer_throws c (f_name fr)).
  rewrite Hyes. auto.
Qed.

Lemma removeMessageHandler_absent c id :
  _messages c !! id = None -> _removeMessageHandler c id = c.
Proof.
  intros H. unfold _removeMessageHandler. rewrite delete_id by exact H.
  destruct c; reflexivity.
Qed.

(** The client that the listener leaves: an inherited function changes
    nothing of it, whether it throws or not. *)
Lemma on_message_cases c channel payload :
  on_message c channel payload =
    let msg := parseMessage payload in
    if negb (String.eqb channel (_key c [Some "L"; Some (_id c)])) then c
    else if String.eqb (e_type msg) "result" then
      match _messages c !! e_id msg with
      | Some k =>
          cb (_removeMessageHandler c (e_id msg)) k ([js_or (e_error msg) VNull] ++ e_args msg)
      | None => c
      end
    else c.
Proof.
  unfold on_message, listener. cbv zeta.
  destruct (negb _); [reflexivity|].
  unfold _handleMessage. destruct (String.eqb _ _); [|reflexivity].
  unfold _handleCallResult, read_messages.
  destruct (_messages c !! e_id (parseMessage payload)) as [k|] eqn:E; [reflexivity|].
  unfold inherited_handler. destruct (function_of _ _); [|reflexivity].
  rewrite (removeMessageHandler_absent c _ E). destruct (builtin_throws _ _); reflexivity.
Qed.

Lemma Inv_removeServer c serverId name : Inv c -> Inv (evicted c serverId name).
Proof.
  intros HI. unfold evicted.
  set (c1 := match _servers c !! name with Some _ => _ | None => _ end).
  assert (H1 : Inv c1).
  { subst c1. destruct (_servers c !! name) as [l|]; [|exact HI].
    destruct (_ <? _)%nat; exact HI. }
  destruct (negb _); [|exact H1]. apply Inv_emit; [discriminate|exact H1].
Qed.

Lemma Inv_removeMessageHandler c id : Inv c -> Inv (_removeMessageHandler c id).
Proof. intros HI. exact HI. Qed.

Lemma Inv_timeout_expires c k : Inv c -> Inv (timeout_expires c k).
Proof.
  intros HI.
  assert (H1 : Inv (update_frame k (set_tid None) c))
    by (apply Inv_update_frame; [reflexivity|right; reflexivity|exact HI]).
  destruct (timeout_expires_cases c k) as [->|(fr & d & Hk & Htid & [(_ & _ & ->)|(_ & _ & ->)])].
  - exact HI.
  - exact H1.
  - apply Inv_cb. apply Inv_removeServer. exact H1.
Qed.

Lemma clear_one_frames_trace t c name :
  frames (clear_one t c name) = frames c /\ trace (clear_one t c name) = trace c.
Proof.
  unfold clear_one. destruct (_serversTimestamp c !! name) as [ts|]; [|auto].
  destruct (ts <=? t); auto.
Qed.

Lemma clearServerList_frames_trace c now :
  frames (clearServerList c now) = frames c /\ trace (clearServerList c now) = trace c.
Proof.
  unfold clearServerList.
  generalize (fst <$> map_to_list (_servers c)) as names.
  generalize (now - _serverMaxAge c * 1000) as t. intros t names.
  revert c. induction names as [|n names IH]; intros c; [auto|].
  cbn [foldl]. destruct (IH (clear_one t c n)) as [-> ->].
  apply clear_one_frames_trace.
Qed.

Lemma Inv_init options id : Inv (CloudsClient options id).
Proof. unfold Inv. cbn. repeat split; intros k; intros; try discriminate; reflexivity. Qed.

Lemma Inv_step c ev : Inv c -> Inv (step c ev).
Proof.
  intros HI. destruct ev as [name args u|name retry onRetry|b arguments|callback
                           |i err list now|k|i|channel msg|now]; cbn [step].
  - eapply Inv_Ext; [exact HI|apply call_Ext].
  - exact HI.
  - unfold bound. destruct (binds c !! b) as [bf|]; [|exact HI].
    destruct (List.last arguments VUndefined); try exact HI.
    cbn [default]. eapply Inv_Ext; [|apply start_Ext].
    destruct (b_onRetry bf); exact HI.
  - exact HI.
  - unfold keys_replied. destruct (keysPending c !! i) as [[name k]|]; [|exact HI].
    apply Inv_keysReply. exact HI.
  - apply Inv_timeout_expires. exact HI.
  - unfold retry_timer_expires. destruct (retryTimers c !! i) as [[inv d]|]; [|exact HI].
    eapply Inv_Ext; [|apply tryAgain_Ext]. exact HI.
  - rewrite on_message_cases; cbv zeta. destruct (negb _); [exact HI|].
    destruct (String.eqb _ _); [|exact HI].
    destruct (_messages c !! _); [|exact HI].
    apply Inv_cb. exact HI.
  - unfold sweep_tick. destruct (_clearServerListTid c); [|exact HI].
    destruct (clearServerList_frames_trace c now) as [Hf Ht].
    exact (Inv_same _ _ Hf Ht HI).
Qed.

Lemma Inv_run c evs : Inv c -> Inv (run c evs).
Proof.
  unfold run. revert c. induction evs as [|ev evs IH]; intros c HI; [exact HI|].
  cbn [foldl]. apply IH. apply Inv_step. exact HI.
Qed.

Lemma Mono_refl c : Mono c c.
Proof. intros j. lia. Qed.

Lemma Mono_trans c1 c2 c3 : Mono c1 c2 -> Mono c2 c3 -> Mono c1 c3.
Proof. intros H1 H2 j. specialize (H1 j). specialize (H2 j). lia. Qed.

Lemma Mono_Ext c c' : Ext c c' -> Mono c c'.
Proof. intros (_ & _ & Happ & _) j. rewrite Happ. lia. Qed.

Lemma Mono_emit e c : Mono c (emit e c).
Proof.
  intros j. fsimpl. destruct e; cbn [applied]; lia.
Qed.

Lemma Mono_cb c k args : Mono c (cb c k args).
Proof.
  pose proof (cb_cases c k args) as H.
  destruct (frames c !! k) as [fr|]; [|rewrite H; apply Mono_refl].
  destruct (f_hasCallback fr); [rewrite H; apply Mono_refl|].
  eapply Mono_trans; [|apply Mono_Ext; exact H].
  exact (Mono_emit (Apply k (f_callback fr) args) c).
Qed.

Lemma Mono_found c k err ret : Mono c (found cb c k err ret).
Proof.
  unfold found. destruct (truthy err); [apply Mono_cb|].
  destruct (frames c !! k) as [fr|]; [|apply Mono_refl].
  exact (Mono_emit _ c).
Qed.

Lemma Mono_returnOneServer c name k : Mono c (returnOneServer cb c name k).
Proof.
  unfold returnOneServer. destruct (_servers c !! name) as [l|]; [|apply Mono_refl].
  destruct (_ <? _)%nat; [apply Mono_found|].
  exact (Mono_found (with_draws _ c) k VNull _).
Qed.

Lemma Mono_removeServer c serverId name : Mono c (evicted c serverId name).
Proof.
  unfold evicted.
  set (c1 := match _servers c !! name with Some _ => _ | None => _ end).
  assert (H1 : trace c1 = trace c).
  { subst c1. destruct (_servers c !! name) as [l|]; [|reflexivity].
    destruct (_ <? _)%nat; reflexivity. }
  destruct (negb _).
  - intros j. fsimpl. rewrite H1. cbn [applied]. lia.
  - intros j. rewrite H1. lia.
Qed.

Lemma Mono_step c ev : Mono c (step c ev).
Proof.
  destruct ev as [name args u|name retry onRetry|b arguments|callback
                 |i err list now|k|i|channel msg|now]; cbn [step].
  - apply Mono_Ext, call_Ext.
  - exact (Mono_refl c).
  - unfold bound. destruct (binds c !! b) as [bf|]; [|exact (Mono_refl c)].
    destruct (List.last arguments VUndefined); try exact (Mono_refl c).
    cbn [default]. eapply Mono_trans; [|apply Mono_Ext, start_Ext].
    destruct (b_onRetry bf); exact (Mono_refl c).
  - intros j. cbn. lia.
  - unfold keys_replied. destruct (keysPending c !! i) as [[name k]|]; [|exact (Mono_refl c)].
    unfold keysReply. destruct (truthy err).
    + exact (Mono_found (with_keysPending _ c) k err None).
    + exact (Mono_returnOneServer (_saveServerList (with_keysPending _ c) name _ now) name k).
  - destruct (timeout_expires_cases c k) as [->|(fr & d & _ & _ & [(_ & _ & ->)|(_ & _ & ->)])];
      [exact (Mono_refl c)|exact (Mono_refl c)|].
    eapply Mono_trans; [|apply Mono_cb].
    exact (Mono_removeServer (_removeMessageHandler (update_frame k (set_tid None) c) _) _ _).
  - unfold retry_timer_expires. destruct (retryTimers c !! i) as [[inv d]|]; [|exact (Mono_refl c)].
    exact (Mono_Ext (with_retryTimers _ c) _ (tryAgain_Ext _ _ _)).
  - rewrite on_message_cases; cbv zeta. destruct (negb _); [exact (Mono_refl c)|].
    destruct (String.eqb _ _); [|exact (Mono_refl c)].
    destruct (_messages c !! _); [|exact (Mono_refl c)].
    exact (Mono_cb (_removeMessageHandler c _) _ _).
  - unfold sweep_tick. destruct (_clearServerListTid c); [|exact (Mono_refl c)].
    destruct (clearServerList_frames_trace c now) as [_ Ht].
    intros j. rewrite Ht. lia.
Qed.

Lemma Mono_run c evs : Mono c (run c evs).
Proof.
  unfold run. revert c. induction evs as [|ev evs IH]; intros c; [apply Mono_refl|].
  cbn [foldl]. eapply Mono_trans; [apply Mono_step|apply IH].
Qed.

(** C1: in every execution of the client, from its construction through any
    sequence of user calls, KEYS replies, timer expiries and delivered
    messages, the callback handed to one execution of [call] (call frame
    [k]) is applied at most once; and once the latch of that frame is set,
    no further event (a timer expiry, a result envelope, or anything else)
    applies it again. *)
Theorem callback_at_most_once options id evs k :
  let c := run (CloudsClient options id) evs in
  (applied k (trace c) <= 1)%nat /\
  (forall fr evs', frames c !! k = Some fr -> f_hasCallback fr = true ->
     applied k (trace (run c evs')) = applied k (trace c)).
Proof.
  intros c.
  assert (HI : Inv c) by (apply Inv_run, Inv_init).
  assert (Hle : forall c', Inv c' -> (applied k (trace c') <= 1)%nat).
  { intros c' (Ia & Ib & _). destruct (frames c' !! k) as [fr|] eqn:Hk.
    - rewrite (Ib _ _ Hk). destruct (f_hasCallback fr); lia.
    - rewrite (Ia _ Hk). lia. }
  split; [apply Hle; exact HI|].
  intros fr evs' Hk Hl.
  pose proof (Hle _ (Inv_run c evs' HI)) as H1.
  pose proof (Mono_run c evs' k) as H2.
  destruct HI as (_ & Ib & _). rewrite (Ib _ _ Hk), Hl in *. lia.
Qed.

(** ** Discovery that finds no server *)

(** When the error is not a call timeout, [cb] starts no new attempt: it
    trips the latch, applies the callback, and at most a bound caller's
    outer callback or a delayed retry follows. *)
Lemma cb_quiet c k args fr :
  frames c !! k = Some fr -> f_hasCallback fr = false ->
  code_of (List.hd VUndefined args) <> Some CLOUDS_CALL_SERVICE_TIMEOUT ->
  frames (cb c k args) = frames (trip k (f_callback fr) args c) /\
  (trace (cb c k args) = Apply k (f_callback fr) args :: trace c \/
   exists inv u, trace (cb c k args) =
     Outer inv u args :: Apply k (f_callback fr) args :: trace c) /\
  _servers (cb c k args) = _servers c /\
  _serversTimestamp (cb c k args) = _serversTimestamp c /\
  _messages (cb c k args) = _messages c /\
  keysPending (cb c k args) = keysPending c.
Proof.
  intros Hk Hl Hcode. rewrite cb_unfold. unfold cb_body. rewrite Hk, Hl.
  unfold apply_callback. fold (trip k (f_callback fr) args c).
  destruct (f_callback fr) as [u| |inv]; try (repeat split; auto; fail).
  unfold onCallback.
  destruct (invocations _ !! inv) as [iv|]; [|repeat split; auto].
  destruct (binds _ !! _) as [b|]; [|repeat split; auto].
  destruct (_ && _).
  - destruct (decide _) as [Hc|_]; [contradiction|].
    destruct (decide _); repeat split; auto.
    right. eexists _, _. reflexivity.
  - repeat split; auto. right. eexists _, _. reflexivity.
Qed.

Lemma keysReply_empty c name k err list now :
  truthy err = false -> default [] list = [] ->
  keysReply cb c name k err list now =
    cb (_saveServerList c name (Some []) now) k [no_available_server].
Proof.
  intros He Hlist. unfold keysReply. rewrite He, Hlist. cbn [map].
  unfold returnOneServer, _saveServerList at 1. fsimpl.
  rewrite lookup_insert_eq. reflexivity.
Qed.

(** C2 (amended): [call] arms the per-call timer as soon as it is entered,
    before discovery has answered.  When the scan then comes back empty
    while that timer is still pending, the empty list is cached, the
    callback is applied, exactly once, with the error of code
    CLOUDS_NO_AVAILABLE_SERVER, nothing is published, and the timer is
    cancelled. *)
Theorem call_without_server options id evs :
  let c := run (CloudsClient options id) evs in
  (forall name args callback,
     exists fr, frames (call cb c name args callback) !! length (frames c) = Some fr /\
       f_tid fr = Some (_timeout c * 1000)) /\
  (forall i name k fr d err list now,
     keysPending c !! i = Some (name, k) ->
     frames c !! k = Some fr -> f_tid fr = Some d ->
     truthy err = false -> default [] list = [] ->
     let c' := keys_replied c i err list now in
     _servers c' !! name = Some [] /\
     (trace c' = Apply k (f_callback fr) [no_available_server] :: trace c \/
      exists inv u, trace c' = Outer inv u [no_available_server]
        :: Apply k (f_callback fr) [no_available_server] :: trace c) /\
     applied k (trace c') = 1%nat /\
     publishes (trace c') = publishes (trace c) /\
     exists fr', frames c' !! k = Some fr' /\ f_tid fr' = None).
Proof.
  intros c.
  assert (HI : Inv c) by (apply Inv_run, Inv_init).
  split.
  - intros name args callback.
    unfold call. rewrite findOneServer_cases. fsimpl.
    destruct (_servers c !! name) as [[|s l]|] eqn:E.
    + fsimpl. rewrite !alter_app_new, lookup_app_new. eexists. split; reflexivity.
    + erewrite found_ok by (fsimpl; apply lookup_app_new).
      unfold _sendCallRequest. fsimpl.
      rewrite !alter_app_new, lookup_app_new. eexists. split; reflexivity.
    + fsimpl. rewrite !alter_app_new, lookup_app_new. eexists. split; reflexivity.
  - intros i name k fr d err list now Hi Hk Htid He Hlist c'.
    destruct HI as (Ia & Ib & Ic).
    assert (Hl : f_hasCallback fr = false).
    { destruct (f_hasCallback fr) eqn:Hl; [|reflexivity].
      rewrite (Ic _ _ Hk Hl) in Htid. discriminate. }
    subst c'. unfold keys_replied. rewrite Hi.
    rewrite keysReply_empty by assumption.
    set (c2 := _saveServerList _ name (Some []) now).
    destruct (cb_quiet c2 k [no_available_server] fr Hk Hl)
      as (Hfr & Htr & Hs & _); [discriminate|].
    assert (Happ : applied k (trace c) = 0%nat) by (rewrite (Ib _ _ Hk), Hl; reflexivity).
    split; [rewrite Hs; subst c2; unfold _saveServerList; fsimpl; apply lookup_insert_eq|].
    split; [exact Htr|].
    split; [|split].
    + destruct Htr as [-> | (inv & u & ->)]; cbn [applied]; rewrite Nat.eqb_refl;
        change (trace c2) with (trace c); rewrite Happ; reflexivity.
    + destruct Htr as [-> | (inv & u & ->)]; reflexivity.
    + rewrite Hfr. unfold trip. fsimpl. change (frames c2) with (frames c).
      rewrite !list_lookup_alter_eq, Hk. eexists. split; reflexivity.
Qed.

(** ** The configuration never changes *)

Lemma Cfg_refl c : Cfg c c.
Proof. unfold Cfg. auto. Qed.

Lemma Cfg_trans c1 c2 c3 : Cfg c1 c2 -> Cfg c2 c3 -> Cfg c1 c3.
Proof.
  unfold Cfg. intros (A1 & A2 & A3 & A4 & A5) (B1 & B2 & B3 & B4 & B5).
  repeat split; congruence.
Qed.

Lemma Cfg_Ext c c' : Ext c c' -> Cfg c c'.
Proof.
  intros (_ & _ & _ & _ & _ & _ & _ & H1 & H2 & H3 & H4 & H5 & _).
  unfold Cfg. auto.
Qed.

Lemma Cfg_cb c k args : Cfg c (cb c k args).
Proof.
  pose proof (cb_cases c k args) as H.
  destruct (frames c !! k) as [fr|]; [|rewrite H; apply Cfg_refl].
  destruct (f_hasCallback fr); [rewrite H; apply Cfg_refl|].
  exact (Cfg_Ext _ _ H).
Qed.

Lemma Cfg_found c k err ret : Cfg c (found cb c k err ret).
Proof.
  unfold found. destruct (truthy err); [apply Cfg_cb|].
  destruct (frames c !! k) as [fr|]; exact (Cfg_refl c).
Qed.

Lemma Cfg_returnOneServer c name k : Cfg c (returnOneServer cb c name k).
Proof.
  unfold returnOneServer. destruct (_servers c !! name) as [l|]; [|apply Cfg_refl].
  destruct (_ <? _)%nat; [apply Cfg_found|].
  exact (Cfg_found (with_draws _ c) k VNull _).
Qed.

Lemma Cfg_removeServer c serverId name : Cfg c (evicted c serverId name).
Proof.
  unfold evicted.
  set (c1 := match _servers c !! name with Some _ => _ | None => _ end).
  assert (H1 : Cfg c c1).
  { subst c1. destruct (_servers c !! name) as [l|]; [|apply Cfg_refl].
    destruct (_ <? _)%nat; exact (Cfg_refl c). }
  destruct (negb _); exact H1.
Qed.

Lemma Cfg_clearServerList c now : Cfg c (clearServerList c now).
Proof.
  unfold clearServerList.
  generalize (fst <$> map_to_list (_servers c)) as names.
  generalize (now - _serverMaxAge c * 1000) as t. intros t names.
  revert c. induction names as [|n names IH]; intros c; [apply Cfg_refl|].
  cbn [foldl]. eapply Cfg_trans; [|apply IH].
  unfold clear_one. destruct (_serversTimestamp c !! n) as [ts|]; [|apply Cfg_refl].
  destruct (ts <=? t); exact (Cfg_refl c).
Qed.

Lemma Cfg_step c ev : Cfg c (step c ev).
Proof.
  destruct ev as [name args u|name retry onRetry|b arguments|callback
                 |i err list now|k|i|channel msg|now]; cbn [step].
  - apply Cfg_Ext, call_Ext.
  - exact (Cfg_refl c).
  - unfold bound. destruct (binds c !! b) as [bf|]; [|exact (Cfg_refl c)].
    destruct (List.last arguments VUndefined); try exact (Cfg_refl c).
    cbn [default]. eapply Cfg_trans; [|apply Cfg_Ext, start_Ext].
    destruct (b_onRetry bf); exact (Cfg_refl c).
  - exact (Cfg_refl c).
  - unfold keys_replied. destruct (keysPending c !! i) as [[name k]|]; [|exact (Cfg_refl c)].
    unfold keysReply. destruct (truthy err).
    + exact (Cfg_found (with_keysPending _ c) k err None).
    + exact (Cfg_returnOneServer (_saveServerList (with_keysPending _ c) name _ now) name k).
  - destruct (timeout_expires_cases c k) as [->|(fr & d & _ & _ & [(_ & _ & ->)|(_ & _ & ->)])];
      [exact (Cfg_refl c)|exact (Cfg_refl c)|].
    eapply Cfg_trans; [|apply Cfg_cb].
    exact (Cfg_removeServer (_removeMessageHandler (update_frame k (set_tid None) c) _) _ _).
  - unfold retry_timer_expires. destruct (retryTimers c !! i) as [[inv d]|]; [|exact (Cfg_refl c)].
    exact (Cfg_Ext (with_retryTimers _ c) _ (tryAgain_Ext _ _ _)).
  - rewrite on_message_cases; cbv zeta. destruct (negb _); [exact (Cfg_refl c)|].
    destruct (String.eqb _ _); [|exact (Cfg_refl c)].
    destruct (_messages c !! _); [|exact (Cfg_refl c)].
    exact (Cfg_cb (_removeMessageHandler c _) _ _).
  - unfold sweep_tick. destruct (_clearServerListTid c); [|exact (Cfg_refl c)].
    apply Cfg_clearServerList.
Qed.

Lemma Cfg_run c evs : Cfg c (run c evs).
Proof.
  unfold run. revert c. induction evs as [|ev evs IH]; intros c; [apply Cfg_refl|].
  cbn [foldl]. eapply Cfg_trans; [apply Cfg_step|apply IH].
Qed.

Lemma prefix_set options id evs : _prefix (run (CloudsClient options id) evs) <> EmptyString.
Proof.
  destruct (Cfg_run (CloudsClient options id) evs) as (-> & _).
  cbn. destruct (o_redis_prefix options) as [p|]; [|discriminate].
  destruct (String.eqb_spec p EmptyString); [discriminate|assumption].
Qed.

Lemma key_with_prefix c (segs : list (option string)) :
  _prefix c <> EmptyString -> _key c segs = join ":" (Some (_prefix c) :: segs).
Proof.
  intros H. unfold _key. destruct (String.eqb_spec (_prefix c) EmptyString); [contradiction|reflexivity].
Qed.

(** ** Expiry of the per-call timer *)

Lemma removeServer_frames c serverId name : frames (evicted c serverId name) = frames c.
Proof.
  unfold evicted. destruct (_servers c !! name) as [l|];
    [destruct (_ <? _)%nat|]; destruct (negb _); reflexivity.
Qed.

Lemma removeServer_messages c serverId name :
  _messages (evicted c serverId name) = _messages c.
Proof.
  unfold evicted. destruct (_servers c !! name) as [l|];
    [destruct (_ <? _)%nat|]; destruct (negb _); reflexivity.
Qed.

Lemma removeServer_trace c serverId name :
  trace (evicted c serverId name) =
    if notAutoCleanRemoteServer c then trace c
    else Del (_key c [Some "S"; Some name; serverId]) DebugFn :: trace c.
Proof.
  unfold evicted. destruct (_servers c !! name) as [l|];
    [destruct (_ <? _)%nat|]; fsimpl; destruct (notAutoCleanRemoteServer c); reflexivity.
Qed.

Lemma removeServer_servers c S name l :
  _servers (evicted c (Some S) name) !! name = Some l -> S ∉ l.
Proof.
  unfold evicted. intros H.
  assert (H' : _servers (match _servers c !! name with
          | Some l0 => if (0 <? length l0)%nat
              then with_servers (<[name := filter (fun item => Some item <> Some S) l0]> (_servers c)) c
              else c
          | None => c end) !! name = Some l).
  { destruct (negb _); exact H. }
  clear H. destruct (_servers c !! name) as [l0|] eqn:E.
  - destruct l0 as [|s l0]; cbn [length Nat.ltb Nat.leb] in H'.
    + rewrite E in H'. inversion H'. apply not_elem_of_nil.
    + fsimpl in H'. rewrite lookup_insert_eq in H'. inversion H'.
      intros Hin. apply list_elem_of_filter in Hin as [Hne _]. congruence.
  - rewrite E in H'. discriminate.
Qed.

Lemma timeout_expires_open c k fr d :
  frames c !! k = Some fr -> f_tid fr = Some d -> f_hasCallback fr = false ->
  removeServer_throws c (f_name fr) = false ->
  Ext (trip k (f_callback fr) [call_timeout]
         (evicted
            (_removeMessageHandler (update_frame k (set_tid None) c) (m_id (f_msg fr)))
            (f_serverId fr) (f_name fr)))
      (timeout_expires c k).
Proof.
  intros Hk Htid Hl Hno. rewrite (proj2 (timeout_expires_returns c k fr d Hk Htid Hno)).
  apply (cb_open _ k _ (set_tid None fr)); [|exact Hl].
  rewrite removeServer_frames. unfold _removeMessageHandler. fsimpl.
  rewrite list_lookup_alter_eq, Hk. reflexivity.
Qed.

Lemma open_while_pending c k fr d :
  Inv c -> frames c !! k = Some fr -> f_tid fr = Some d -> f_hasCallback fr = false.
Proof.
  intros (_ & _ & Ic) Hk Htid. destruct (f_hasCallback fr) eqn:Hl; [|reflexivity].
  rewrite (Ic _ _ Hk Hl) in Htid. discriminate.
Qed.

Lemma evicted_servers c S name l :
  _servers c !! name = Some l ->
  _servers (evicted c (Some S) name) !! name = Some (filter (fun item => item <> S) l).
Proof.
  intros E. unfold evicted. cbv zeta. rewrite E.
  assert (Hf : filter (fun item => Some item <> Some S) l = filter (fun item => item <> S) l)
    by (apply list_filter_iff; intros x; split; congruence).
  destruct l as [|s l]; cbn [length Nat.ltb Nat.leb].
  - destruct (negb _); fsimpl; exact E.
  - destruct (negb _); fsimpl; rewrite lookup_insert_eq, Hf; reflexivity.
Qed.

Lemma removeServer_throws_absent c name :
  removeServer_throws c name = true -> _servers c !! name = None.
Proof.
  unfold removeServer_throws, read_servers.
  destruct (_servers c !! name); [discriminate|reflexivity].
Qed.

(** As long as no list was stored under __proto__, [_removeServer] throws
    exactly for the names without list of their own under which
    Object.prototype has a function with parameters. *)
Lemma removeServer_throws_iff c name :
  _servers c !! "__proto__" = None ->
  (removeServer_throws c name = true <->
   _servers c !! name = None /\
   exists len, function_of object_prototype name = Some len /\ (0 < len)%nat).
Proof.
  intros Hp. unfold removeServer_throws, read_servers, read_prototype.
  destruct (_servers c !! name) as [l|] eqn:Hl.
  { split; [discriminate|]. intros [H _]. discriminate. }
  destruct (String.eqb_spec name "__proto__") as [->|Hne].
  { split; [discriminate|]. intros (_ & len & H & _). vm_compute in H. discriminate. }
  rewrite Hp. destruct (function_of object_prototype name) as [len|]; cbn [has_length].
  - split.
    + intros H. split; [reflexivity|]. exists len. split; [reflexivity|].
      apply Nat.ltb_lt. exact H.
    + intros (_ & len' & H & Hlt). inversion H; subst len'. apply Nat.ltb_lt. exact Hlt.
  - split; [discriminate|]. intros (_ & len & H & _). discriminate.
Qed.

(** C6: the per-call timer of a call dispatched to server [S] for service
    [f_name fr] expires.  In every case the handler stored under the call's
    correlation id is removed (only a later attempt can be found under that
    id afterwards).  As long as [_removeServer] returns, the rest of the
    claim holds: the cached list of the service loses exactly the entries
    equal to [S], so that no index selects [S] from it, the registration key
    prefix:S:name:S is deleted exactly when remote cleanup is not disabled,
    and the callback is applied, once, with the error of code
    CLOUDS_CALL_SERVICE_TIMEOUT.  But [_removeServer] throws when the
    service has no cached list of its own any more and its name is one
    under which the cache object inherits a function or a string with a
    [length] above 0: then [checkTimeout] stops there, with the timer
    consumed; no key is deleted and the callback is not applied, neither
    then nor when the timer event is repeated.  As long as no list was
    stored under __proto__, these are the names of the functions of
    Object.prototype that have parameters, such as constructor and
    hasOwnProperty. *)
Theorem timeout_evicts_server options id evs :
  let c := run (CloudsClient options id) evs in
  forall k fr d S,
    frames c !! k = Some fr -> f_tid fr = Some d -> f_serverId fr = Some S ->
    let c' := timeout_expires c k in
    let key := _prefix c ++ ":S:" ++ f_name fr ++ ":" ++ S in
    (forall k', _messages c' !! m_id (f_msg fr) = Some k' -> (length (frames c) <= k')%nat) /\
    (removeServer_throws c (f_name fr) = false ->
       timer_fires c k = Returns c' /\
       (forall l, _servers c !! f_name fr = Some l ->
          _servers c' !! f_name fr = Some (filter (fun item => item <> S) l)) /\
       (forall l, _servers c' !! f_name fr = Some l ->
          (S ∉ l) /\ forall n, l !! random_index n (length l) <> Some S) /\
       dels (trace c') =
         (if notAutoCleanRemoteServer c then dels (trace c)
          else Del key DebugFn :: dels (trace c)) /\
       Apply k (f_callback fr) [call_timeout] ∈ trace c' /\
       applied k (trace c') = 1%nat) /\
    (removeServer_throws c (f_name fr) = true ->
       _servers c !! f_name fr = None /\
       timer_fires c k = Throws c' /\
       c' = _removeMessageHandler (update_frame k (set_tid None) c) (m_id (f_msg fr)) /\
       trace c' = trace c /\
       applied k (trace c') = 0%nat /\
       timeout_expires c' k = c') /\
    (_servers c !! "__proto__" = None ->
       (removeServer_throws c (f_name fr) = true <->
        _servers c !! f_name fr = None /\
        exists len, function_of object_prototype (f_name fr) = Some len /\ (0 < len)%nat)).
Proof.
  intros c k fr d S Hk Htid Hsid c' key.
  assert (HI : Inv c) by (apply Inv_run, Inv_init).
  pose proof (open_while_pending c k fr d HI Hk Htid) as Hl.
  set (c1 := _removeMessageHandler (update_frame k (set_tid None) c) (m_id (f_msg fr))).
  assert (Hgone : _messages c1 !! m_id (f_msg fr) = None)
    by (unfold c1, _removeMessageHandler; fsimpl; apply lookup_delete_eq).
  assert (H0 : applied k (trace c) = 0%nat)
    by (destruct HI as (_ & Ib & _); rewrite (Ib _ _ Hk), Hl; reflexivity).
  destruct (removeServer_throws c (f_name fr)) eqn:Hthr.
  - destruct (timeout_expires_throws c k fr d Hk Htid Hthr) as [Hfire Hst].
    fold c1 in Hfire, Hst. fold c' in Hst.
    split; [intros k' Hk'; rewrite Hst, Hgone in Hk'; discriminate|].
    split; [intros Hx; discriminate|].
    split; [|intros Hp; destruct (removeServer_throws_iff c (f_name fr) Hp) as [H1 _];
             split; [intros _; apply H1; exact Hthr|reflexivity]].
    intros _.
    split; [apply removeServer_throws_absent; exact Hthr|].
    split; [rewrite Hst; exact Hfire|]. split; [exact Hst|].
    split; [rewrite Hst; reflexivity|]. split; [rewrite Hst; exact H0|].
    rewrite Hst. unfold timeout_expires, timer_fires, c1, _removeMessageHandler. fsimpl.
    rewrite list_lookup_alter_eq, Hk. reflexivity.
  - split; [|split; [|split; [intros Hx; discriminate|]]];
      [| |intros Hp; destruct (removeServer_throws_iff c (f_name fr) Hp) as [_ H2];
          split; [discriminate|intros HX; apply H2 in HX; congruence]].
    all: pose proof (timeout_expires_open c k fr d Hk Htid Hl Hthr) as HE.
    all: fold c' in HE; rewrite Hsid in HE; fold c1 in HE.
    all: set (c2 := evicted c1 (Some S) (f_name fr)) in HE.
    all: destruct HE as ((news & Hfr & _) & (extra & Htr) & Happ & Hdel & Hmsg & Hsrv & _).
    + intros k' Hk'. destruct (Hmsg _ _ Hk') as [Hold|Hnew].
      * unfold trip in Hold. fsimpl in Hold. subst c2.
        rewrite removeServer_messages in Hold. rewrite Hgone in Hold. discriminate.
      * unfold trip in Hnew. fsimpl in Hnew. rewrite !length_alter in Hnew.
        subst c2. rewrite removeServer_frames in Hnew. subst c1.
        unfold _removeMessageHandler in Hnew. fsimpl in Hnew.
        rewrite length_alter in Hnew. exact Hnew.
    + intros _.
      assert (Hin : forall l, _servers c' !! f_name fr = Some l -> S ∉ l).
      { intros l Hlk. destruct (Hsrv (f_name fr)) as [Heq|[_ Heq]].
        - rewrite Heq in Hlk. unfold trip in Hlk. fsimpl in Hlk.
          eapply removeServer_servers. exact Hlk.
        - rewrite Heq in Hlk. inversion Hlk. apply not_elem_of_nil. }
      split; [|split; [|split; [|split; [|split]]]].
      * destruct (timeout_expires_returns c k fr d Hk Htid Hthr) as [Hfire Hst].
        fold c' in Hst. rewrite Hst. exact Hfire.
      * intros l Hlk.
        assert (Hev : _servers c2 !! f_name fr = Some (filter (fun item => item <> S) l))
          by (apply evicted_servers; exact Hlk).
        destruct (Hsrv (f_name fr)) as [Heq|[Heq _]].
        -- rewrite Heq. unfold trip. fsimpl. exact Hev.
        -- unfold trip in Heq. fsimpl in Heq. rewrite Hev in Heq. discriminate.
      * intros l Hlk. split; [exact (Hin l Hlk)|].
        intros n Hsel. apply (Hin l Hlk). eapply list_elem_of_lookup_2. exact Hsel.
      * rewrite Hdel. unfold trip. fsimpl. cbn [dels List.filter is_del].
        fold (dels (trace c2)). subst c2. rewrite removeServer_trace.
        change (notAutoCleanRemoteServer c1) with (notAutoCleanRemoteServer c).
        change (trace c1) with (trace c).
        destruct (notAutoCleanRemoteServer c); [reflexivity|].
        cbn [dels List.filter is_del]. f_equal. f_equal.
        change (_key c1) with (_key c). rewrite key_with_prefix by apply prefix_set.
        reflexivity.
      * rewrite Htr. apply elem_of_app. right. unfold trip. fsimpl. apply list_elem_of_here.
      * rewrite Happ. unfold trip. fsimpl. rewrite applied_same.
        subst c2. rewrite removeServer_trace.
        change (notAutoCleanRemoteServer c1) with (notAutoCleanRemoteServer c).
        change (trace c1) with (trace c).
        destruct (notAutoCleanRemoteServer c); cbn [applied]; rewrite H0; reflexivity.
Qed.

(** ** Shutdown *)

(** C3 (amended): [exit] cancels the sweep timer, so that the sweep no
    longer runs, and ends both connections.  It leaves the table of pending
    handlers and the per-call timers as they are: it applies no callback
    itself, but the timer of a call in flight still expires afterwards, and
    then, where [_removeServer] returns, the callback of that call is
    applied with the error of code CLOUDS_CALL_SERVICE_TIMEOUT. *)
Theorem exit_leaves_pending_calls options id evs callback :
  let c := run (CloudsClient options id) evs in
  let c' := exit c callback in
  _clearServerListTid c' = None /\ (forall now, sweep_tick c' now = c') /\
  _cp c' = false /\ _cs c' = false /\
  trace c' = EndCs :: EndCp :: trace c /\
  frames c' = frames c /\ _messages c' = _messages c /\
  (forall k fr d, frames c !! k = Some fr -> f_tid fr = Some d ->
     removeServer_throws c (f_name fr) = false ->
     applied k (trace c') = 0%nat /\
     applied k (trace (timeout_expires c' k)) = 1%nat /\
     Apply k (f_callback fr) [call_timeout] ∈ trace (timeout_expires c' k)).
Proof.
  intros c c'. do 7 (split; [reflexivity|]).
  intros k fr d Hk Htid Hno.
  assert (HI : Inv c) by (apply Inv_run, Inv_init).
  pose proof (open_while_pending c k fr d HI Hk Htid) as Hl.
  assert (H0 : applied k (trace c) = 0%nat)
    by (destruct HI as (_ & Ib & _); rewrite (Ib _ _ Hk), Hl; reflexivity).
  destruct (timeout_expires_open c' k fr d Hk Htid Hl Hno) as (_ & (extra & Htr) & Happ & _).
  split; [exact H0|]. split.
  - rewrite Happ. unfold trip. fsimpl. rewrite applied_same, removeServer_trace.
    unfold _removeMessageHandler, c', exit. fsimpl.
    destruct (notAutoCleanRemoteServer c); cbn [applied]; rewrite H0; reflexivity.
  - rewrite Htr. apply elem_of_app. right. unfold trip. fsimpl. apply list_elem_of_here.
Qed.

(** ** The cache of server lists *)

Lemma cb_no_available_server_cache c k :
  _servers (cb c k [no_available_server]) = _servers c /\
  _serversTimestamp (cb c k [no_available_server]) = _serversTimestamp c.
Proof.
  pose proof (cb_cases c k [no_available_server]) as H.
  destruct (frames c !! k) as [fr|] eqn:Hk; [|rewrite H; auto].
  destruct (f_hasCallback fr) eqn:Hl; [rewrite H; auto|].
  destruct (cb_quiet c k [no_available_server] fr Hk Hl) as (_ & _ & Hs & Ht & _);
    [discriminate|auto].
Qed.

(** C5 (amended): an empty scan result is stored in the cache, with the
    current timestamp for every service name other than __proto__; but a
    cached empty list is treated like a missing one, so the next
    [_findOneServer] for the same name issues a KEYS scan again and waits
    for its reply instead of failing from the cache. *)
Theorem empty_list_cached_and_rescanned c name k :
  (forall err list now, truthy err = false -> default [] list = [] ->
     let c' := keysReply cb c name k err list now in
     _servers c' !! name = Some [] /\
     (name <> "__proto__" -> _serversTimestamp c' !! name = Some now)) /\
  (_servers c !! name = Some [] ->
     let c' := _findOneServer cb c name k in
     trace c' = Keys (_key c [Some "S"; Some name; Some "*"]) :: trace c /\
     keysPending c' = (keysPending c ++ [(name, k)])%list /\
     frames c' = frames c).
Proof.
  split.
  - intros err list now He Hlist c'. subst c'.
    rewrite keysReply_empty by assumption.
    destruct (cb_no_available_server_cache (_saveServerList c name (Some []) now) k) as [-> ->].
    unfold _saveServerList, set_number. fsimpl. rewrite lookup_insert_eq.
    split; [reflexivity|]. intros Hne.
    destruct (String.eqb_spec name "__proto__"); [contradiction|apply lookup_insert_eq].
  - intros Hs c'. subst c'. rewrite findOneServer_cases, Hs. auto.
Qed.

(** ** The result listener *)

(** C8: the listener returns at once, with nothing changed, for a
    message on another channel than the client's own and for one whose
    type is not "result".  For a result whose id has a handler of its own
    in the table, the handler is taken out and run with the error, or null
    when there is none, followed by the result values: if its latch is
    open, the callback of the call is applied to exactly these arguments,
    so a result with error null and values [42] reaches it as (null, 42).
    For a result whose id has no handler in the table, the claim holds
    unless the id is the name of a function of Object.prototype: such a
    function passes the test [typeof fn !== 'function'], so the envelope
    is not discarded but the inherited function is applied to the
    arguments with [this] null, and where that function throws, the
    listener throws. *)
Theorem listener_routes_results c channel payload :
  let key := _key c [Some "L"; Some (_id c)] in
  let msg := parseMessage payload in
  let arguments := (if truthy (e_error msg) then e_error msg else VNull) :: e_args msg in
  (channel <> key -> listener c channel payload = Returns c) /\
  (e_type msg <> "result" -> listener c channel payload = Returns c) /\
  ((forall m code, e_error msg = VError m code -> arguments = VError m code :: e_args msg) /\
   (e_error msg = VNull \/ e_error msg = VUndefined -> arguments = VNull :: e_args msg)) /\
  (forall k, channel = key -> e_type msg = "result" ->
     _messages c !! e_id msg = Some k -> e_id msg <> "__proto__" ->
     exists c', listener c channel payload = Returns c' /\
     c' = cb (_removeMessageHandler c (e_id msg)) k arguments /\
     (forall k', _messages c' !! e_id msg = Some k' -> (length (frames c) <= k')%nat) /\
     (forall fr, frames c !! k = Some fr -> f_hasCallback fr = false ->
        Apply k (f_callback fr) arguments ∈ trace c' /\
        applied k (trace c') = S (applied k (trace c)) /\
        (e_error msg = VNull -> e_args msg = [VNum 42] ->
         Apply k (f_callback fr) [VNull; VNum 42] ∈ trace c'))) /\
  (channel = key -> e_type msg = "result" ->
     _messages c !! e_id msg = None -> _messages c !! "__proto__" = None ->
     match function_of object_prototype (e_id msg) with
     | None =>
         read_messages c (e_id msg) = HNoFunction /\
         listener c channel payload = Returns c
     | Some _ =>
         read_messages c (e_id msg) = HInherited (e_id msg) /\
         listener c channel payload =
           if builtin_throws (e_id msg) arguments then Throws c else Returns c
     end).
Proof.
  intros key msg arguments.
  assert (Hres : channel = key -> e_type msg = "result" ->
            listener c channel payload = _handleCallResult c msg).
  { intros Hch Hty. unfold listener. cbv zeta. fold key. fold msg.
    rewrite Hch, String.eqb_refl. cbn [negb]. unfold _handleMessage. rewrite Hty.
    reflexivity. }
  split; [|split; [|split; [|split]]].
  - intros Hne. unfold listener. cbv zeta. fold key.
    destruct (String.eqb_spec channel key); [contradiction|reflexivity].
  - intros Hty. unfold listener. cbv zeta. fold msg. destruct (negb _); [reflexivity|].
    unfold _handleMessage.
    destruct (String.eqb_spec (e_type msg) "result"); [contradiction|reflexivity].
  - split.
    + intros m code He. unfold arguments. rewrite He. reflexivity.
    + intros [He|He]; unfold arguments; rewrite He; reflexivity.
  - intros k Hch Hty Hk _.
    exists (cb (_removeMessageHandler c (e_id msg)) k arguments).
    split.
    { rewrite (Hres Hch Hty). unfold _handleCallResult, read_messages. rewrite Hk.
      reflexivity. }
    split; [reflexivity|].
    set (c1 := _removeMessageHandler c (e_id msg)).
    pose proof (cb_cases c1 k arguments) as Hcases.
    change (frames c1) with (frames c) in Hcases.
    assert (Hgone : _messages c1 !! e_id msg = None)
      by (unfold c1, _removeMessageHandler; fsimpl; apply lookup_delete_eq).
    split.
    + intros k' Hk'. destruct (frames c !! k) as [fr|];
        [destruct (f_hasCallback fr)|]; try (rewrite Hcases, Hgone in Hk'; discriminate).
      destruct Hcases as (_ & _ & _ & _ & Hmsg & _).
      destruct (Hmsg _ _ Hk') as [Hold|Hnew].
      * unfold trip in Hold. fsimpl in Hold. rewrite Hgone in Hold. discriminate.
      * unfold trip in Hnew. fsimpl in Hnew. rewrite !length_alter in Hnew. exact Hnew.
    + intros fr Hfr Hl. rewrite Hfr, Hl in Hcases.
      destruct Hcases as (_ & (extra & Htr) & Happ & _).
      assert (Hin : Apply k (f_callback fr) arguments ∈ trace (cb c1 k arguments)).
      { rewrite Htr. apply elem_of_app. right. unfold trip. fsimpl. apply list_elem_of_here. }
      split; [exact Hin|]. split.
      * rewrite Happ. unfold trip. fsimpl. apply applied_same.
      * intros He Ha.
        assert (Hargs : arguments = [VNull; VNum 42])
          by (unfold arguments; rewrite He, Ha; reflexivity).
        rewrite Hargs in Hin. rewrite Hargs. exact Hin.
  - intros Hch Hty Hnone _. rewrite (Hres Hch Hty).
    unfold _handleCallResult, read_messages, inherited_handler. rewrite Hnone.
    destruct (function_of object_prototype (e_id msg)) as [len|]; [|split; reflexivity].
    split; [reflexivity|]. cbv zeta.
    rewrite (removeMessageHandler_absent c _ Hnone). reflexivity.
Qed.

(** C10: [exit] never applies the function it is given.  It does not keep
    it either: the client it leaves is the same whatever was passed, so no
    later event can reach that function through [exit]. *)
Theorem exit_ignores_its_callback c callback :
  exit c callback = exit c VUndefined /\
  (forall u, invocations_of u (trace (exit c callback)) = invocations_of u (trace c)) /\
  (forall k, applied k (trace (exit c callback)) = applied k (trace c)) /\
  (forall evs, run (exit c callback) evs = run (exit c VUndefined) evs).
Proof. repeat split. Qed.

(** ** The eviction sweep *)

Lemma clear_one_lookup t c n name :
  _servers (clear_one t c n) !! name =
    (if bool_decide (name = n) && expired t c name then None else _servers c !! name) /\
  _serversTimestamp (clear_one t c n) !! name =
    (if bool_decide (name = n) && expired t c name then None else _serversTimestamp c !! name).
Proof.
  unfold clear_one, expired. destruct (bool_decide_reflect (name = n)) as [->|Hne]; cbn [andb].
  - destruct (_serversTimestamp c !! n) as [ts|] eqn:E; [|rewrite E; auto].
    destruct (ts <=? t); fsimpl; [rewrite !lookup_delete_eq|rewrite E]; auto.
  - destruct (_serversTimestamp c !! n) as [ts|]; [|auto].
    destruct (ts <=? t); fsimpl; [rewrite !lookup_delete_ne by congruence|]; auto.
Qed.

Lemma clear_fold_lookup t names : forall c name,
  _servers (foldl (clear_one t) c names) !! name =
    (if bool_decide (name ∈ names) && expired t c name then None else _servers c !! name) /\
  _serversTimestamp (foldl (clear_one t) c names) !! name =
    (if bool_decide (name ∈ names) && expired t c name then None
     else _serversTimestamp c !! name).
Proof.
  induction names as [|n names IH]; intros c name.
  - cbn [foldl]. rewrite bool_decide_eq_false_2 by apply not_elem_of_nil. auto.
  - cbn [foldl]. destruct (IH (clear_one t c n) name) as [-> ->].
    destruct (clear_one_lookup t c n name) as [Hs Ht].
    assert (He : expired t (clear_one t c n) name =
                 negb (bool_decide (name = n)) && expired t c name).
    { unfold expired at 1. rewrite Ht.
      destruct (bool_decide (name = n)), (expired t c name) eqn:E; cbn [andb negb];
        try reflexivity; unfold expired in E; rewrite E; reflexivity. }
    rewrite He, Hs, Ht.
    destruct (bool_decide_reflect (name = n)) as [Heq|Hne]; cbn [andb negb].
    + rewrite (bool_decide_eq_true_2 (name ∈ n :: names))
        by (rewrite Heq; apply list_elem_of_here).
      rewrite andb_false_r. cbn [andb]. auto.
    + destruct (bool_decide_reflect (name ∈ names)) as [Hin|Hnin].
      * rewrite (bool_decide_eq_true_2 (name ∈ n :: names)) by (apply list_elem_of_further; exact Hin).
        cbn [andb]. destruct (expired t c name); auto.
      * rewrite (bool_decide_eq_false_2 (name ∈ n :: names)).
        -- auto.
        -- intros Hx. apply elem_of_cons in Hx as [Hx|Hx]; contradiction.
Qed.

Lemma clearServerList_lookup c now name :
  let t := now - _serverMaxAge c * 1000 in
  _servers (clearServerList c now) !! name =
    (if expired t c name then None else _servers c !! name) /\
  _serversTimestamp (clearServerList c now) !! name =
    (if bool_decide (is_Some (_servers c !! name)) && expired t c name then None
     else _serversTimestamp c !! name).
Proof.
  intros t. unfold clearServerList. fold t.
  destruct (clear_fold_lookup t (fst <$> map_to_list (_servers c)) c name) as [-> ->].
  assert (Hin : name ∈ fst <$> map_to_list (_servers c) <-> is_Some (_servers c !! name)).
  { rewrite list_elem_of_fmap. split.
    - intros ([n l] & -> & Hnl). apply elem_of_map_to_list in Hnl. eauto.
    - intros [l Hl]. exists (name, l). split; [reflexivity|].
      apply elem_of_map_to_list. exact Hl. }
  destruct (bool_decide_reflect (name ∈ fst <$> map_to_list (_servers c))) as [H|H].
  - rewrite bool_decide_eq_true_2 by (apply Hin; exact H). auto.
  - rewrite bool_decide_eq_false_2 by (intros H'; apply H, Hin; exact H').
    cbn [andb]. split; [|reflexivity].
    destruct (_servers c !! name) eqn:E; [|destruct (expired t c name); reflexivity].
    exfalso. apply H, Hin. eauto.
Qed.

Lemma sweeps_absent_stays c ticks name :
  _servers c !! name = None -> _servers (sweeps c ticks) !! name = None.
Proof.
  unfold sweeps. revert c. induction ticks as [|t ticks IH]; intros c H; [exact H|].
  cbn [foldl]. apply IH. destruct (clearServerList_lookup c t name) as [-> _].
  rewrite H. destruct (expired _ c name); reflexivity.
Qed.

Lemma sweeps_evict c name ts ticks now :
  (_servers c !! name = None \/ _serversTimestamp c !! name = Some ts) ->
  now ∈ ticks -> ts + _serverMaxAge c * 1000 <= now ->
  _servers (sweeps c ticks) !! name = None.
Proof.
  revert c. induction ticks as [|t ticks IH]; intros c HJ Hin Hage.
  - apply elem_of_nil in Hin. contradiction.
  - change (sweeps c (t :: ticks)) with (sweeps (clearServerList c t) ticks).
    destruct (clearServerList_lookup c t name) as [Hs Ht].
    apply elem_of_cons in Hin as [<-|Hin].
    + apply sweeps_absent_stays. rewrite Hs. destruct HJ as [HJ|HJ].
      * rewrite HJ. destruct (expired _ c name); reflexivity.
      * unfold expired. rewrite HJ.
        destruct (Z.leb_spec ts (now - _serverMaxAge c * 1000)); [reflexivity|lia].
    + apply IH; [|exact Hin|].
      * destruct HJ as [HJ|HJ].
        -- left. rewrite Hs, HJ. destruct (expired _ c name); reflexivity.
        -- destruct (expired (t - _serverMaxAge c * 1000) c name) eqn:E.
           ++ left. rewrite Hs. reflexivity.
           ++ right. rewrite Ht, andb_false_r. exact HJ.
      * destruct (Cfg_clearServerList c t) as (_ & _ & _ & -> & _). exact Hage.
Qed.

(** C9 (amended): the sweep is an interval timer of period
    [serverMaxAge * 500] milliseconds, half of [serverMaxAge] seconds.  A
    tick at time [now] removes, list and timestamp, exactly the cached
    entries whose timestamp is at most [now - serverMaxAge * 1000], that is
    the entries that are at least [serverMaxAge] seconds old, an entry of
    exactly that age included, and leaves every other entry as it is.  So
    an entry stamped [ts] is gone after the first tick at or after
    [ts + serverMaxAge * 1000] if nothing refreshes it: with a
    [serverMaxAge] of 2 seconds and ticks at 1, 2 and 3 seconds, an entry
    stamped 0 is gone after the tick at 2 seconds, hence by 3 seconds. *)
Theorem sweep_evicts_at_max_age :
  (forall options id,
     let c := CloudsClient options id in
     _clearServerListTid c = Some (_serverMaxAge c * 500) /\
     0 < _serverMaxAge c * 500 /\
     2 * (_serverMaxAge c * 500) = _serverMaxAge c * 1000) /\
  (forall c now name,
     let t := now - _serverMaxAge c * 1000 in
     let c' := clearServerList c now in
     _servers c' !! name = (if expired t c name then None else _servers c !! name) /\
     _serversTimestamp c' !! name =
       (if bool_decide (is_Some (_servers c !! name)) && expired t c name then None
        else _serversTimestamp c !! name)) /\
  (forall c name ts ticks now,
     _serversTimestamp c !! name = Some ts ->
     now ∈ ticks -> ts + _serverMaxAge c * 1000 <= now ->
     _servers (sweeps c ticks) !! name = None) /\
  (forall c name l,
     _serverMaxAge c = 2 -> _servers c !! name = Some l ->
     _serversTimestamp c !! name = Some 0 ->
     _servers (sweeps c [1000]) !! name = Some l /\
     _servers (sweeps c [1000; 2000]) !! name = None /\
     _servers (sweeps c [1000; 2000; 3000]) !! name = None).
Proof.
  split; [|split; [|split]].
  - intros options id c. subst c. cbn.
    destruct (o_serverMaxAge options) as [a|]; [|repeat split; lia].
    destruct (Z.ltb_spec 0 a); [|repeat split; lia].
    destruct (Z.eqb_spec a 0); repeat split; lia.
  - intros c now name t c'. apply clearServerList_lookup.
  - intros c name ts ticks now Hts Hin Hage.
    eapply sweeps_evict; [right; exact Hts|exact Hin|exact Hage].
  - intros c name l Hage Hs Hts. split; [|split].
    + unfold sweeps. cbn [foldl].
      destruct (clearServerList_lookup c 1000 name) as [-> _].
      unfold expired. rewrite Hts, Hage, Hs. reflexivity.
    + apply (sweeps_evict c name 0 _ 2000); [right; exact Hts| |rewrite Hage; lia].
      apply list_elem_of_further, list_elem_of_here.
    + apply (sweeps_evict c name 0 _ 2000); [right; exact Hts| |rewrite Hage; lia].
      apply list_elem_of_further, list_elem_of_here.
Qed.

(** ** The retry wrapper *)

(** What one execution of [call] leaves behind. *)
Lemma call_shape c name a fn :
  exists fr e,
    frames (call cb c name a fn) = (frames c ++ [fr])%list /\
    f_name fr = name /\ f_args fr = a /\ f_callback fr = fn /\
    f_hasCallback fr = false /\ f_tid fr = Some (_timeout c * 1000) /\
    binds (call cb c name a fn) = binds c /\
    invocations (call cb c name a fn) = invocations c /\
    retryTimers (call cb c name a fn) = retryTimers c /\
    trace (call cb c name a fn) = e :: trace c /\
    (is_keys e = true \/ is_publish e = true).
Proof.
  unfold call. rewrite findOneServer_cases. fsimpl.
  destruct (_servers c !! name) as [[|s l]|] eqn:E.
  - fsimpl. rewrite !alter_app_new. eexists _, _. repeat split. left; reflexivity.
  - erewrite found_ok by (fsimpl; apply lookup_app_new).
    unfold _sendCallRequest. fsimpl. rewrite !alter_app_new.
    eexists _, _. repeat split. right; reflexivity.
  - fsimpl. rewrite !alter_app_new. eexists _, _. repeat split. left; reflexivity.
Qed.

Lemma start_dispatches c inv iv bf :
  invocations c !! inv = Some iv -> binds c !! i_bind iv = Some bf ->
  (b_onRetry bf = DefaultOnRetry inv \/ exists g, b_onRetry bf = UserOnRetry g) ->
  start cb c inv = call cb c (b_name bf) (retry_args bf iv) (OnCallback inv).
Proof.
  intros Hi Hb Hr. unfold start, retry_args. rewrite Hi, Hb.
  destruct Hr as [-> | [g ->]].
  - unfold default_onRetry, bound_call. rewrite Hi, Hb. reflexivity.
  - unfold bound_call. rewrite Hi, Hb. reflexivity.
Qed.

(** The decision of [onCallback]. *)
Lemma onCallback_decision c inv iv bf arguments :
  invocations c !! inv = Some iv -> binds c !! i_bind iv = Some bf ->
  let err := List.hd VUndefined arguments in
  let budget := truthy err = true /\ i_retryCounter iv < b_retry bf in
  (budget -> code_of err = Some CLOUDS_CALL_SERVICE_TIMEOUT ->
     onCallback cb c inv arguments = tryAgain cb c inv) /\
  (budget -> code_of err = Some CLOUDS_NO_AVAILABLE_SERVER ->
     let c' := onCallback cb c inv arguments in
     c' = with_retryTimers (retryTimers c ++ [(inv, b_timeout bf)]) c /\
     retry_timer_expires c' (length (retryTimers c)) = tryAgain cb c inv) /\
  (~ (budget /\ (code_of err = Some CLOUDS_CALL_SERVICE_TIMEOUT \/
                 code_of err = Some CLOUDS_NO_AVAILABLE_SERVER)) ->
     onCallback cb c inv arguments = emit (Outer inv (i_callback iv) arguments) c).
Proof.
  intros Hi Hb err budget.
  assert (Hu : onCallback cb c inv arguments =
    if truthy err && (i_retryCounter iv <? b_retry bf) then
      if decide (code_of err = Some CLOUDS_CALL_SERVICE_TIMEOUT) then tryAgain cb c inv
      else if decide (code_of err = Some CLOUDS_NO_AVAILABLE_SERVER)
      then with_retryTimers (retryTimers c ++ [(inv, b_timeout bf)]) c
      else emit (Outer inv (i_callback iv) arguments) c
    else emit (Outer inv (i_callback iv) arguments) c).
  { unfold onCallback. rewrite Hi, Hb. reflexivity. }
  split; [|split].
  - intros [Ht Hr] Hc. rewrite Hu, Ht. apply Z.ltb_lt in Hr. rewrite Hr. cbn [andb].
    destruct (decide _); [reflexivity|contradiction].
  - intros [Ht Hr] Hc c'. subst c'. rewrite Hu, Ht. apply Z.ltb_lt in Hr. rewrite Hr. cbn [andb].
    destruct (decide _) as [Hc'|_]; [rewrite Hc in Hc'; discriminate|].
    destruct (decide _); [|contradiction]. split; [reflexivity|].
    unfold retry_timer_expires. fsimpl. rewrite lookup_app_new.
    rewrite delete_middle. rewrite app_nil_r. destruct c; reflexivity.
  - intros Hn. rewrite Hu. destruct (truthy err) eqn:Ht; [|reflexivity].
    destruct (Z.ltb_spec (i_retryCounter iv) (b_retry bf)) as [Hr|Hr]; [|reflexivity].
    cbn [andb].
    destruct (decide _) as [Hc|_]; [exfalso; apply Hn; unfold budget; auto|].
    destruct (decide _) as [Hc|_]; [exfalso; apply Hn; unfold budget; auto|].
    reflexivity.
Qed.

Lemma removeServer_binds_invocations c serverId name :
  binds (evicted c serverId name) = binds c /\
  invocations (evicted c serverId name) = invocations c.
Proof.
  unfold evicted. destruct (_servers c !! name) as [l|];
    [destruct (_ <? _)%nat|]; destruct (negb _); auto.
Qed.

Lemma outer_calls_removeServer c serverId name :
  outer_calls (trace (evicted c serverId name)) = outer_calls (trace c).
Proof.
  rewrite removeServer_trace. destruct (notAutoCleanRemoteServer c); reflexivity.
Qed.

Lemma publishes_removeServer c serverId name :
  publishes (trace (evicted c serverId name)) = publishes (trace c).
Proof.
  rewrite removeServer_trace. destruct (notAutoCleanRemoteServer c); reflexivity.
Qed.

Lemma removeServer_keysPending c serverId name :
  keysPending (evicted c serverId name) = keysPending c.
Proof.
  unfold evicted. destruct (_servers c !! name) as [l|];
    [destruct (_ <? _)%nat|]; destruct (negb _); reflexivity.
Qed.

Lemma removeServer_keeps_list c serverId name :
  is_Some (_servers c !! name) -> is_Some (_servers (evicted c serverId name) !! name).
Proof.
  intros [l E]. unfold evicted. cbv zeta. rewrite E.
  destruct (_ <? _)%nat; destruct (negb _); fsimpl; rewrite ?lookup_insert_eq, ?E; eauto.
Qed.

(** The expiry of the timer of an attempt of a bound caller runs
    [onCallback] with the timeout error, unless [_removeServer] throws. *)
Lemma timeout_expires_bound c k fr d inv :
  frames c !! k = Some fr -> f_tid fr = Some d -> f_hasCallback fr = false ->
  f_callback fr = OnCallback inv -> removeServer_throws c (f_name fr) = false ->
  timeout_expires c k =
    onCallback cb
      (trip k (OnCallback inv) [call_timeout]
         (evicted
            (_removeMessageHandler (update_frame k (set_tid None) c) (m_id (f_msg fr)))
            (f_serverId fr) (f_name fr)))
      inv [call_timeout].
Proof.
  intros Hk Htid Hl Hcb Hno. rewrite (proj2 (timeout_expires_returns c k fr d Hk Htid Hno)).
  rewrite cb_unfold. unfold cb_body.
  rewrite removeServer_frames. unfold _removeMessageHandler at 1. fsimpl.
  rewrite list_lookup_alter_eq, Hk. cbn [fmap option_fmap option_map]. fsimpl.
  rewrite Hl, Hcb. reflexivity.
Qed.

Lemma Own_alter inv name a k0 c c' k g :
  frames c' = alter g k (frames c) ->
  (forall fr, f_name (g fr) = f_name fr /\ f_args (g fr) = f_args fr /\
              f_callback (g fr) = f_callback fr) ->
  Own inv name a k0 c -> Own inv name a k0 c'.
Proof.
  intros Hf Hg HO j fr Hj Hlk. rewrite Hf in Hlk.
  destruct (decide (k = j)) as [->|Hne].
  - rewrite list_lookup_alter_eq in Hlk.
    destruct (frames c !! j) as [fr0|] eqn:E; [|discriminate].
    cbn in Hlk. inversion Hlk; subst fr.
    destruct (Hg fr0) as (-> & -> & ->). eapply HO; eauto.
  - rewrite list_lookup_alter_ne in Hlk by exact Hne. eapply HO; eauto.
Qed.

Lemma Own_app inv name a k0 c c' fr' :
  frames c' = (frames c ++ [fr'])%list ->
  f_name fr' = name -> f_args fr' = a -> f_callback fr' = OnCallback inv ->
  Own inv name a k0 c -> Own inv name a k0 c'.
Proof.
  intros Hf H1 H2 H3 HO j fr Hj Hlk. rewrite Hf in Hlk.
  apply lookup_app_Some in Hlk as [Hlk|[_ Hlk]]; [eapply HO; eauto|].
  apply list_lookup_singleton_Some in Hlk as [_ <-]. auto.
Qed.

(** Whether the scan of the attempt in flight is the one to answer. *)
Lemma scan_pending_flight name c k pending :
  InFlight name c k pending ->
  scan_pending c k = pending /\
  (pending = true -> keysPending c !! (length (keysPending c) - 1)%nat = Some (name, k)).
Proof.
  intros (_ & old & Hold & Hkp). unfold scan_pending. rewrite Hkp. destruct pending.
  - rewrite last_snoc, Nat.eqb_refl. split; [reflexivity|]. intros _.
    rewrite length_app. cbn [length].
    replace (length old + 1 - 1)%nat with (length old) by lia.
    apply lookup_app_new.
  - rewrite app_nil_r. split; [|discriminate].
    destruct (last old) as [[n k']|] eqn:E; [|reflexivity].
    apply last_Some_elem_of in E. rewrite Forall_forall in Hold.
    specialize (Hold _ E). cbn [snd] in Hold. apply Nat.eqb_neq. lia.
Qed.

(** What one execution of [call] leaves behind, with its scan or its
    publication. *)
Lemma call_flight c name a fn :
  Scans c ->
  exists fr e (pending : bool),
    frames (call cb c name a fn) = (frames c ++ [fr])%list /\
    f_name fr = name /\ f_args fr = a /\ f_callback fr = fn /\
    f_hasCallback fr = false /\ f_tid fr = Some (_timeout c * 1000) /\
    binds (call cb c name a fn) = binds c /\
    invocations (call cb c name a fn) = invocations c /\
    trace (call cb c name a fn) = e :: trace c /\
    is_outer e = false /\
    (length (publishes (trace (call cb c name a fn))) + (if pending then 1 else 0)
     = S (length (publishes (trace c))))%nat /\
    InFlight name (call cb c name a fn) (length (frames c)) pending.
Proof.
  intros Hwf. unfold call. rewrite findOneServer_cases. fsimpl.
  destruct (_servers c !! name) as [[|s l]|] eqn:E.
  - fsimpl. rewrite !alter_app_new. eexists _, _, true.
    do 10 (split; [reflexivity|]). split; [unfold publishes; cbn [List.filter is_publish length]; lia|].
    split; [fsimpl; rewrite E; eauto|].
    exists (keysPending c). split; [exact Hwf|reflexivity].
  - erewrite found_ok by (fsimpl; apply lookup_app_new).
    unfold _sendCallRequest. fsimpl. rewrite !alter_app_new. eexists _, _, false.
    do 10 (split; [reflexivity|]). split; [unfold publishes; cbn [List.filter is_publish length]; lia|].
    split; [fsimpl; rewrite E; eauto|].
    exists (keysPending c). split; [exact Hwf|]. rewrite app_nil_r. reflexivity.
  - fsimpl. rewrite !alter_app_new. eexists _, _, true.
    do 10 (split; [reflexivity|]). split; [unfold publishes; cbn [List.filter is_publish length]; lia|].
    split; [fsimpl; rewrite lookup_insert_eq; eauto|].
    exists (keysPending c). split; [exact Hwf|reflexivity].
Qed.

Lemma keysReply_found f c name k err list now fr :
  frames c !! k = Some fr -> truthy err = false ->
  map last_segment (default [] list) <> [] ->
  let l := map last_segment (default [] list) in
  let sid := l !! random_index (draws c) (length l) in
  keysReply f c name k err list now =
    _sendCallRequest
      (with_messages (<[m_id (f_msg fr) := k]> (_messages c))
         (update_frame k (set_serverId sid)
            (with_draws (S (draws c)) (_saveServerList c name (Some l) now))))
      sid (m_data (f_msg fr)) VUndefined.
Proof.
  intros Hk He Hne l sid. unfold keysReply. rewrite He. fold l.
  unfold returnOneServer. unfold _saveServerList at 1 2. fsimpl.
  rewrite lookup_insert_eq. cbn [default].
  destruct l as [|s l'] eqn:El; [contradiction|].
  change (length (s :: l') <? 1)%nat with false. cbn [negb].
  erewrite found_ok by (fsimpl; exact Hk). reflexivity.
Qed.

(** The scan of the attempt in flight is answered with servers: the call
    is published to one of them. *)
Lemma attempt_reply R inv u name a k0 keys now c k r :
  Attempt R inv u name a c k r -> InFlight name c k true -> keys <> [] ->
  Own inv name a k0 c ->
  let c' := keys_replied c (length (keysPending c) - 1) VNull (Some keys) now in
  Attempt R inv u name a c' k r /\ InFlight name c' k false /\
  length (publishes (trace c')) = S (length (publishes (trace c))) /\
  outer_calls (trace c') = outer_calls (trace c) /\
  Own inv name a k0 c'.
Proof.
  intros (Hlen & (fr & d & Hk & Hcb & Hl & Htid & Hname & Hargs) & HB) HF Hkeys HO c'.
  destruct (scan_pending_flight name c k true HF) as [_ Hlast]. specialize (Hlast eq_refl).
  destruct HF as (Hsrv & old & Hold & Hkp).
  assert (Hne : map last_segment (default [] (Some keys)) <> [])
    by (cbn [default]; destruct keys; [contradiction|discriminate]).
  set (c0 := with_keysPending (delete (length (keysPending c) - 1)%nat (keysPending c)) c).
  assert (Hk0 : frames c0 !! k = Some fr) by exact Hk.
  assert (Hc' : c' = keysReply cb c0 name k VNull (Some keys) now)
    by (unfold c', keys_replied; rewrite Hlast; reflexivity).
  rewrite (keysReply_found cb c0 name k VNull (Some keys) now fr Hk0 eq_refl Hne) in Hc'.
  cbv zeta in Hc'. unfold _sendCallRequest in Hc'.
  assert (Hkp0 : keysPending c0 = old).
  { unfold c0. fsimpl. rewrite Hkp, length_app. cbn [length].
    replace (length old + 1 - 1)%nat with (length old) by lia.
    rewrite delete_middle, app_nil_r. reflexivity. }
  clearbody c'. subst c'.
  split; [|split; [|split; [|split]]].
  - split; [fsimpl; unfold _saveServerList; fsimpl; rewrite length_alter; exact Hlen|].
    split; [|exact HB].
    eexists _, d. fsimpl. unfold _saveServerList. fsimpl.
    rewrite list_lookup_alter_eq. first [rewrite Hk0 | rewrite Hk].
    split; [reflexivity|]. cbn. auto.
  - split.
    + fsimpl. unfold _saveServerList. fsimpl. rewrite lookup_insert_eq. eauto.
    + exists old. split; [exact Hold|]. rewrite app_nil_r. exact Hkp0.
  - reflexivity.
  - reflexivity.
  - eapply (Own_alter inv name a k0 c _ k (set_serverId _)); [|intros f0; auto|exact HO].
    fsimpl. unfold _saveServerList. fsimpl. reflexivity.
Qed.

(** An attempt with retries left times out: the next attempt is started
    at once, and no outer callback is applied. *)
Lemma attempt_retry R inv u name a k0 c k r :
  Attempt R inv u name a c k r -> r < R -> InFlight name c k false ->
  Own inv name a k0 c ->
  let c' := timeout_expires c k in
  Attempt R inv u name a c' (S k) (r + 1) /\
  (exists pending : bool, InFlight name c' (S k) pending /\
     (length (publishes (trace c')) + (if pending then 1 else 0)
      = S (length (publishes (trace c))))%nat) /\
  outer_calls (trace c') = outer_calls (trace c) /\
  Own inv name a k0 c'.
Proof.
  intros (Hlen & (fr & d & Hk & Hcb & Hl & Htid & Hname & Hargs)
          & (iv & bf & Hi & Hr & Hu & Hb & HR & Hbn & Hra & Hon)) Hlt
         (Hsrv & old & Hold & Hkp) HO c'.
  assert (Hno : removeServer_throws c (f_name fr) = false)
    by (rewrite Hname; destruct Hsrv as [l0 E0]; exact (removeServer_own c name l0 E0)).
  subst c'. rewrite (timeout_expires_bound c k fr d inv Hk Htid Hl Hcb Hno).
  set (c2 := evicted _ (f_serverId fr) (f_name fr)).
  set (Z0 := trip k (OnCallback inv) [call_timeout] c2).
  destruct (removeServer_binds_invocations
              (_removeMessageHandler (update_frame k (set_tid None) c) (m_id (f_msg fr)))
              (f_serverId fr) (f_name fr)) as [Hb2 Hi2].
  fold c2 in Hb2, Hi2.
  assert (HiZ : invocations Z0 !! inv = Some iv) by (unfold Z0, trip; fsimpl; rewrite Hi2; exact Hi).
  assert (HbZ : binds Z0 !! i_bind iv = Some bf) by (unfold Z0, trip; fsimpl; rewrite Hb2; exact Hb).
  destruct (onCallback_decision Z0 inv iv bf [call_timeout] HiZ HbZ) as (Hdec & _).
  rewrite Hdec; [|split; [reflexivity|lia]|reflexivity].
  unfold tryAgain.
  set (Z1 := with_invocations _ Z0).
  assert (HiZ1 : invocations Z1 !! inv = Some (set_retryCounter (i_retryCounter iv + 1) iv)).
  { unfold Z1. fsimpl. rewrite list_lookup_alter_eq, HiZ. reflexivity. }
  rewrite (start_dispatches Z1 inv _ bf HiZ1 HbZ Hon).
  assert (HfZ1 : frames Z1 = alter (fun f => set_tid None (set_hasCallback true (set_tid None f))) k (frames c)).
  { unfold Z1, Z0, trip. fsimpl. unfold c2. rewrite removeServer_frames.
    unfold _removeMessageHandler. fsimpl. rewrite !list_alter_alter_eq. reflexivity. }
  assert (HlenZ1 : length (frames Z1) = S k) by (rewrite HfZ1, length_alter; exact Hlen).
  assert (HkpZ1 : keysPending Z1 = old).
  { unfold Z1, Z0, trip. fsimpl. unfold c2. rewrite removeServer_keysPending.
    unfold _removeMessageHandler. fsimpl. rewrite Hkp, app_nil_r. reflexivity. }
  assert (HwfZ1 : Forall (fun p => (snd p < length (frames Z1))%nat) (keysPending Z1)).
  { rewrite HkpZ1, HlenZ1. eapply Forall_impl; [exact Hold|]. intros p Hp. cbn beta in Hp. lia. }
  assert (HpZ1 : publishes (trace Z1) = publishes (trace c)).
  { unfold Z1, Z0, trip. fsimpl. cbn [publishes List.filter is_publish].
    fold (publishes (trace c2)). unfold c2. rewrite publishes_removeServer. reflexivity. }
  assert (HoZ1 : outer_calls (trace Z1) = outer_calls (trace c)).
  { unfold Z1, Z0, trip. fsimpl. cbn [outer_calls List.filter is_outer].
    fold (outer_calls (trace c2)). unfold c2. rewrite outer_calls_removeServer. reflexivity. }
  destruct (call_flight Z1 (b_name bf)
              (retry_args bf (set_retryCounter (i_retryCounter iv + 1) iv)) (OnCallback inv) HwfZ1)
    as (fr' & e & pending & Hfr' & Hn' & Ha' & Hc' & Hl' & Ht' & Hbs & His & Htr & Heo & Hpub & HF').
  change (retry_args bf (set_retryCounter (i_retryCounter iv + 1) iv))
    with (retry_args bf iv) in *.
  split; [|split; [|split]].
  - split; [rewrite Hfr', length_app, HlenZ1; cbn; lia|]. split.
    + exists fr', (_timeout Z1 * 1000). rewrite Hfr'. rewrite <- HlenZ1, lookup_app_new.
      repeat split; auto; congruence.
    + exists (set_retryCounter (i_retryCounter iv + 1) iv), bf.
      rewrite His, Hbs. repeat split; auto. cbn. lia.
  - exists pending. rewrite HlenZ1 in HF'. split; [rewrite <- Hbn; exact HF'|].
    rewrite Hpub, HpZ1. reflexivity.
  - rewrite Htr. cbn [outer_calls List.filter]. rewrite Heo. exact HoZ1.
  - eapply Own_app; [exact Hfr'|congruence|congruence|exact Hc'|].
    eapply Own_alter; [exact HfZ1|intros f0; auto|exact HO].
Qed.

(** An attempt without retries left times out: the outer callback is
    applied with the timeout error, and no attempt follows. *)
Lemma attempt_final R inv u name a k0 c k :
  Attempt R inv u name a c k R -> InFlight name c k false -> Own inv name a k0 c ->
  let c' := timeout_expires c k in
  length (frames c') = S k /\
  publishes (trace c') = publishes (trace c) /\
  outer_calls (trace c') = Outer inv u [call_timeout] :: outer_calls (trace c) /\
  trace c' !! 0%nat = Some (Outer inv u [call_timeout]) /\
  Own inv name a k0 c'.
Proof.
  intros (Hlen & (fr & d & Hk & Hcb & Hl & Htid & Hname & Hargs)
          & (iv & bf & Hi & Hr & Hu & Hb & HR & Hbn & Hra & Hon))
         (Hsrv & old & Hold & Hkp) HO c'.
  assert (Hno : removeServer_throws c (f_name fr) = false)
    by (rewrite Hname; destruct Hsrv as [l0 E0]; exact (removeServer_own c name l0 E0)).
  subst c'. rewrite (timeout_expires_bound c k fr d inv Hk Htid Hl Hcb Hno).
  set (c2 := evicted _ (f_serverId fr) (f_name fr)).
  set (Z0 := trip k (OnCallback inv) [call_timeout] c2).
  destruct (removeServer_binds_invocations
              (_removeMessageHandler (update_frame k (set_tid None) c) (m_id (f_msg fr)))
              (f_serverId fr) (f_name fr)) as [Hb2 Hi2].
  fold c2 in Hb2, Hi2.
  assert (HiZ : invocations Z0 !! inv = Some iv) by (unfold Z0, trip; fsimpl; rewrite Hi2; exact Hi).
  assert (HbZ : binds Z0 !! i_bind iv = Some bf) by (unfold Z0, trip; fsimpl; rewrite Hb2; exact Hb).
  destruct (onCallback_decision Z0 inv iv bf [call_timeout] HiZ HbZ) as (_ & _ & Hdec).
  rewrite Hdec by (intros [[_ Hlt] _]; lia).
  assert (HfZ0 : frames Z0 = alter (fun f => set_tid None (set_hasCallback true (set_tid None f))) k (frames c)).
  { unfold Z0, trip. fsimpl. unfold c2. rewrite removeServer_frames.
    unfold _removeMessageHandler. fsimpl. rewrite !list_alter_alter_eq. reflexivity. }
  fsimpl. rewrite Hu. split; [|split; [|split; [|split]]].
  - rewrite HfZ0, length_alter. exact Hlen.
  - cbn [publishes List.filter is_publish]. unfold Z0, trip. fsimpl.
    cbn [List.filter is_publish]. fold (publishes (trace c2)).
    unfold c2. rewrite publishes_removeServer. reflexivity.
  - cbn [outer_calls List.filter is_outer]. f_equal.
    unfold Z0, trip. fsimpl. cbn [List.filter is_outer]. fold (outer_calls (trace c2)).
    unfold c2. rewrite outer_calls_removeServer. reflexivity.
  - reflexivity.
  - refine (Own_alter inv name a k0 c (emit _ Z0) k _ HfZ0 _ HO). intros f0; auto.
Qed.

(** All the attempts of an invocation time out, one after the other. *)
Lemma attempts_all_time_out R inv u name a k0 keys now :
  (forall k, keys k <> []) -> forall n c k (r : Z) (pending : bool),
  Attempt R inv u name a c k r -> InFlight name c k pending ->
  Z.of_nat n = R - r -> Own inv name a k0 c ->
  let c' := attempts_time_out keys now c (seq k (S n)) in
  length (frames c') = (S k + n)%nat /\
  (length (publishes (trace c'))
   = length (publishes (trace c)) + (if pending then 1 else 0) + n)%nat /\
  outer_calls (trace c') = Outer inv u [call_timeout] :: outer_calls (trace c) /\
  trace c' !! 0%nat = Some (Outer inv u [call_timeout]) /\
  Own inv name a k0 c'.
Proof.
  intros Hkeys.
  assert (Hstep : forall c k (r : Z) (pending : bool),
    Attempt R inv u name a c k r -> InFlight name c k pending -> Own inv name a k0 c ->
    exists c1, attempt_times_out (keys k) (now k) c k = timeout_expires c1 k /\
      Attempt R inv u name a c1 k r /\ InFlight name c1 k false /\
      (length (publishes (trace c1))
       = length (publishes (trace c)) + (if pending then 1 else 0))%nat /\
      outer_calls (trace c1) = outer_calls (trace c) /\ Own inv name a k0 c1).
  { intros c k r pending HA HF HO. unfold attempt_times_out.
    destruct (scan_pending_flight name c k pending HF) as [-> _]. destruct pending.
    - destruct (attempt_reply R inv u name a k0 (keys k) (now k) c k r HA HF (Hkeys k) HO)
        as (HA' & HF' & Hp & Ho & HO').
      eexists. split; [reflexivity|]. split; [exact HA'|]. split; [exact HF'|].
      split; [rewrite Hp; lia|]. split; [exact Ho|exact HO'].
    - exists c. split; [reflexivity|]. split; [exact HA|]. split; [exact HF|].
      split; [lia|]. split; [reflexivity|exact HO]. }
  induction n as [|n IH]; intros c k r pending HA HF Hn HO c'.
  - assert (r = R) by lia. subst r. subst c'. unfold attempts_time_out. cbn [seq foldl].
    destruct (Hstep c k R pending HA HF HO) as (c1 & -> & HA1 & HF1 & Hp1 & Ho1 & HO1).
    destruct (attempt_final R inv u name a k0 c1 k HA1 HF1 HO1) as (H1 & H2 & H3 & H4 & H5).
    rewrite Nat.add_0_r. split; [exact H1|]. split; [rewrite H2, Hp1; lia|].
    split; [rewrite H3, Ho1; reflexivity|]. split; assumption.
  - subst c'. unfold attempts_time_out.
    change (seq k (S (S n))) with (k :: seq (S k) (S n)). cbn [foldl].
    fold (attempts_time_out keys now (attempt_times_out (keys k) (now k) c k) (seq (S k) (S n))).
    assert (Hlt : r < R) by lia.
    assert (Hn' : Z.of_nat n = R - (r + 1)) by lia.
    destruct (Hstep c k r pending HA HF HO) as (c1 & -> & HA1 & HF1 & Hp1 & Ho1 & HO1).
    destruct (attempt_retry R inv u name a k0 c1 k r HA1 Hlt HF1 HO1)
      as (HA' & (pending' & HF' & Hp') & Hout & HO').
    destruct (IH (timeout_expires c1 k) (S k) (r + 1) pending' HA' HF' Hn' HO')
      as (H1 & H2 & H3 & H4 & H5).
    split; [rewrite H1; lia|]. split; [rewrite H2; lia|].
    split; [rewrite H3, Hout, Ho1; reflexivity|]. split; assumption.
Qed.

(** The first attempt of an invocation that runs its own [onRetry]. *)
Lemma bound_starts c b bf args u :
  binds c !! b = Some bf ->
  (b_onRetry bf = NotAFunction \/ exists g, b_onRetry bf = UserOnRetry g) ->
  Scans c ->
  let inv := length (invocations c) in
  let a := match b_onRetry bf with UserOnRetry g => g args | _ => args end in
  exists c1 (pending : bool), bound c b (args ++ [VFn u]) = Some c1 /\
    Attempt (b_retry bf) inv u (b_name bf) a c1 (length (frames c)) 0 /\
    InFlight (b_name bf) c1 (length (frames c)) pending /\
    (length (publishes (trace c1)) + (if pending then 1 else 0)
     = S (length (publishes (trace c))))%nat /\
    outer_calls (trace c1) = outer_calls (trace c) /\
    Own inv (b_name bf) a (length (frames c)) c1.
Proof.
  intros Hb Hon Hwf inv a. unfold bound. rewrite Hb.
  rewrite last_last, removelast_last.
  set (bf' := match b_onRetry bf with NotAFunction => set_onRetry (DefaultOnRetry inv) bf | _ => bf end).
  set (c0 := match b_onRetry bf with
             | NotAFunction => with_binds (alter (set_onRetry (DefaultOnRetry inv)) b (binds c)) c
             | _ => c end).
  set (iv := {| i_bind := b; i_args := args; i_callback := u; i_retryCounter := 0 |}).
  set (c1 := with_invocations (invocations c0 ++ [iv]) c0).
  assert (Hinv0 : invocations c0 = invocations c) by (unfold c0; destruct (b_onRetry bf); reflexivity).
  assert (Hfr0 : frames c0 = frames c) by (unfold c0; destruct (b_onRetry bf); reflexivity).
  assert (Htr0 : trace c0 = trace c) by (unfold c0; destruct (b_onRetry bf); reflexivity).
  assert (Hkp0 : keysPending c0 = keysPending c) by (unfold c0; destruct (b_onRetry bf); reflexivity).
  assert (Hi1 : invocations c1 !! inv = Some iv).
  { unfold c1. fsimpl. rewrite Hinv0. apply lookup_app_new. }
  assert (Hb1 : binds c1 !! b = Some bf').
  { unfold c1, c0, bf'. destruct (b_onRetry bf); fsimpl; [|exact Hb|exact Hb].
    rewrite list_lookup_alter_eq, Hb. reflexivity. }
  assert (Hon' : b_onRetry bf' = DefaultOnRetry inv \/ exists g, b_onRetry bf' = UserOnRetry g).
  { unfold bf'. destruct Hon as [->|[g Hg]]; [left; reflexivity|].
    rewrite Hg. right. exists g. exact Hg. }
  assert (Hra : retry_args bf' iv = a).
  { unfold retry_args, bf', a. destruct (b_onRetry bf) eqn:E; cbn; rewrite ?E; reflexivity. }
  assert (Hbn : b_name bf' = b_name bf /\ b_retry bf' = b_retry bf).
  { unfold bf'. destruct (b_onRetry bf); auto. }
  destruct Hbn as [Hbn HbR].
  assert (Hwf1 : Forall (fun p => (snd p < length (frames c1))%nat) (keysPending c1)).
  { change (frames c1) with (frames c0). change (keysPending c1) with (keysPending c0).
    rewrite Hfr0, Hkp0. exact Hwf. }
  destruct (call_flight c1 (b_name bf) a (OnCallback inv) Hwf1)
    as (fr' & e & pending & Hfr' & Hn' & Ha' & Hc' & Hl' & Ht' & Hbs & His & Htr & Heo & Hpub & HF').
  change (frames c1) with (frames c0) in Hfr', HF'. rewrite Hfr0 in Hfr', HF'.
  change (trace c1) with (trace c0) in Htr, Hpub. rewrite Htr0 in Htr, Hpub.
  exists (start cb c1 inv), pending. split; [reflexivity|].
  rewrite (start_dispatches c1 inv iv bf' Hi1 Hb1 Hon'). rewrite Hra, Hbn.
  split; [|split; [exact HF'|split; [exact Hpub|split]]].
  - split; [rewrite Hfr', length_app; cbn; lia|]. split.
    + exists fr', (_timeout c1 * 1000). rewrite Hfr', lookup_app_new. repeat split; auto.
    + exists iv, bf'. rewrite His, Hbs. repeat split; auto.
  - rewrite Htr. cbn [outer_calls List.filter]. rewrite Heo. reflexivity.
  - intros j fr Hj Hlk. rewrite Hfr' in Hlk.
    apply lookup_app_Some in Hlk as [Hlk|[_ Hlk]].
    + apply lookup_lt_Some in Hlk. lia.
    + apply list_lookup_singleton_Some in Hlk as [_ <-]. auto.
Qed.

(** An invocation of a bound caller that finds the default [onRetry] of an
    earlier invocation [inv1] in the variable of [bind]: its attempt is a
    call of that invocation. *)
Lemma bound_later c b bf inv1 iv1 args u :
  binds c !! b = Some bf -> b_onRetry bf = DefaultOnRetry inv1 ->
  invocations c !! inv1 = Some iv1 -> i_bind iv1 = b ->
  Scans c ->
  exists c2 (pending : bool), bound c b (args ++ [VFn u]) = Some c2 /\
    Attempt (b_retry bf) inv1 (i_callback iv1) (b_name bf) (i_args iv1) c2 (length (frames c))
      (i_retryCounter iv1) /\
    InFlight (b_name bf) c2 (length (frames c)) pending /\
    (length (publishes (trace c2)) + (if pending then 1 else 0)
     = S (length (publishes (trace c))))%nat /\
    outer_calls (trace c2) = outer_calls (trace c) /\
    Own inv1 (b_name bf) (i_args iv1) (length (frames c)) c2 /\
    invocations c2 !! length (invocations c)
      = Some {| i_bind := b; i_args := args; i_callback := u; i_retryCounter := 0 |}.
Proof.
  intros Hb Hon Hi1 Hib Hwf. unfold bound. rewrite Hb, last_last, removelast_last, Hon.
  set (iv2 := {| i_bind := b; i_args := args; i_callback := u; i_retryCounter := 0 |}).
  set (c1 := with_invocations (invocations c ++ [iv2]) c).
  assert (Hi2 : invocations c1 !! length (invocations c) = Some iv2)
    by (unfold c1; fsimpl; apply lookup_app_new).
  assert (Hi1' : invocations c1 !! inv1 = Some iv1).
  { unfold c1. fsimpl. rewrite lookup_app_l by (apply lookup_lt_Some in Hi1; exact Hi1).
    exact Hi1. }
  assert (Hb' : binds c1 !! i_bind iv1 = Some bf) by (rewrite Hib; exact Hb).
  assert (Hs : start cb c1 (length (invocations c))
               = call cb c1 (b_name bf) (i_args iv1) (OnCallback inv1)).
  { unfold start. rewrite Hi2. cbn [i_bind iv2].
    change (binds c1 !! b) with (binds c !! b). rewrite Hb, Hon.
    unfold default_onRetry. rewrite Hi1'. unfold bound_call. rewrite Hi1', Hb'. reflexivity. }
  destruct (call_flight c1 (b_name bf) (i_args iv1) (OnCallback inv1) Hwf)
    as (fr' & e & pending & Hfr' & Hn' & Ha' & Hc' & Hl' & Ht' & Hbs & His & Htr & Heo & Hpub & HF').
  exists (start cb c1 (length (invocations c))), pending. split; [reflexivity|]. rewrite Hs.
  split; [|split; [exact HF'|split; [exact Hpub|split; [|split]]]].
  - split; [rewrite Hfr', length_app; cbn; lia|]. split.
    + exists fr', (_timeout c1 * 1000). rewrite Hfr'.
      change (frames c1) with (frames c). rewrite lookup_app_new. repeat split; auto.
    + exists iv1, bf. rewrite His, Hbs. repeat split; auto.
      unfold retry_args. rewrite Hon. reflexivity.
  - rewrite Htr. cbn [outer_calls List.filter]. rewrite Heo. reflexivity.
  - intros j fr Hj Hlk. rewrite Hfr' in Hlk. change (frames c1) with (frames c) in Hlk.
    apply lookup_app_Some in Hlk as [Hlk|[_ Hlk]].
    + apply lookup_lt_Some in Hlk. lia.
    + apply list_lookup_singleton_Some in Hlk as [_ <-]. auto.
  - rewrite His. exact Hi2.
Qed.

(** C7: the decision of [onCallback] is the one the claim gives, for every
    bound caller and every completion of an attempt: a retry at once on
    the error of code CLOUDS_CALL_SERVICE_TIMEOUT and through a timer of
    the call timeout on CLOUDS_NO_AVAILABLE_SERVER, in both cases only
    while fewer retries than the limit were made, and the outer callback
    in every other case.  The consequence holds for an invocation that
    runs an [onRetry] of its own, which is the first invocation of a
    caller bound without [onRetry]: when nobody answers its attempts, each
    of them is published to a server (one that the scan finds, whatever
    the scan returns and whenever, or a cached one) and then times out,
    and a caller bound with limit [R] publishes [R + 1] calls and then
    applies the outer callback once, with the timeout error: 3 calls for a
    limit of 2.  This is stated for a client whose pending scans belong to
    call frames, as they do in every execution ([Scans_run]).  The
    consequence fails for every later invocation of a caller bound without
    [onRetry]: that one runs the closure that an earlier invocation [inv1]
    stored in the variable [onRetry] of [bind], so its attempt is a call
    with the arguments of [inv1] that completes into the [onCallback] of
    [inv1], which goes on counting where [inv1] stopped.  When [inv1] has
    retried [r] times, the new invocation whose attempts all time out
    publishes [R - r + 1] calls, all with the arguments of [inv1], and
    then the outer callback of [inv1] is applied with the timeout error,
    and the callback of the new invocation never; when [inv1] has used up
    its retries, that is one call instead of [R + 1]. *)
Theorem bind_retry_policy c :
  (forall name retry onRetry,
     exists bf, binds (bind c name retry onRetry) !! length (binds c) = Some bf /\
       b_name bf = name /\ b_retry bf = Z.max 0 retry /\
       b_timeout bf = Z.max 0 (_timeout c * 1000)) /\
  (forall inv iv bf arguments,
     invocations c !! inv = Some iv -> binds c !! i_bind iv = Some bf ->
     let err := List.hd VUndefined arguments in
     let budget := truthy err = true /\ i_retryCounter iv < b_retry bf in
     (budget -> code_of err = Some CLOUDS_CALL_SERVICE_TIMEOUT ->
        onCallback cb c inv arguments = tryAgain cb c inv) /\
     (budget -> code_of err = Some CLOUDS_NO_AVAILABLE_SERVER ->
        let c' := onCallback cb c inv arguments in
        c' = with_retryTimers (retryTimers c ++ [(inv, b_timeout bf)]) c /\
        retry_timer_expires c' (length (retryTimers c)) = tryAgain cb c inv) /\
     (~ (budget /\ (code_of err = Some CLOUDS_CALL_SERVICE_TIMEOUT \/
                    code_of err = Some CLOUDS_NO_AVAILABLE_SERVER)) ->
        onCallback cb c inv arguments = emit (Outer inv (i_callback iv) arguments) c)) /\
  (forall b bf args u keys now,
     binds c !! b = Some bf -> 0 <= b_retry bf -> (forall k, keys k <> []) ->
     Scans c ->
     (b_onRetry bf = NotAFunction \/ exists g, b_onRetry bf = UserOnRetry g) ->
     let inv := length (invocations c) in
     let k0 := length (frames c) in
     let a := match b_onRetry bf with UserOnRetry g => g args | _ => args end in
     exists c1, bound c b (args ++ [VFn u]) = Some c1 /\
       let c' := attempts_time_out keys now c1 (seq k0 (S (Z.to_nat (b_retry bf)))) in
       (length (publishes (trace c'))
        = length (publishes (trace c)) + Z.to_nat (b_retry bf) + 1)%nat /\
       (b_retry bf = 2 ->
        length (publishes (trace c')) = (length (publishes (trace c)) + 3)%nat) /\
       length (frames c') = (k0 + Z.to_nat (b_retry bf) + 1)%nat /\
       Own inv (b_name bf) a k0 c' /\
       outer_calls (trace c') = Outer inv u [call_timeout] :: outer_calls (trace c) /\
       trace c' !! 0%nat = Some (Outer inv u [call_timeout])) /\
  (forall b bf inv1 iv1 args u keys now,
     binds c !! b = Some bf -> b_onRetry bf = DefaultOnRetry inv1 ->
     invocations c !! inv1 = Some iv1 -> i_bind iv1 = b ->
     i_retryCounter iv1 <= b_retry bf -> (forall k, keys k <> []) ->
     Scans c ->
     let inv := length (invocations c) in
     let k0 := length (frames c) in
     let rest := Z.to_nat (b_retry bf - i_retryCounter iv1) in
     exists c2, bound c b (args ++ [VFn u]) = Some c2 /\
       (exists iv, invocations c2 !! inv = Some iv /\ i_args iv = args /\ i_callback iv = u) /\
       (exists fr, frames c2 !! k0 = Some fr /\
          f_args fr = i_args iv1 /\ f_callback fr = OnCallback inv1) /\
       let c' := attempts_time_out keys now c2 (seq k0 (S rest)) in
       length (frames c') = (k0 + rest + 1)%nat /\
       (length (publishes (trace c')) = length (publishes (trace c)) + rest + 1)%nat /\
       (i_retryCounter iv1 = b_retry bf ->
        length (publishes (trace c')) = S (length (publishes (trace c)))) /\
       Own inv1 (b_name bf) (i_args iv1) k0 c' /\
       outer_calls (trace c')
         = Outer inv1 (i_callback iv1) [call_timeout] :: outer_calls (trace c) /\
       inv1 <> inv).
Proof.
  split; [|split; [|split]].
  - intros name retry onRetry. unfold bind. fsimpl. rewrite lookup_app_new.
    eexists. split; [reflexivity|]. cbn. repeat split.
    + destruct (Z.ltb_spec 0 retry); lia.
    + destruct (Z.ltb_spec 0 (_timeout c * 1000)); lia.
  - intros inv iv bf arguments Hi Hb. apply onCallback_decision; assumption.
  - intros b bf args u keys now Hb HR Hkeys Hwf Hon inv k0 a.
    destruct (bound_starts c b bf args u Hb Hon Hwf)
      as (c1 & pending & Hc1 & HA & HF & Hpub & Hout & HO).
    exists c1. split; [exact Hc1|].
    assert (Hn : Z.of_nat (Z.to_nat (b_retry bf)) = b_retry bf - 0) by lia.
    destruct (attempts_all_time_out (b_retry bf) inv u (b_name bf) a k0 keys now Hkeys
                (Z.to_nat (b_retry bf)) c1 k0 0 pending HA HF Hn HO)
      as (H1 & H2 & H3 & H4 & H5).
    cbn zeta.
    assert (Hcount : (length (publishes (trace
               (attempts_time_out keys now c1 (seq k0 (S (Z.to_nat (b_retry bf)))))))
             = length (publishes (trace c)) + Z.to_nat (b_retry bf) + 1)%nat)
      by (rewrite H2; lia).
    split; [exact Hcount|]. split; [intros H2'; rewrite Hcount, H2'; cbn; lia|].
    split; [rewrite H1; lia|]. split; [exact H5|]. split; [|exact H4].
    rewrite H3. f_equal. exact Hout.
  - intros b bf inv1 iv1 args u keys now Hb Hon Hi1 Hib Hr Hkeys Hwf inv k0 rest.
    destruct (bound_later c b bf inv1 iv1 args u Hb Hon Hi1 Hib Hwf)
      as (c2 & pending & Hc2 & HA & HF & Hpub & Hout & HO & Hi2).
    exists c2. split; [exact Hc2|].
    split; [eexists; split; [exact Hi2|split; reflexivity]|].
    split.
    { destruct HA as (_ & (fr & d & Hk & Hcb & _ & _ & _ & Ha) & _).
      exists fr. split; [exact Hk|]. split; [exact Ha|exact Hcb]. }
    assert (Hn : Z.of_nat rest = b_retry bf - i_retryCounter iv1) by (unfold rest; lia).
    destruct (attempts_all_time_out (b_retry bf) inv1 (i_callback iv1) (b_name bf) (i_args iv1)
                k0 keys now Hkeys rest c2 k0 (i_retryCounter iv1) pending HA HF Hn HO)
      as (H1 & H2 & H3 & _ & H5).
    cbn zeta.
    assert (Hcount : (length (publishes (trace
               (attempts_time_out keys now c2 (seq k0 (S rest)))))
             = length (publishes (trace c)) + rest + 1)%nat)
      by (rewrite H2; lia).
    split; [rewrite H1; lia|]. split; [exact Hcount|].
    split; [intros Heq; rewrite Hcount; unfold rest; rewrite Heq, Z.sub_diag; cbn; lia|].
    split; [exact H5|].
    split; [rewrite H3; f_equal; exact Hout|].
    apply lookup_lt_Some in Hi1. unfold inv. lia.
Qed.

(** ** The default [onRetry] is stored once per bound caller *)

(** C4 fails on the code.  [onRetry] is a variable of [bind], not of the
    bound caller's invocation: the first invocation without a supplied
    [onRetry] stores its own default closure there, and every later
    invocation of the same bound caller finds a function and runs that
    closure.  So the second invocation calls the service with the
    arguments of the first and completes into the [onCallback] of the
    first, whatever its own arguments and callback are. *)
Theorem second_invocation_reuses_first c b bf a1 u1 a2 u2 :
  binds c !! b = Some bf -> b_onRetry bf = NotAFunction ->
  let inv1 := length (invocations c) in
  let k1 := length (frames c) in
  exists c1 c2 fr1 fr2,
    bound c b (a1 ++ [VFn u1]) = Some c1 /\
    bound c1 b (a2 ++ [VFn u2]) = Some c2 /\
    frames c2 = (frames c ++ [fr1; fr2])%list /\
    f_args fr1 = a1 /\ f_callback fr1 = OnCallback inv1 /\
    f_args fr2 = a1 /\ f_callback fr2 = OnCallback inv1 /\
    (exists iv2, invocations c2 !! S inv1 = Some iv2 /\
       i_args iv2 = a2 /\ i_callback iv2 = u2).
Proof.
  intros Hb Hnf inv1 k1.
  set (bf' := set_onRetry (DefaultOnRetry inv1) bf).
  set (iv1 := {| i_bind := b; i_args := a1; i_callback := u1; i_retryCounter := 0 |}).
  set (iv2 := {| i_bind := b; i_args := a2; i_callback := u2; i_retryCounter := 0 |}).
  set (c1' := with_invocations (invocations c ++ [iv1])
                (with_binds (alter (set_onRetry (DefaultOnRetry inv1)) b (binds c)) c)).
  assert (H1 : bound c b (a1 ++ [VFn u1]) = Some (start cb c1' inv1)).
  { unfold bound. rewrite Hb, last_last, removelast_last, Hnf. reflexivity. }
  assert (Hi1 : invocations c1' !! inv1 = Some iv1) by (unfold c1'; fsimpl; apply lookup_app_new).
  assert (Hb1 : binds c1' !! b = Some bf').
  { unfold c1'. fsimpl. rewrite list_lookup_alter_eq, Hb. reflexivity. }
  rewrite (start_dispatches c1' inv1 iv1 bf' Hi1 Hb1 (or_introl eq_refl)) in H1.
  set (c1 := call cb c1' (b_name bf') (retry_args bf' iv1) (OnCallback inv1)) in H1.
  destruct (call_shape c1' (b_name bf') (retry_args bf' iv1) (OnCallback inv1))
    as (fr1 & e1 & Hfr1 & _ & Ha1 & Hc1 & _ & _ & Hbs1 & His1 & _).
  fold c1 in Hfr1, Hbs1, His1.
  set (c2' := with_invocations (invocations c1 ++ [iv2]) c1).
  assert (Hlen1 : length (invocations c1) = S inv1).
  { rewrite His1. unfold c1'. fsimpl. rewrite length_app. cbn. unfold inv1. lia. }
  assert (H2 : bound c1 b (a2 ++ [VFn u2]) = Some (start cb c2' (S inv1))).
  { unfold bound. rewrite Hbs1, Hb1, last_last, removelast_last. cbn [b_onRetry bf' set_onRetry].
    rewrite Hlen1. reflexivity. }
  assert (Hi2 : invocations c2' !! S inv1 = Some iv2).
  { unfold c2'. fsimpl. rewrite <- Hlen1. apply lookup_app_new. }
  assert (Hi21 : invocations c2' !! inv1 = Some iv1).
  { unfold c2'. fsimpl. rewrite lookup_app_l by (rewrite Hlen1; lia).
    rewrite His1. exact Hi1. }
  assert (Hb2 : binds c2' !! b = Some bf') by (unfold c2'; fsimpl; rewrite Hbs1; exact Hb1).
  assert (Hs2 : start cb c2' (S inv1) =
                call cb c2' (b_name bf') a1 (OnCallback inv1)).
  { unfold start. rewrite Hi2. cbn [i_bind iv2]. rewrite Hb2.
    cbn [b_onRetry bf' set_onRetry]. unfold default_onRetry. rewrite Hi21.
    unfold bound_call. rewrite Hi21. cbn [i_bind iv1]. rewrite Hb2. reflexivity. }
  rewrite Hs2 in H2.
  destruct (call_shape c2' (b_name bf') a1 (OnCallback inv1))
    as (fr2 & e2 & Hfr2 & _ & Ha2 & Hc2 & _ & _ & _ & His2 & _).
  exists c1, (call cb c2' (b_name bf') a1 (OnCallback inv1)), fr1, fr2.
  split; [exact H1|]. split; [exact H2|]. split.
  - rewrite Hfr2. change (frames c2') with (frames c1). rewrite Hfr1.
    change (frames c1') with (frames c). rewrite <- app_assoc. reflexivity.
  - repeat split; auto. exists iv2. rewrite His2. auto.
Qed.

(** ** Registration keys and the server ids read back from them *)

Lemma split_not_nil sep s : split sep s <> [].
Proof.
  destruct s as [|a s]; cbn [split]; [discriminate|].
  destruct (Ascii.eqb a sep); [discriminate|].
  destruct (split sep s); discriminate.
Qed.

Lemma last_cons_not_nil {A} (x d : A) (l : list A) :
  l <> [] -> List.last (x :: l) d = List.last l d.
Proof. destruct l; [contradiction|reflexivity]. Qed.

Lemma append_nil_l (s : string) : (EmptyString ++ s)%string = s.
Proof. reflexivity. Qed.

Lemma append_cons a (s t : string) : (String a s ++ t)%string = String a (s ++ t).
Proof. reflexivity. Qed.

Lemma split_no_colon s : no_colon s = true -> split ":"%char s = [s].
Proof.
  induction s as [|a s IH]; [reflexivity|].
  cbn [no_colon split]. intros H. apply andb_true_iff in H as [Ha Hs].
  apply negb_true_iff in Ha. rewrite Ha, (IH Hs). reflexivity.
Qed.

Lemma split_colon_length a b :
  (2 <= length (split ":"%char (a ++ String ":"%char b)))%nat.
Proof.
  induction a as [|x a IH]; rewrite ?append_nil_l, ?append_cons; cbn [split].
  - rewrite Ascii.eqb_refl. cbn [length].
    pose proof (split_not_nil ":"%char b). destruct (split ":"%char b); [contradiction|cbn; lia].
  - destruct (Ascii.eqb x ":"%char); [cbn [length]; lia|].
    destruct (split ":"%char (a ++ String ":"%char b)); cbn [length] in *; lia.
Qed.

Lemma last_segment_app a b : last_segment (a ++ String ":"%char b) = last_segment b.
Proof.
  unfold last_segment. induction a as [|x a IH]; rewrite ?append_nil_l, ?append_cons; cbn [split].
  - rewrite Ascii.eqb_refl. apply last_cons_not_nil, split_not_nil.
  - destruct (Ascii.eqb x ":"%char).
    + rewrite last_cons_not_nil by apply split_not_nil. exact IH.
    + pose proof (split_colon_length a b) as Hlen.
      destruct (split ":"%char (a ++ String ":"%char b)) as [|seg rest]; [cbn in Hlen; lia|].
      destruct rest as [|seg' rest]; [cbn in Hlen; lia|].
      rewrite <- IH. reflexivity.
Qed.

Lemma last_segment_no_colon s : no_colon s = true -> last_segment s = s.
Proof. intros H. unfold last_segment. rewrite (split_no_colon s H). reflexivity. Qed.

Lemma no_colon_last_segment s : no_colon (last_segment s) = true.
Proof.
  unfold last_segment. induction s as [|a s IH]; [reflexivity|]. cbn [split].
  destruct (Ascii.eqb a ":"%char) eqn:Ea.
  - rewrite last_cons_not_nil by apply split_not_nil. exact IH.
  - pose proof (split_not_nil ":"%char s) as Hn.
    destruct (split ":"%char s) as [|seg rest]; [contradiction|].
    destruct rest as [|seg' rest].
    + cbn [List.last] in *. cbn [no_colon]. rewrite Ea, IH. reflexivity.
    + exact IH.
Qed.

Lemma last_segment_key c name (sid : string) :
  last_segment (_key c [Some "S"; Some name; Some sid]) = last_segment sid.
Proof.
  unfold _key. destruct (negb _).
  - change (join ":" [Some (_prefix c); Some "S"; Some name; Some sid])
      with (_prefix c ++ String ":"%char ("S" ++ String ":"%char (name ++ String ":"%char sid))).
    rewrite !last_segment_app. reflexivity.
  - change (join ":" [Some "S"; Some name; Some sid])
      with ("S" ++ String ":"%char (name ++ String ":"%char sid)).
    rewrite !last_segment_app. reflexivity.
Qed.

(** X1: the server id that discovery reads from a registration key, its
    last colon-separated segment, is the id the key was built with,
    whatever the prefix and the service name, as long as the id has no
    colon; an id with a colon is cut down to what follows its last colon,
    and no id read back ever has a colon.  So the key that [evicted]
    deletes for a server is the one discovery found it under. *)
Theorem registration_key_round_trip c name sid :
  last_segment (_key c [Some "S"; Some name; Some sid]) = last_segment sid /\
  no_colon (last_segment sid) = true /\
  (no_colon sid = true ->
     last_segment (_key c [Some "S"; Some name; Some sid]) = sid /\
     map last_segment [_key c [Some "S"; Some name; Some sid]] = [sid]).
Proof.
  split; [apply last_segment_key|]. split; [apply no_colon_last_segment|].
  intros H. cbn [map]. rewrite last_segment_key, (last_segment_no_colon sid H). auto.
Qed.

(** ** Discovery that finds servers *)

(** X2: when the KEYS scan of a call comes back without error and with at
    least one key, the ids read from the keys are stored under the service
    name, with the current timestamp for every service name other than
    __proto__; under that name the assignment of the timestamp is ignored
    and the timestamps stay as they were.  The server at the drawn index
    becomes the target of the call, the handler of the call is stored under
    its correlation id, and the call envelope is published on the listen
    key of that server; no callback is applied.  A drawn index inside the
    list yields one of the stored ids. *)
Theorem discovery_dispatches c i name k fr err list now :
  keysPending c !! i = Some (name, k) -> frames c !! k = Some fr ->
  truthy err = false -> map last_segment (default [] list) <> [] ->
  let l := map last_segment (default [] list) in
  let sid := l !! random_index (draws c) (length l) in
  let c' := keys_replied c i err list now in
  _servers c' !! name = Some l /\
  (name <> "__proto__" -> _serversTimestamp c' !! name = Some now) /\
  (name = "__proto__" -> _serversTimestamp c' = _serversTimestamp c) /\
  keysPending c' = delete i (keysPending c) /\
  frames c' = alter (set_serverId sid) k (frames c) /\
  _messages c' = <[m_id (f_msg fr) := k]> (_messages c) /\
  trace c' = Publish (_key c [Some "L"; sid]) (m_data (f_msg fr)) DebugFn :: trace c /\
  ((random_index (draws c) (length l) < length l)%nat ->
     exists s, sid = Some s /\ s ∈ l).
Proof.
  intros Hi Hk He Hne l sid c'. subst c'. unfold keys_replied. rewrite Hi.
  rewrite (keysReply_found cb (with_keysPending (delete i (keysPending c)) c)
             name k err list now fr Hk He Hne). fold l. fsimpl. fold sid.
  unfold _sendCallRequest, _saveServerList. fsimpl.
  rewrite lookup_insert_eq. unfold set_number.
  split; [reflexivity|]. split.
  { intros Hn. destruct (String.eqb_spec name "__proto__"); [contradiction|].
    apply lookup_insert_eq. }
  split; [intros ->; reflexivity|].
  do 4 (split; [reflexivity|]).
  intros Hlt. destruct (lookup_lt_is_Some_2 l _ Hlt) as [s Hs].
  exists s. split; [exact Hs|]. eapply list_elem_of_lookup_2. exact Hs.
Qed.

(** X3: a call for a service whose cached list is not empty sends no scan:
    before [call] returns it has drawn a server from the cached list,
    stored its handler under the correlation id, published the envelope on
    the listen key of that server and armed its timer.  The cached list and
    its timestamp stay as they are: using an entry does not refresh it. *)
Theorem call_uses_cached_servers c name args callback s l :
  _servers c !! name = Some (s :: l) ->
  let k := length (frames c) in
  let msg := pocketCallMessage k (_id c) name args in
  let sid := (s :: l) !! random_index (draws c) (length (s :: l)) in
  let c' := call cb c name args callback in
  trace c' = Publish (_key c [Some "L"; sid]) (m_data msg) DebugFn :: trace c /\
  keysPending c' = keysPending c /\
  _messages c' = <[m_id msg := k]> (_messages c) /\
  frames c' = (frames c ++
     [{| f_name := name; f_args := args; f_callback := callback; f_msg := msg;
         f_serverId := sid; f_hasCallback := false;
         f_tid := Some (_timeout c * 1000) |}])%list /\
  _servers c' = _servers c /\ _serversTimestamp c' = _serversTimestamp c /\
  ((random_index (draws c) (length (s :: l)) < length (s :: l))%nat ->
     exists s', sid = Some s' /\ s' ∈ s :: l).
Proof.
  intros Hs k msg sid c'. subst c'. unfold call. rewrite findOneServer_cases. fsimpl.
  rewrite Hs. erewrite found_ok by (fsimpl; apply lookup_app_new).
  unfold _sendCallRequest. fsimpl. rewrite !alter_app_new.
  repeat split.
  intros Hlt. destruct (lookup_lt_is_Some_2 (s :: l) _ Hlt) as [s' Hs'].
  exists s'. split; [exact Hs'|]. eapply list_elem_of_lookup_2. exact Hs'.
Qed.

(** X4: a call for a service with no cached list, or an empty one, sends
    exactly one KEYS scan for prefix:S:name:* and waits: nothing is
    published, no handler is stored, the target is still undefined, and the
    timer is armed.  For a name that was not cached, an empty list is put
    in the cache without any timestamp. *)
Theorem call_scans_on_cache_miss c name args callback :
  (_servers c !! name = None \/ _servers c !! name = Some []) ->
  let k := length (frames c) in
  let msg := pocketCallMessage k (_id c) name args in
  let c' := call cb c name args callback in
  trace c' = Keys (_key c [Some "S"; Some name; Some "*"]) :: trace c /\
  keysPending c' = (keysPending c ++ [(name, k)])%list /\
  _messages c' = _messages c /\
  frames c' = (frames c ++
     [{| f_name := name; f_args := args; f_callback := callback; f_msg := msg;
         f_serverId := None; f_hasCallback := false;
         f_tid := Some (_timeout c * 1000) |}])%list /\
  _servers c' !! name = Some [] /\
  _serversTimestamp c' = _serversTimestamp c.
Proof.
  intros Hs k msg c'. subst c'. unfold call. rewrite findOneServer_cases. fsimpl.
  destruct Hs as [Hs|Hs]; rewrite Hs; fsimpl; rewrite !alter_app_new; repeat split; auto.
  apply lookup_insert_eq.
Qed.

(** X5: when the KEYS scan of a call fails, the error of the connection is
    handed to the callback as it is (the call's latch being open and the
    error not carrying the timeout code), the latch is set and the timer
    cancelled; nothing is published, no handler is stored, and the cache
    and its timestamps are left as [_findOneServer] left them. *)
Theorem scan_error_reaches_callback c i name k fr err list now :
  keysPending c !! i = Some (name, k) -> frames c !! k = Some fr ->
  f_hasCallback fr = false -> truthy err = true ->
  code_of err <> Some CLOUDS_CALL_SERVICE_TIMEOUT ->
  let c' := keys_replied c i err list now in
  (trace c' = Apply k (f_callback fr) [err] :: trace c \/
   exists inv u, trace c' = Outer inv u [err] :: Apply k (f_callback fr) [err] :: trace c) /\
  publishes (trace c') = publishes (trace c) /\
  _servers c' = _servers c /\ _serversTimestamp c' = _serversTimestamp c /\
  _messages c' = _messages c /\
  exists fr', frames c' !! k = Some fr' /\ f_hasCallback fr' = true /\ f_tid fr' = None.
Proof.
  intros Hi Hk Hl He Hcode c'. subst c'. unfold keys_replied. rewrite Hi.
  unfold keysReply. rewrite He. rewrite found_err by exact He.
  set (c1 := with_keysPending _ c).
  destruct (cb_quiet c1 k [err] fr Hk Hl Hcode) as (Hfr & Htr & Hs & Ht & Hm & _).
  change (trace c1) with (trace c) in Htr.
  split; [exact Htr|]. split; [destruct Htr as [-> | (inv & u & ->)]; reflexivity|].
  split; [exact Hs|]. split; [exact Ht|]. split; [exact Hm|].
  rewrite Hfr. unfold trip. fsimpl. change (frames c1) with (frames c).
  rewrite !list_lookup_alter_eq, Hk. eexists. repeat split.
Qed.

(** ** Timestamps of the cache *)

Lemma TsDom_Ext c c' : TsDom c -> Ext c c' -> TsDom c'.
Proof.
  intros HT (_ & _ & _ & _ & _ & Hsrv & Hts & _) n ts Hn. rewrite Hts in Hn.
  destruct (Hsrv n) as [->|[_ ->]]; [eapply HT; exact Hn|eauto].
Qed.

Lemma TsDom_cb c k args : TsDom c -> TsDom (cb c k args).
Proof.
  intros HT. pose proof (cb_cases c k args) as H.
  destruct (frames c !! k) as [fr|]; [|rewrite H; exact HT].
  destruct (f_hasCallback fr); [rewrite H; exact HT|].
  eapply TsDom_Ext; [|exact H]. exact HT.
Qed.

Lemma TsDom_found c k err ret : TsDom c -> TsDom (found cb c k err ret).
Proof.
  intros HT. unfold found. destruct (truthy err); [apply TsDom_cb; exact HT|].
  destruct (frames c !! k); exact HT.
Qed.

Lemma TsDom_returnOneServer c name k : TsDom c -> TsDom (returnOneServer cb c name k).
Proof.
  intros HT. unfold returnOneServer. destruct (_servers c !! name); [|exact HT].
  destruct (_ <? _)%nat; apply TsDom_found; exact HT.
Qed.

Lemma TsDom_saveServerList c name list now : TsDom c -> TsDom (_saveServerList c name list now).
Proof.
  intros HT n ts. unfold _saveServerList, set_number. fsimpl.
  destruct (decide (n = name)) as [->|Hne].
  - rewrite lookup_insert_eq. intros _. eauto.
  - rewrite lookup_insert_ne by congruence.
    destruct (String.eqb name "__proto__"); [apply HT|].
    rewrite lookup_insert_ne by congruence. apply HT.
Qed.

Lemma TsDom_removeServer c serverId name : TsDom c -> TsDom (evicted c serverId name).
Proof.
  intros HT. unfold evicted.
  set (c1 := match _servers c !! name with Some _ => _ | None => _ end).
  assert (H1 : TsDom c1).
  { subst c1. destruct (_servers c !! name) as [l|] eqn:E; [|exact HT].
    destruct (_ <? _)%nat; [|exact HT]. intros n ts Hn. fsimpl.
    destruct (decide (n = name)) as [->|Hne].
    - rewrite lookup_insert_eq. eauto.
    - rewrite lookup_insert_ne by congruence. eapply HT. exact Hn. }
  destruct (negb _); exact H1.
Qed.

Lemma TsDom_clearServerList c now : TsDom c -> TsDom (clearServerList c now).
Proof.
  intros HT n ts Hn. destruct (clearServerList_lookup c now n) as [Hs Ht].
  rewrite Ht in Hn. rewrite Hs.
  destruct (expired _ c n).
  - rewrite andb_true_r in Hn. destruct (bool_decide_reflect (is_Some (_servers c !! n))) as [_|Hno];
      [discriminate|]. exfalso. apply Hno. eapply HT. exact Hn.
  - rewrite andb_false_r in Hn. eapply HT. exact Hn.
Qed.

Lemma TsDom_step c ev : TsDom c -> TsDom (step c ev).
Proof.
  intros HT. destruct ev as [name args u|name retry onRetry|b arguments|callback
                           |i err list now|k|i|channel msg|now]; cbn [step].
  - eapply TsDom_Ext; [exact HT|apply call_Ext].
  - exact HT.
  - unfold bound. destruct (binds c !! b) as [bf|]; [|exact HT].
    destruct (List.last arguments VUndefined); try exact HT.
    cbn [default]. eapply TsDom_Ext; [|apply start_Ext].
    destruct (b_onRetry bf); exact HT.
  - exact HT.
  - unfold keys_replied. destruct (keysPending c !! i) as [[name k]|]; [|exact HT].
    unfold keysReply. destruct (truthy err).
    + apply TsDom_found. exact HT.
    + apply TsDom_returnOneServer.
      exact (TsDom_saveServerList (with_keysPending _ c) name _ now HT).
  - destruct (timeout_expires_cases c k) as [->|(fr & d & _ & _ & [(_ & _ & ->)|(_ & _ & ->)])];
      [exact HT|exact HT|].
    apply TsDom_cb.
    exact (TsDom_removeServer (_removeMessageHandler (update_frame k (set_tid None) c) _) _ _ HT).
  - unfold retry_timer_expires. destruct (retryTimers c !! i) as [[inv d]|]; [|exact HT].
    eapply TsDom_Ext; [|apply tryAgain_Ext]. exact HT.
  - rewrite on_message_cases; cbv zeta. destruct (negb _); [exact HT|].
    destruct (String.eqb _ _); [|exact HT].
    destruct (_messages c !! _); [|exact HT].
    apply TsDom_cb. exact HT.
  - unfold sweep_tick. destruct (_clearServerListTid c); [|exact HT].
    apply TsDom_clearServerList. exact HT.
Qed.

Lemma TsDom_run c evs : TsDom c -> TsDom (run c evs).
Proof.
  unfold run. revert c. induction evs as [|ev evs IH]; intros c HT; [exact HT|].
  cbn [foldl]. apply IH. apply TsDom_step. exact HT.
Qed.

(** X6: in every execution of the client, every timestamp of the cache
    belongs to a name that has a cached list; so a tick of the sweep, which
    walks the names that have a list, removes a list exactly when the
    timestamp of its name has expired, and the timestamp with it. *)
Theorem timestamps_belong_to_lists options id evs :
  let c := run (CloudsClient options id) evs in
  (forall n ts, _serversTimestamp c !! n = Some ts -> is_Some (_servers c !! n)) /\
  (forall now n,
     let t := now - _serverMaxAge c * 1000 in
     _servers (clearServerList c now) !! n
       = (if expired t c n then None else _servers c !! n) /\
     _serversTimestamp (clearServerList c now) !! n
       = (if expired t c n then None else _serversTimestamp c !! n)).
Proof.
  intros c.
  assert (HT : TsDom c).
  { apply TsDom_run. intros n ts H. cbn in H. rewrite lookup_empty in H. discriminate. }
  split; [exact HT|].
  intros now n t. destruct (clearServerList_lookup c now n) as [Hs Ht]. fold t in Hs, Ht.
  split; [exact Hs|]. rewrite Ht.
  destruct (expired t c n) eqn:E; [|rewrite andb_false_r; reflexivity].
  rewrite andb_true_r. unfold expired in E.
  destruct (_serversTimestamp c !! n) as [ts|] eqn:En; [|discriminate].
  rewrite bool_decide_eq_true_2 by (eapply HT; exact En). reflexivity.
Qed.

(** X7: the sweep never removes a cached list that has no timestamp,
    however many ticks pass and whenever they come.  Such an entry is what
    [_findOneServer] leaves for a name it had not cached when the scan it
    sent fails or is never answered: the empty list stays in the cache
    until a later scan for that name succeeds. *)
Theorem sweep_keeps_unstamped_entries c name ticks :
  _serversTimestamp c !! name = None ->
  _servers (sweeps c ticks) !! name = _servers c !! name /\
  _serversTimestamp (sweeps c ticks) !! name = None.
Proof.
  unfold sweeps. revert c. induction ticks as [|t ticks IH]; intros c H; [auto|].
  cbn [foldl]. destruct (clearServerList_lookup c t name) as [Hs Ht].
  assert (He : expired (t - _serverMaxAge c * 1000) c name = false)
    by (unfold expired; rewrite H; reflexivity).
  rewrite He in Hs, Ht. rewrite andb_false_r in Ht. rewrite H in Ht.
  destruct (IH (clearServerList c t) Ht) as [-> ->]. auto.
Qed.

(** ** Handlers and the calls they belong to *)

Lemma MsgInv_update_frame c k g :
  (forall fr, f_msg (g fr) = f_msg fr) -> MsgInv c -> MsgInv (update_frame k g c).
Proof.
  intros Hg HM id j Hj. destruct (HM id j Hj) as (fr & Hfr & Hid). fsimpl.
  destruct (decide (k = j)) as [->|Hne].
  - exists (g fr). rewrite list_lookup_alter_eq, Hfr. split; [reflexivity|].
    rewrite Hg. exact Hid.
  - exists fr. rewrite list_lookup_alter_ne by exact Hne. auto.
Qed.

Lemma MsgInv_call f c name args callback :
  MsgInv c -> MsgInv (call f c name args callback).
Proof.
  intros HM. unfold call. rewrite findOneServer_cases. fsimpl.
  assert (Hold : forall id j x, _messages c !! id = Some j ->
            exists fr, (frames c ++ [x])%list !! j = Some fr /\ m_id (f_msg fr) = id).
  { intros id j x Hj. destruct (HM id j Hj) as (fr & Hfr & Hid).
    exists fr. split; [|exact Hid]. rewrite lookup_app_l; [exact Hfr|].
    eapply lookup_lt_Some. exact Hfr. }
  destruct (_servers c !! name) as [[|s l]|] eqn:E.
  - intros id j Hj. fsimpl. rewrite !alter_app_new. apply Hold. exact Hj.
  - erewrite found_ok by (fsimpl; apply lookup_app_new).
    unfold _sendCallRequest. intros id j Hj. fsimpl. fsimpl in Hj.
    rewrite !alter_app_new.
    destruct (decide (id = m_id (pocketCallMessage (length (frames c)) (_id c) name args)))
      as [->|Hne].
    + rewrite lookup_insert_eq in Hj. inversion Hj; subst j.
      rewrite lookup_app_new. eexists. split; reflexivity.
    + rewrite lookup_insert_ne in Hj by congruence. apply Hold. exact Hj.
  - intros id j Hj. fsimpl. rewrite !alter_app_new. apply Hold. exact Hj.
Qed.

Lemma MsgInv_start f c inv : MsgInv c -> MsgInv (start f c inv).
Proof.
  intros HM. unfold start, default_onRetry, bound_call.
  destruct (invocations c !! inv); [|exact HM].
  destruct (binds c !! _) as [b|]; [|exact HM].
  destruct (b_onRetry b) as [|h|j]; [exact HM|apply MsgInv_call; exact HM|].
  destruct (invocations c !! j) as [ivj|]; [|exact HM].
  destruct (binds c !! i_bind ivj); [apply MsgInv_call; exact HM|exact HM].
Qed.

Lemma MsgInv_onCallback f c inv args : MsgInv c -> MsgInv (onCallback f c inv args).
Proof.
  intros HM. unfold onCallback, tryAgain.
  destruct (invocations c !! inv) as [iv|]; [|exact HM].
  destruct (binds c !! _) as [b|]; [|exact HM].
  destruct (_ && _); [|exact HM].
  destruct (decide _); [exact (MsgInv_start f (with_invocations _ c) inv HM)|].
  destruct (decide _); exact HM.
Qed.

Lemma MsgInv_cb c k args : MsgInv c -> MsgInv (cb c k args).
Proof.
  intros HM. rewrite cb_unfold. unfold cb_body.
  destruct (frames c !! k) as [fr|]; [|exact HM].
  destruct (f_hasCallback fr); [exact HM|].
  assert (H1 : MsgInv (update_frame k (set_tid None) (update_frame k (set_hasCallback true) c))).
  { apply MsgInv_update_frame; [reflexivity|].
    apply MsgInv_update_frame; [reflexivity|exact HM]. }
  unfold apply_callback.
  destruct (f_callback fr); [exact H1|exact H1|].
  apply MsgInv_onCallback. exact H1.
Qed.

Lemma MsgInv_found c k err ret : MsgInv c -> MsgInv (found cb c k err ret).
Proof.
  intros HM. unfold found. destruct (truthy err); [apply MsgInv_cb; exact HM|].
  destruct (frames c !! k) as [fr|] eqn:Hk; [|exact HM].
  unfold _sendCallRequest. intros id j Hj. fsimpl. fsimpl in Hj.
  destruct (decide (id = m_id (f_msg fr))) as [->|Hne].
  - rewrite lookup_insert_eq in Hj. inversion Hj; subst j.
    rewrite list_lookup_alter_eq, Hk. eexists. split; reflexivity.
  - rewrite lookup_insert_ne in Hj by congruence.
    exact (MsgInv_update_frame c k (set_serverId ret) (fun _ => eq_refl) HM id j Hj).
Qed.

Lemma MsgInv_returnOneServer c name k : MsgInv c -> MsgInv (returnOneServer cb c name k).
Proof.
  intros HM. unfold returnOneServer. destruct (_servers c !! name); [|exact HM].
  destruct (_ <? _)%nat; apply MsgInv_found; exact HM.
Qed.

Lemma MsgInv_delete c id : MsgInv c -> MsgInv (_removeMessageHandler c id).
Proof.
  intros HM id' j Hj. unfold _removeMessageHandler in Hj. fsimpl in Hj.
  apply lookup_delete_Some in Hj as [_ Hj]. exact (HM id' j Hj).
Qed.

Lemma MsgInv_removeServer c serverId name : MsgInv c -> MsgInv (evicted c serverId name).
Proof.
  intros HM id j Hj. rewrite removeServer_messages in Hj. rewrite removeServer_frames.
  exact (HM id j Hj).
Qed.

Lemma clearServerList_messages c now : _messages (clearServerList c now) = _messages c.
Proof.
  unfold clearServerList.
  generalize (fst <$> map_to_list (_servers c)) as names.
  generalize (now - _serverMaxAge c * 1000) as t. intros t names.
  revert c. induction names as [|n names IH]; intros c; [reflexivity|].
  cbn [foldl]. rewrite IH. unfold clear_one.
  destruct (_serversTimestamp c !! n) as [ts|]; [|reflexivity].
  destruct (ts <=? t); reflexivity.
Qed.

Lemma MsgInv_step c ev : MsgInv c -> MsgInv (step c ev).
Proof.
  intros HM. destruct ev as [name args u|name retry onRetry|b arguments|callback
                           |i err list now|k|i|channel msg|now]; cbn [step].
  - apply MsgInv_call. exact HM.
  - exact HM.
  - unfold bound. destruct (binds c !! b) as [bf|]; [|exact HM].
    destruct (List.last arguments VUndefined); try exact HM.
    cbn [default]. apply MsgInv_start. destruct (b_onRetry bf); exact HM.
  - exact HM.
  - unfold keys_replied. destruct (keysPending c !! i) as [[name k]|]; [|exact HM].
    unfold keysReply. destruct (truthy err).
    + apply MsgInv_found. exact HM.
    + apply MsgInv_returnOneServer. exact HM.
  - assert (H1 : MsgInv (update_frame k (set_tid None) c))
      by (apply MsgInv_update_frame; [reflexivity|exact HM]).
    destruct (timeout_expires_cases c k) as [->|(fr & d & _ & _ & [(_ & _ & ->)|(_ & _ & ->)])];
      [exact HM|apply MsgInv_delete; exact H1|].
    apply MsgInv_cb, MsgInv_removeServer, MsgInv_delete. exact H1.
  - unfold retry_timer_expires. destruct (retryTimers c !! i) as [[inv d]|]; [|exact HM].
    unfold tryAgain. apply MsgInv_start. exact HM.
  - rewrite on_message_cases; cbv zeta. destruct (negb _); [exact HM|].
    destruct (String.eqb _ _); [|exact HM].
    destruct (_messages c !! _); [|exact HM].
    apply MsgInv_cb, MsgInv_delete. exact HM.
  - unfold sweep_tick. destruct (_clearServerListTid c); [|exact HM].
    intros id j Hj. rewrite clearServerList_messages in Hj.
    destruct (clearServerList_frames_trace c now) as [-> _]. exact (HM id j Hj).
Qed.

Lemma MsgInv_run c evs : MsgInv c -> MsgInv (run c evs).
Proof.
  unfold run. revert c. induction evs as [|ev evs IH]; intros c HM; [exact HM|].
  cbn [foldl]. apply IH. apply MsgInv_step. exact HM.
Qed.

(** X8: in every execution of the client, a handler stored in the table
    under an id is the [cb] of an existing call frame whose correlation id
    is that id.  So what the listener reads under the id of an envelope is
    the [cb] of the call whose message carries that id; or, for an id
    without handler, a function of Object.prototype of that name or no
    function at all, and then no call is reached: the listener leaves the
    client as it is, whether it returns or throws. *)
Theorem handlers_match_their_calls options id evs :
  let c := run (CloudsClient options id) evs in
  (forall idm k, _messages c !! idm = Some k ->
     exists fr, frames c !! k = Some fr /\ m_id (f_msg fr) = idm) /\
  (_messages c !! "__proto__" = None ->
   forall idm,
     match read_messages c idm with
     | HCb k => exists fr, frames c !! k = Some fr /\ m_id (f_msg fr) = idm
     | HInherited name =>
         name = idm /\ _messages c !! idm = None /\
         is_Some (function_of object_prototype idm)
     | HNoFunction =>
         _messages c !! idm = None /\ function_of object_prototype idm = None
     end) /\
  (forall channel payload,
     _messages c !! e_id (parseMessage payload) = None ->
     state_of (listener c channel payload) = c).
Proof.
  intros c.
  assert (HM : MsgInv c).
  { apply MsgInv_run. intros idm k H. cbn in H. rewrite lookup_empty in H. discriminate. }
  split; [exact HM|]. split.
  - intros _ idm. unfold read_messages, inherited_handler.
    destruct (_messages c !! idm) as [k|] eqn:E; [exact (HM idm k E)|].
    destruct (function_of object_prototype idm) as [len|]; [|split; reflexivity].
    split; [reflexivity|]. split; [reflexivity|]. eauto.
  - intros channel payload Hnone. fold (on_message c channel payload).
    rewrite on_message_cases. cbv zeta. destruct (negb _); [reflexivity|].
    destruct (String.eqb _ _); [|reflexivity]. rewrite Hnone. reflexivity.
Qed.

(** ** Results and timers that come after the call has completed *)

Lemma cb_user c k args fr u :
  frames c !! k = Some fr -> f_hasCallback fr = false -> f_callback fr = UserFn u ->
  cb c k args = trip k (UserFn u) args c.
Proof.
  intros Hk Hl Hu. rewrite cb_unfold. unfold cb_body. rewrite Hk, Hl, Hu. reflexivity.
Qed.

Lemma timeout_expires_user c k fr d u :
  frames c !! k = Some fr -> f_tid fr = Some d -> f_hasCallback fr = false ->
  f_callback fr = UserFn u -> removeServer_throws c (f_name fr) = false ->
  timeout_expires c k =
    trip k (UserFn u) [call_timeout]
      (evicted
         (_removeMessageHandler (update_frame k (set_tid None) c) (m_id (f_msg fr)))
         (f_serverId fr) (f_name fr)).
Proof.
  intros Hk Htid Hl Hu Hno. rewrite (proj2 (timeout_expires_returns c k fr d Hk Htid Hno)).
  apply (cb_user _ k _ (set_tid None fr)); [|exact Hl|exact Hu].
  rewrite removeServer_frames. unfold _removeMessageHandler. fsimpl.
  rewrite list_lookup_alter_eq, Hk. reflexivity.
Qed.

(** X9: once a result envelope has been routed to a call, the timer of that
    call is dead: the frame has its latch set and no pending timer, and a
    later expiry event for it leaves the whole client as it is, so the
    server that answered is not evicted and no registration key is
    deleted. *)
Theorem answered_call_is_not_timed_out options id evs channel payload k :
  let c := run (CloudsClient options id) evs in
  let msg := parseMessage payload in
  channel = _key c [Some "L"; Some (_id c)] -> e_type msg = "result" ->
  _messages c !! e_id msg = Some k ->
  let c' := on_message c channel payload in
  (exists fr', frames c' !! k = Some fr' /\ f_hasCallback fr' = true /\ f_tid fr' = None) /\
  timeout_expires c' k = c'.
Proof.
  intros c msg Hch Hty Hk c'.
  assert (HI : Inv c) by (apply Inv_run, Inv_init).
  assert (HM : MsgInv c).
  { apply MsgInv_run. intros idm j H. cbn in H. rewrite lookup_empty in H. discriminate. }
  destruct (HM _ _ Hk) as (fr & Hfr & _).
  assert (Hc' : c' = cb (_removeMessageHandler c (e_id msg)) k
                       ([js_or (e_error msg) VNull] ++ e_args msg)).
  { subst c'. rewrite on_message_cases; cbv zeta. fold msg. rewrite Hch, String.eqb_refl. cbn [negb].
    unfold _handleMessage. rewrite Hty. cbn [String.eqb Ascii.eqb Bool.eqb].
    unfold _handleCallResult. rewrite Hk. reflexivity. }
  clearbody c'. subst c'.
  set (c1 := _removeMessageHandler c (e_id msg)).
  set (args := ([js_or (e_error msg) VNull] ++ e_args msg)%list).
  assert (Hfr' : exists fr', frames (cb c1 k args) !! k = Some fr' /\
                   f_hasCallback fr' = true /\ f_tid fr' = None).
  { pose proof (cb_cases c1 k args) as Hcases.
    change (frames c1) with (frames c) in Hcases. rewrite Hfr in Hcases.
    destruct (f_hasCallback fr) eqn:Hl.
    - rewrite Hcases. exists fr. change (frames c1) with (frames c).
      destruct HI as (_ & _ & Ic). split; [exact Hfr|]. split; [exact Hl|].
      eapply Ic; eauto.
    - destruct Hcases as ((news & Hf & _) & _). rewrite Hf.
      unfold trip. fsimpl. change (frames c1) with (frames c).
      rewrite lookup_app_l by (rewrite !length_alter; eapply lookup_lt_Some; exact Hfr).
      rewrite !list_lookup_alter_eq, Hfr. eexists. repeat split. }
  split; [exact Hfr'|].
  destruct Hfr' as (fr' & Hk' & _ & Htid). unfold timeout_expires, timer_fires. rewrite Hk', Htid.
  reflexivity.
Qed.


Lemma filter_all {A} (P : A -> Prop) `{forall x, Decision (P x)} (l : list A) :
  (forall x, P x) -> filter P l = l.
Proof.
  intros HP. induction l as [|x l IH]; [reflexivity|].
  rewrite filter_cons_True by apply HP. rewrite IH. reflexivity.
Qed.

Lemma removeServer_undefined c name : _servers (evicted c None name) = _servers c.
Proof.
  unfold evicted. destruct (_servers c !! name) as [l|] eqn:E;
    [destruct (_ <? _)%nat|]; destruct (negb _); fsimpl; try reflexivity.
  all: rewrite filter_all by discriminate; apply insert_id; exact E.
Qed.

(** X11: the per-call timer can expire before the scan of the call has
    been answered, the target being still undefined.  Where [_removeServer]
    does not throw (the service name has a list of its own, or reads
    nothing with a positive length), no cached list
    changes, the callback gets the timeout error, and unless remote cleanup
    is disabled the key deleted is prefix:S:name: with an empty last
    segment; the scan stays pending.  When its reply comes afterwards with
    servers, the envelope of the call, which has already completed, is
    still published and its handler is stored in the table, and the
    callback is not applied again. *)
Theorem timer_before_discovery options id evs k fr d u :
  let c := run (CloudsClient options id) evs in
  frames c !! k = Some fr -> f_tid fr = Some d -> f_serverId fr = None ->
  f_callback fr = UserFn u -> removeServer_throws c (f_name fr) = false ->
  let c' := timeout_expires c k in
  _servers c' = _servers c /\ keysPending c' = keysPending c /\
  trace c' = Apply k (UserFn u) [call_timeout]
    :: (if notAutoCleanRemoteServer c then trace c
        else Del (_prefix c ++ ":S:" ++ f_name fr ++ ":") DebugFn :: trace c) /\
  (forall i reply now,
     keysPending c !! i = Some (f_name fr, k) ->
     map last_segment (default [] reply) <> [] ->
     let l := map last_segment (default [] reply) in
     let c'' := keys_replied c' i VNull reply now in
     trace c'' = Publish (_key c [Some "L"; l !! random_index (draws c) (length l)])
                   (m_data (f_msg fr)) DebugFn :: trace c' /\
     _messages c'' !! m_id (f_msg fr) = Some k /\
     applied k (trace c'') = 1%nat).
Proof.
  intros c Hk Htid Hsid Hu Hno c'.
  assert (HI : Inv c) by (apply Inv_run, Inv_init).
  pose proof (open_while_pending c k fr d HI Hk Htid) as Hl.
  assert (Hc' : c' = trip k (UserFn u) [call_timeout]
      (evicted (_removeMessageHandler (update_frame k (set_tid None) c) (m_id (f_msg fr)))
         None (f_name fr))).
  { subst c'. rewrite (timeout_expires_user c k fr d u Hk Htid Hl Hu Hno), Hsid. reflexivity. }
  clearbody c'. subst c'.
  set (c1 := _removeMessageHandler (update_frame k (set_tid None) c) (m_id (f_msg fr))).
  assert (Htr : trace (trip k (UserFn u) [call_timeout] (evicted c1 None (f_name fr)))
     = Apply k (UserFn u) [call_timeout]
        :: (if notAutoCleanRemoteServer c then trace c
            else Del (_prefix c ++ ":S:" ++ f_name fr ++ ":") DebugFn :: trace c)).
  { unfold trip. fsimpl. rewrite removeServer_trace.
    change (notAutoCleanRemoteServer c1) with (notAutoCleanRemoteServer c).
    change (trace c1) with (trace c). change (_key c1) with (_key c).
    destruct (notAutoCleanRemoteServer c); [reflexivity|].
    rewrite key_with_prefix by apply prefix_set. reflexivity. }
  assert (Hkp : keysPending (trip k (UserFn u) [call_timeout] (evicted c1 None (f_name fr)))
                = keysPending c).
  { unfold trip, evicted. fsimpl.
    destruct (_servers c1 !! f_name fr); [destruct (_ <? _)%nat|]; destruct (negb _); reflexivity. }
  split; [unfold trip; fsimpl; rewrite removeServer_undefined; reflexivity|].
  split; [exact Hkp|]. split; [exact Htr|].
  intros i reply now Hi Hne l c''.
  set (c' := trip k (UserFn u) [call_timeout] (evicted c1 None (f_name fr))) in *.
  assert (Hk' : frames c' !! k = Some (set_tid None (set_hasCallback true (set_tid None fr)))).
  { unfold c', trip. fsimpl. rewrite removeServer_frames. unfold c1, _removeMessageHandler.
    fsimpl. rewrite !list_lookup_alter_eq, Hk. reflexivity. }
  assert (Hd : draws c' = draws c).
  { unfold c', trip, evicted. fsimpl.
    destruct (_servers c1 !! f_name fr); [destruct (_ <? _)%nat|]; destruct (negb _); reflexivity. }
  assert (Hc'' : c'' = _sendCallRequest
      (with_messages (<[m_id (f_msg fr) := k]> (_messages c'))
         (update_frame k (set_serverId (l !! random_index (draws c) (length l)))
            (with_draws (S (draws c'))
               (_saveServerList (with_keysPending (delete i (keysPending c')) c')
                  (f_name fr) (Some l) now))))
      (l !! random_index (draws c) (length l)) (m_data (f_msg fr)) VUndefined).
  { subst c''. unfold keys_replied. rewrite Hkp, Hi.
    assert (Hk'' : frames (with_keysPending (delete i (keysPending c)) c') !! k
                   = Some (set_tid None (set_hasCallback true (set_tid None fr))))
      by (fsimpl; exact Hk').
    pose proof (keysReply_found cb (with_keysPending (delete i (keysPending c)) c')
               (f_name fr) k VNull reply now _ Hk'' eq_refl Hne) as HK.
    cbv zeta in HK. fold l in HK. fsimpl in HK. rewrite Hd in HK. rewrite Hd. exact HK. }
  clearbody c''. subst c''. unfold _sendCallRequest. fsimpl.
  split; [|split].
  - f_equal. f_equal. unfold _key, _saveServerList. fsimpl.
    assert (Hp : _prefix c' = _prefix c).
    { destruct (Cfg_removeServer c1 None (f_name fr)) as (Hp & _).
      unfold c', trip. fsimpl. exact Hp. }
    rewrite Hp. reflexivity.
  - apply lookup_insert_eq.
  - cbn [applied]. unfold _saveServerList. fsimpl. rewrite Htr. rewrite applied_same.
    destruct HI as (_ & Ib & _). pose proof (Ib _ _ Hk) as H0. rewrite Hl in H0.
    destruct (notAutoCleanRemoteServer c); cbn [applied]; rewrite H0; reflexivity.
Qed.

(** ** Bound callers with a supplied [onRetry], and successful attempts *)

Lemma bound_supplied c b bf g args u :
  binds c !! b = Some bf -> b_onRetry bf = UserOnRetry g ->
  bound c b (args ++ [VFn u]) =
    Some (call cb
            (with_invocations (invocations c ++
               [{| i_bind := b; i_args := args; i_callback := u; i_retryCounter := 0 |}]) c)
            (b_name bf) (g args) (OnCallback (length (invocations c)))).
Proof.
  intros Hb Hg. unfold bound. rewrite Hb, last_last, removelast_last, Hg.
  f_equal. unfold start. fsimpl. rewrite lookup_app_new. cbn [i_bind]. rewrite Hb, Hg.
  unfold bound_call. fsimpl. rewrite lookup_app_new. cbn [i_bind]. rewrite Hb. reflexivity.
Qed.

(** X12: when [onRetry] is supplied to [bind], every invocation of the
    bound caller is served on its own: it calls the bound service with what
    [onRetry] makes of its own arguments, and completes into its own
    [onCallback]; the variable [onRetry] of [bind] is not touched.  Two
    invocations in a row make two calls, each with its own arguments. *)
Theorem supplied_onRetry_is_per_invocation c b bf g a1 u1 a2 u2 :
  binds c !! b = Some bf -> b_onRetry bf = UserOnRetry g ->
  let inv1 := length (invocations c) in
  exists c1 c2 fr1 fr2,
    bound c b (a1 ++ [VFn u1]) = Some c1 /\
    bound c1 b (a2 ++ [VFn u2]) = Some c2 /\
    frames c2 = (frames c ++ [fr1; fr2])%list /\
    f_name fr1 = b_name bf /\ f_args fr1 = g a1 /\ f_callback fr1 = OnCallback inv1 /\
    f_name fr2 = b_name bf /\ f_args fr2 = g a2 /\ f_callback fr2 = OnCallback (S inv1) /\
    binds c2 = binds c.
Proof.
  intros Hb Hg inv1.
  set (iv1 := {| i_bind := b; i_args := a1; i_callback := u1; i_retryCounter := 0 |}).
  set (c1' := with_invocations (invocations c ++ [iv1]) c).
  set (c1 := call cb c1' (b_name bf) (g a1) (OnCallback inv1)).
  destruct (call_shape c1' (b_name bf) (g a1) (OnCallback inv1))
    as (fr1 & e1 & Hfr1 & Hn1 & Ha1 & Hc1 & _ & _ & Hbs1 & His1 & _).
  fold c1 in Hfr1, Hbs1, His1.
  assert (Hb1 : binds c1 !! b = Some bf) by (rewrite Hbs1; exact Hb).
  assert (Hlen1 : length (invocations c1) = S inv1).
  { rewrite His1. unfold c1'. fsimpl. rewrite length_app. cbn. unfold inv1. lia. }
  set (iv2 := {| i_bind := b; i_args := a2; i_callback := u2; i_retryCounter := 0 |}).
  set (c2' := with_invocations (invocations c1 ++ [iv2]) c1).
  destruct (call_shape c2' (b_name bf) (g a2) (OnCallback (S inv1)))
    as (fr2 & e2 & Hfr2 & Hn2 & Ha2 & Hc2 & _ & _ & Hbs2 & _).
  exists c1, (call cb c2' (b_name bf) (g a2) (OnCallback (S inv1))), fr1, fr2.
  split; [exact (bound_supplied c b bf g a1 u1 Hb Hg)|].
  split; [rewrite (bound_supplied c1 b bf g a2 u2 Hb1 Hg), Hlen1; reflexivity|].
  split.
  - rewrite Hfr2. change (frames c2') with (frames c1). rewrite Hfr1.
    change (frames c1') with (frames c). rewrite <- app_assoc. reflexivity.
  - repeat split; auto. rewrite Hbs2. change (binds c2') with (binds c1). exact Hbs1.
Qed.

(** X13: when the result of an attempt of a bound caller arrives without
    error, the outer callback of that invocation is applied at once with
    null followed by the result values, whatever the retry limit and the
    number of retries made; no further attempt is started and no retry is
    scheduled, and the handler of the attempt is removed. *)
Theorem bound_success_completes c channel payload k fr inv iv bf :
  let msg := parseMessage payload in
  channel = _key c [Some "L"; Some (_id c)] -> e_type msg = "result" ->
  _messages c !! e_id msg = Some k -> truthy (e_error msg) = false ->
  frames c !! k = Some fr -> f_hasCallback fr = false -> f_callback fr = OnCallback inv ->
  invocations c !! inv = Some iv -> binds c !! i_bind iv = Some bf ->
  let c' := on_message c channel payload in
  trace c' = Outer inv (i_callback iv) (VNull :: e_args msg)
     :: Apply k (OnCallback inv) (VNull :: e_args msg) :: trace c /\
  length (frames c') = length (frames c) /\
  retryTimers c' = retryTimers c /\
  _messages c' = delete (e_id msg) (_messages c).
Proof.
  intros msg Hch Hty Hk Herr Hfr Hl Hcb Hi Hb c'.
  assert (Hc' : c' = onCallback cb
            (trip k (OnCallback inv) (VNull :: e_args msg) (_removeMessageHandler c (e_id msg)))
            inv (VNull :: e_args msg)).
  { subst c'. rewrite on_message_cases; cbv zeta. fold msg. rewrite Hch, String.eqb_refl. cbn [negb].
    unfold _handleMessage. rewrite Hty. cbn [String.eqb Ascii.eqb Bool.eqb].
    unfold _handleCallResult. rewrite Hk. unfold js_or. rewrite Herr.
    rewrite cb_unfold. unfold cb_body. unfold _removeMessageHandler at 1. fsimpl.
    rewrite Hfr, Hl, Hcb. reflexivity. }
  clearbody c'. subst c'.
  set (Z0 := trip k (OnCallback inv) (VNull :: e_args msg) (_removeMessageHandler c (e_id msg))).
  destruct (onCallback_decision Z0 inv iv bf (VNull :: e_args msg) Hi Hb) as (_ & _ & Hdec).
  rewrite Hdec by (intros [[Ht _] _]; discriminate).
  unfold Z0, trip, _removeMessageHandler. fsimpl. rewrite !length_alter. repeat split.
Qed.

(** ** Callbacks are never applied from inside [call] *)

Lemma start_cases c inv :
  start cb c inv = c \/
  exists name a j, start cb c inv = call cb c name a (OnCallback j).
Proof.
  unfold start, default_onRetry, bound_call.
  destruct (invocations c !! inv) as [iv|]; [|auto].
  destruct (binds c !! _) as [b|]; [|auto].
  destruct (b_onRetry b) as [|h|j]; [auto|right; eauto|].
  destruct (invocations c !! j) as [ivj|]; [|auto].
  destruct (binds c !! i_bind ivj); [right; eauto|auto].
Qed.

Lemma call_quiet c name a fn :
  (forall j, applied j (trace (call cb c name a fn)) = applied j (trace c)) /\
  (forall u, invocations_of u (trace (call cb c name a fn)) = invocations_of u (trace c)).
Proof.
  destruct (call_shape c name a fn) as (fr & e & _ & _ & _ & _ & _ & _ & _ & _ & _ & Htr & He).
  rewrite Htr. split; intros x.
  - destruct e, He as [He|He]; try discriminate; reflexivity.
  - destruct e, He as [He|He]; try discriminate; reflexivity.
Qed.

(** X14: [call] never applies a callback before it returns, whether the
    server comes from the cache or has to be scanned for: the callback of
    the new call, like every other, has been applied exactly as often
    after [call] as before.  The same holds for an invocation of a bound
    caller, which returns after at most one [call]. *)
Theorem call_returns_before_any_callback c :
  (forall name args callback j u,
     applied j (trace (call cb c name args callback)) = applied j (trace c) /\
     invocations_of u (trace (call cb c name args callback)) = invocations_of u (trace c)) /\
  (forall b arguments c' j u,
     bound c b arguments = Some c' ->
     applied j (trace c') = applied j (trace c) /\
     invocations_of u (trace c') = invocations_of u (trace c) /\
     (length (frames c') <= S (length (frames c)))%nat).
Proof.
  split.
  - intros name args callback j u. destruct (call_quiet c name args callback) as [H1 H2]. auto.
  - intros b arguments c' j u Hb. unfold bound in Hb.
    destruct (binds c !! b) as [bf|]; [|discriminate].
    destruct (List.last arguments VUndefined); try discriminate.
    inversion Hb as [Hc']. clear Hb.
    set (c0 := with_invocations _ _) in *.
    assert (H0 : trace c0 = trace c /\ frames c0 = frames c)
      by (unfold c0; destruct (b_onRetry bf); auto).
    destruct H0 as [Ht0 Hf0].
    destruct (start_cases c0 (length (invocations c))) as [->|(name & a & j' & ->)].
    + rewrite Ht0, Hf0. repeat split; auto.
    + destruct (call_quiet c0 name a (OnCallback j')) as [H1 H2].
      destruct (call_shape c0 name a (OnCallback j')) as (fr & e & Hfr & _).
      rewrite H1, H2, Hfr, Ht0, Hf0, length_app. cbn. repeat split; auto. lia.
Qed.

(** ** Every call completes or has its timer pending *)

Lemma Live_update_frame c k g :
  (forall fr, f_hasCallback (g fr) = f_hasCallback fr /\ f_tid (g fr) = f_tid fr) ->
  Live c -> Live (update_frame k g c).
Proof.
  intros Hg HL j fj Hj Hl. fsimpl in Hj.
  destruct (decide (k = j)) as [->|Hne].
  - rewrite list_lookup_alter_eq in Hj. destruct (frames c !! j) as [fr|] eqn:E; [|discriminate].
    cbn in Hj. inversion Hj; subst fj. destruct (Hg fr) as [H1 H2].
    rewrite H2. eapply HL; [exact E|]. rewrite <- H1. exact Hl.
  - rewrite list_lookup_alter_ne in Hj by exact Hne. eapply HL; eauto.
Qed.

Lemma Live_call c name a fn : Live c -> Live (call cb c name a fn).
Proof.
  intros HL j fj Hj Hl.
  destruct (call_shape c name a fn) as (fr & e & Hfr & _ & _ & _ & _ & Ht & _).
  rewrite Hfr in Hj. apply lookup_app_Some in Hj as [Hj|[_ Hj]]; [eapply HL; eauto|].
  apply list_lookup_singleton_Some in Hj as [_ <-]. rewrite Ht. eauto.
Qed.

Lemma Live_start c inv : Live c -> Live (start cb c inv).
Proof.
  intros HL. destruct (start_cases c inv) as [->|(name & a & j & ->)];
    [exact HL|apply Live_call; exact HL].
Qed.

Lemma Live_onCallback c inv args : Live c -> Live (onCallback cb c inv args).
Proof.
  intros HL. unfold onCallback, tryAgain.
  destruct (invocations c !! inv) as [iv|]; [|exact HL].
  destruct (binds c !! _) as [b|]; [|exact HL].
  destruct (_ && _); [|exact HL].
  destruct (decide _); [exact (Live_start (with_invocations _ c) inv HL)|].
  destruct (decide _); exact HL.
Qed.

(** [cb] of an open frame [k] restores the property even if frame [k]
    itself has lost its timer. *)
Lemma Live_cb_open c k args fr :
  frames c !! k = Some fr -> f_hasCallback fr = false ->
  (forall j fj, j <> k -> frames c !! j = Some fj -> f_hasCallback fj = false ->
     is_Some (f_tid fj)) ->
  Live (cb c k args).
Proof.
  intros E Hl Hothers. rewrite cb_unfold. unfold cb_body. rewrite E, Hl.
  assert (H1 : Live (update_frame k (set_tid None) (update_frame k (set_hasCallback true) c))).
  { intros j fj Hj Hlj. fsimpl in Hj. destruct (decide (k = j)) as [->|Hne].
    - rewrite !list_lookup_alter_eq, E in Hj. cbn in Hj. inversion Hj; subst fj.
      cbn in Hlj. discriminate.
    - rewrite !list_lookup_alter_ne in Hj by exact Hne. eapply Hothers; eauto. }
  unfold apply_callback. destruct (f_callback fr); [exact H1|exact H1|].
  apply Live_onCallback. exact H1.
Qed.

Lemma Live_cb_live c k args : Live c -> Live (cb c k args).
Proof.
  intros HL. pose proof (cb_cases c k args) as H.
  destruct (frames c !! k) as [fr|] eqn:E; [|rewrite H; exact HL].
  destruct (f_hasCallback fr) eqn:Hl; [rewrite H; exact HL|].
  apply (Live_cb_open c k args fr E Hl). intros j fj _ Hj Hlj. eapply HL; eauto.
Qed.

Lemma Live_found c k err ret : Live c -> Live (found cb c k err ret).
Proof.
  intros HL. unfold found. destruct (truthy err); [apply Live_cb_live; exact HL|].
  destruct (frames c !! k) as [fr|]; [|exact HL].
  unfold _sendCallRequest.
  exact (Live_update_frame c k (set_serverId ret) (fun _ => conj eq_refl eq_refl) HL).
Qed.

Lemma Live_returnOneServer c name k : Live c -> Live (returnOneServer cb c name k).
Proof.
  intros HL. unfold returnOneServer. destruct (_servers c !! name); [|exact HL].
  destruct (_ <? _)%nat; apply Live_found; exact HL.
Qed.

Lemma Live_step c ev : Inv c -> Live c -> timer_throws c ev = false -> Live (step c ev).
Proof.
  intros HI HL Hth. destruct ev as [name args u|name retry onRetry|b arguments|callback
                           |i err list now|k|i|channel msg|now]; cbn [step].
  - apply Live_call. exact HL.
  - exact HL.
  - unfold bound. destruct (binds c !! b) as [bf|]; [|exact HL].
    destruct (List.last arguments VUndefined); try exact HL.
    cbn [default]. apply Live_start. destruct (b_onRetry bf); exact HL.
  - exact HL.
  - unfold keys_replied. destruct (keysPending c !! i) as [[name k]|]; [|exact HL].
    unfold keysReply. destruct (truthy err).
    + apply Live_found. exact HL.
    + apply Live_returnOneServer. exact HL.
  - cbn [timer_throws] in Hth.
    destruct (timeout_expires_cases c k)
      as [->|(fr & d & Hk & Htid & [(_ & Hf & _)|(_ & _ & ->)])]; [exact HL| |].
    { cbv zeta in Hf. rewrite Hf in Hth. discriminate. }
    pose proof (open_while_pending c k fr d HI Hk Htid) as Hl.
    apply (Live_cb_open _ k _ (set_tid None fr)); [|exact Hl|].
    + rewrite removeServer_frames. unfold _removeMessageHandler. fsimpl.
      rewrite list_lookup_alter_eq, Hk. reflexivity.
    + intros j fj Hne Hj Hlj. rewrite removeServer_frames in Hj.
      unfold _removeMessageHandler in Hj. fsimpl in Hj.
      rewrite list_lookup_alter_ne in Hj by congruence. eapply HL; eauto.
  - unfold retry_timer_expires. destruct (retryTimers c !! i) as [[inv d]|]; [|exact HL].
    unfold tryAgain. apply Live_start. exact HL.
  - rewrite on_message_cases; cbv zeta. destruct (negb _); [exact HL|].
    destruct (String.eqb _ _); [|exact HL].
    destruct (_messages c !! _); [|exact HL].
    apply Live_cb_live. exact HL.
  - unfold sweep_tick. destruct (_clearServerListTid c); [|exact HL].
    intros j fj Hj. destruct (clearServerList_frames_trace c now) as [Hf _].
    rewrite Hf in Hj. eapply HL; eauto.
Qed.

Lemma Live_run c evs : Inv c -> Live c -> run_throws c evs = false -> Live (run c evs).
Proof.
  unfold run. revert c. induction evs as [|ev evs IH]; intros c HI HL Hth; [exact HL|].
  cbn [run_throws] in Hth. apply orb_false_iff in Hth as [Hth1 Hth2].
  cbn [foldl]. apply IH; [apply Inv_step; exact HI|apply Live_step; assumption|exact Hth2].
Qed.

(** X15: in every execution of the client, a call frame whose timer is
    pending has not had its callback applied, and a frame has had it
    applied exactly once or not at all, according to its latch.  As long
    as no timer handler has thrown, the converse holds too: no call is
    left without callback and without timer.  When the timer of a call
    expires and [_removeServer] does not throw, the callback of that call
    is applied, then and only then, with the timeout error, whether the
    call had been sent to a server or not.  When [_removeServer] throws,
    the handler of the timer stops there: the call is left without timer
    and without callback, and its callback has not been applied. *)
Theorem every_call_completes options id evs k fr :
  let c := run (CloudsClient options id) evs in
  frames c !! k = Some fr ->
  (is_Some (f_tid fr) -> f_hasCallback fr = false) /\
  (applied k (trace c) = if f_hasCallback fr then 1%nat else 0%nat) /\
  (run_throws (CloudsClient options id) evs = false ->
     f_hasCallback fr = false -> is_Some (f_tid fr)) /\
  (is_Some (f_tid fr) -> removeServer_throws c (f_name fr) = false ->
     Apply k (f_callback fr) [call_timeout] ∈ trace (timeout_expires c k) /\
     applied k (trace (timeout_expires c k)) = 1%nat) /\
  (is_Some (f_tid fr) -> removeServer_throws c (f_name fr) = true ->
     throws (timer_fires c k) = true /\
     (exists fr', frames (timeout_expires c k) !! k = Some fr' /\
        f_hasCallback fr' = false /\ f_tid fr' = None) /\
     applied k (trace (timeout_expires c k)) = 0%nat).
Proof.
  intros c Hk.
  assert (HI : Inv c) by (apply Inv_run, Inv_init).
  split; [|split; [|split; [|split]]].
  - intros [d Hd]. eapply open_while_pending; eauto.
  - destruct HI as (_ & Ib & _). apply Ib. exact Hk.
  - intros Hth Hl.
    assert (HL : Live c).
    { apply Live_run; [apply Inv_init| |exact Hth]. intros j fj Hj. cbn in Hj. discriminate. }
    eapply HL; eauto.
  - intros [d Hd] Hno. pose proof (open_while_pending c k fr d HI Hk Hd) as Hl.
    destruct (timeout_expires_open c k fr d Hk Hd Hl Hno) as (_ & (extra & Htr) & Happ & _).
    split.
    + rewrite Htr. apply elem_of_app. right. unfold trip. fsimpl. apply list_elem_of_here.
    + rewrite Happ. unfold trip. fsimpl. rewrite applied_same, removeServer_trace.
      unfold _removeMessageHandler. fsimpl.
      destruct HI as (_ & Ib & _). pose proof (Ib _ _ Hk) as H0. rewrite Hl in H0.
      destruct (notAutoCleanRemoteServer c); cbn [applied]; rewrite H0; reflexivity.
  - intros [d Hd] Hyes. pose proof (open_while_pending c k fr d HI Hk Hd) as Hl.
    destruct (timeout_expires_throws c k fr d Hk Hd Hyes) as [Hf ->].
    split; [rewrite Hf; reflexivity|]. split.
    + unfold _removeMessageHandler. fsimpl. rewrite list_lookup_alter_eq, Hk.
      eexists. split; [reflexivity|]. split; [exact Hl|reflexivity].
    + unfold _removeMessageHandler. fsimpl.
      destruct HI as (_ & Ib & _). pose proof (Ib _ _ Hk) as H0. rewrite Hl in H0. exact H0.
Qed.

(** ** Construction *)


(** ** Eviction of one server *)

Lemma filter_all_in {A} (P : A -> Prop) `{forall x, Decision (P x)} (l : list A) :
  (forall x, x ∈ l -> P x) -> filter P l = l.
Proof.
  induction l as [|x l IH]; intros HP; [reflexivity|].
  rewrite filter_cons_True by (apply HP, list_elem_of_here).
  rewrite IH; [reflexivity|]. intros y Hy. apply HP, list_elem_of_further, Hy.
Qed.

Lemma evicted_cache c sid name :
  let c' := evicted c (Some sid) name in
  (forall other, other <> name -> _servers c' !! other = _servers c !! other) /\
  (_servers c !! name = None -> _servers c' = _servers c) /\
  (forall l, _servers c !! name = Some l -> sid ∉ l -> _servers c' = _servers c) /\
  _serversTimestamp c' = _serversTimestamp c.
Proof.
  intros c'.
  assert (Hsrv : _servers c' =
    match _servers c !! name with
    | Some l => if (0 <? length l)%nat
                then <[name := filter (fun item => Some item <> Some sid) l]> (_servers c)
                else _servers c
    | None => _servers c
    end).
  { unfold c', evicted. destruct (_servers c !! name) as [l|];
      [destruct (_ <? _)%nat|]; destruct (negb _); reflexivity. }
  split; [|split; [|split]].
  - intros other Hne. rewrite Hsrv. destruct (_servers c !! name) as [l|]; [|reflexivity].
    destruct (_ <? _)%nat; [|reflexivity]. apply lookup_insert_ne. congruence.
  - intros Hn. rewrite Hsrv, Hn. reflexivity.
  - intros l Hl Hnin. rewrite Hsrv, Hl. destruct (_ <? _)%nat; [|reflexivity].
    rewrite filter_all_in; [apply insert_id; exact Hl|].
    intros x Hx Heq. inversion Heq; subst x. contradiction.
  - unfold c', evicted. destruct (_servers c !! name) as [l|];
      [destruct (_ <? _)%nat|]; destruct (negb _); reflexivity.
Qed.

(** X17: [_removeServer] for a service name with a cached list of its own
    returns, and changes the cache only at that name: there the list
    keeps, in their order, exactly the ids other than the evicted one, so
    evicting an id that is not in the list changes no list, and evicting
    twice is the same for the cache as evicting once.  The timestamps are
    not touched, and the remote key of the id is deleted, whether the id
    was in the list or not, unless remote cleanup is disabled.  For a name
    without a list of its own, [_removeServer] either throws at once,
    leaving everything as it is and deleting no key, or changes no list
    and deletes the key as before.  As long as no list was stored under
    __proto__, it throws exactly for the names without list of their own
    under which Object.prototype has a function with parameters: such a
    function passes the guard on [length] and has no [filter]. *)
Theorem removeServer_cache c sid name :
  let deleted c :=
    if notAutoCleanRemoteServer c then trace c
    else Del (_key c [Some "S"; Some name; Some sid]) DebugFn :: trace c in
  (forall l, _servers c !! name = Some l ->
     exists c', _removeServer c (Some sid) name = Returns c' /\
       _servers c' !! name = Some (filter (fun item => item <> sid) l) /\
       (forall other, other <> name -> _servers c' !! other = _servers c !! other) /\
       (sid ∉ l -> _servers c' = _servers c) /\
       (exists c'', _removeServer c' (Some sid) name = Returns c'' /\
          _servers c'' = _servers c') /\
       _serversTimestamp c' = _serversTimestamp c /\
       trace c' = deleted c) /\
  (_servers c !! name = None ->
     if removeServer_throws c name
     then _removeServer c (Some sid) name = Throws c
     else exists c', _removeServer c (Some sid) name = Returns c' /\
            _servers c' = _servers c /\ _serversTimestamp c' = _serversTimestamp c /\
            trace c' = deleted c) /\
  (_servers c !! "__proto__" = None ->
     (removeServer_throws c name = true <->
      _servers c !! name = None /\
      exists len, function_of object_prototype name = Some len /\ (0 < len)%nat)).
Proof.
  intros deleted. split; [|split].
  - intros l Hl. exists (evicted c (Some sid) name).
    destruct (evicted_cache c sid name) as (Hother & _ & Habsent & Hts).
    pose proof (evicted_servers c sid name l Hl) as Hname.
    split; [rewrite removeServer_cases, (removeServer_own c name l Hl); reflexivity|].
    split; [exact Hname|]. split; [exact Hother|]. split; [exact (Habsent l Hl)|].
    split; [|split; [exact Hts|apply removeServer_trace]].
    exists (evicted (evicted c (Some sid) name) (Some sid) name).
    split; [rewrite removeServer_cases, (removeServer_own _ name _ Hname); reflexivity|].
    destruct (evicted_cache (evicted c (Some sid) name) sid name) as (_ & _ & Habsent' & _).
    apply (Habsent' _ Hname). intros Hin. apply list_elem_of_filter in Hin as [Hne _].
    congruence.
  - intros Hn. rewrite removeServer_cases.
    destruct (removeServer_throws c name); [reflexivity|].
    exists (evicted c (Some sid) name).
    destruct (evicted_cache c sid name) as (_ & Hnone & _ & Hts).
    split; [reflexivity|]. split; [exact (Hnone Hn)|]. split; [exact Hts|].
    apply removeServer_trace.
  - apply removeServer_throws_iff.
Qed.

(** ** The sweep and the calls in flight *)

Lemma clear_one_only_cache t c n :
  with_serversTimestamp (_serversTimestamp c) (with_servers (_servers c) (clear_one t c n)) = c.
Proof.
  unfold clear_one. destruct (_serversTimestamp c !! n) as [ts|]; [destruct (ts <=? t)|];
    destruct c; reflexivity.
Qed.

Lemma cache_setters_absorb a b a' b' (c : Client) :
  with_serversTimestamp a (with_servers b (with_serversTimestamp a' (with_servers b' c)))
  = with_serversTimestamp a (with_servers b c).
Proof. destruct c; reflexivity. Qed.

Lemma clear_fold_only_cache t names : forall c,
  with_serversTimestamp (_serversTimestamp c)
    (with_servers (_servers c) (foldl (clear_one t) c names)) = c.
Proof.
  induction names as [|n names IH]; intros c; [destruct c; reflexivity|].
  cbn [foldl].
  rewrite <- (cache_setters_absorb _ _ (_serversTimestamp (clear_one t c n))
                (_servers (clear_one t c n))).
  rewrite IH. apply clear_one_only_cache.
Qed.

(** X18: a tick of the sweep changes nothing but the cache of server lists
    and its timestamps: the pending handlers, the call frames with their
    latches and timers, the pending scans and retries, the bound callers
    and the trace are what they were, and nothing is sent.  In the cache it
    only removes: a list or a timestamp that is there afterwards was there
    before, unchanged. *)
Theorem sweep_touches_only_the_cache c now :
  let c' := sweep_tick c now in
  frames c' = frames c /\ _messages c' = _messages c /\
  keysPending c' = keysPending c /\ retryTimers c' = retryTimers c /\
  binds c' = binds c /\ invocations c' = invocations c /\ trace c' = trace c /\
  (forall n l, _servers c' !! n = Some l -> _servers c !! n = Some l) /\
  (forall n ts, _serversTimestamp c' !! n = Some ts -> _serversTimestamp c !! n = Some ts).
Proof.
  intros c'.
  assert (H : with_serversTimestamp (_serversTimestamp c) (with_servers (_servers c) c') = c).
  { unfold c', sweep_tick. destruct (_clearServerListTid c); [|destruct c; reflexivity].
    apply clear_fold_only_cache. }
  split; [exact (f_equal frames H)|]. split; [exact (f_equal _messages H)|].
  split; [exact (f_equal keysPending H)|]. split; [exact (f_equal retryTimers H)|].
  split; [exact (f_equal binds H)|]. split; [exact (f_equal invocations H)|].
  split; [exact (f_equal trace H)|].
  unfold c', sweep_tick. destruct (_clearServerListTid c); [|auto].
  split; intros n x Hx; destruct (clearServerList_lookup c now n) as [Hs Ht].
  - rewrite Hs in Hx. destruct (expired _ c n); [discriminate|exact Hx].
  - rewrite Ht in Hx. destruct (_ && _); [discriminate|exact Hx].
Qed.

(** ** Pending scans belong to call frames *)

Lemma Scans_same c c' :
  keysPending c' = keysPending c -> (length (frames c) <= length (frames c'))%nat ->
  Scans c -> Scans c'.
Proof.
  unfold Scans. intros -> Hlen H. eapply Forall_impl; [exact H|].
  intros p Hp. cbn beta in Hp. lia.
Qed.

Section ScansOpen.

Variable f : Client -> nat -> list Value -> Client.
Hypothesis Hf : forall c k a, Scans c -> Scans (f c k a).

Lemma Scans_found c k err ret : Scans c -> Scans (found f c k err ret).
Proof.
  intros H. unfold found. destruct (truthy err); [apply Hf; exact H|].
  destruct (frames c !! k); [|exact H].
  unfold _sendCallRequest. eapply Scans_same; [| |exact H]; fsimpl;
    [reflexivity|rewrite length_alter; lia].
Qed.

Lemma Scans_returnOneServer c name k : Scans c -> Scans (returnOneServer f c name k).
Proof.
  intros H. unfold returnOneServer. destruct (_servers c !! name) as [l|]; [|exact H].
  destruct (_ <? _)%nat; [apply Scans_found; exact H|].
  apply (Scans_found (with_draws _ c) k VNull _). exact H.
Qed.

Lemma Scans_findOneServer c name k :
  (k < length (frames c))%nat -> Scans c -> Scans (_findOneServer f c name k).
Proof.
  intros Hk H. unfold _findOneServer. cbv zeta.
  set (c1 := match _servers c !! name with Some _ => c | None => _ end).
  assert (H1 : Scans c1) by (subst c1; destruct (_servers c !! name); exact H).
  assert (Hk1 : (k < length (frames c1))%nat)
    by (subst c1; destruct (_servers c !! name); exact Hk).
  destruct (_ <? _)%nat; [|apply Scans_returnOneServer; exact H1].
  unfold Scans. fsimpl. apply Forall_app. split; [exact H1|].
  apply Forall_cons. split; [exact Hk1|apply Forall_nil_2].
Qed.

Lemma Scans_call c name args callback : Scans c -> Scans (call f c name args callback).
Proof.
  intros H. unfold call. cbv zeta.
  match goal with |- context [_findOneServer f ?c1 ?n ?k] =>
    assert (H1 : Scans (_findOneServer f c1 n k)) end.
  { apply Scans_findOneServer; [fsimpl; rewrite length_app; cbn; lia|].
    eapply Scans_same; [| |exact H]; fsimpl; [reflexivity|rewrite length_app; lia]. }
  eapply Scans_same; [| |exact H1]; fsimpl; [reflexivity|rewrite !length_alter; lia].
Qed.

Lemma Scans_bound_call c inv args : Scans c -> Scans (bound_call f c inv args).
Proof.
  intros H. unfold bound_call. destruct (invocations c !! inv) as [iv|]; [|exact H].
  destruct (binds c !! i_bind iv); [apply Scans_call; exact H|exact H].
Qed.

Lemma Scans_start c inv : Scans c -> Scans (start f c inv).
Proof.
  intros H. unfold start. destruct (invocations c !! inv) as [iv|]; [|exact H].
  destruct (binds c !! i_bind iv) as [b|]; [|exact H].
  destruct (b_onRetry b) as [|g|j]; [exact H|apply Scans_bound_call; exact H|].
  unfold default_onRetry. destruct (invocations c !! j); [apply Scans_bound_call|]; exact H.
Qed.

Lemma Scans_tryAgain c inv : Scans c -> Scans (tryAgain f c inv).
Proof. intros H. unfold tryAgain. exact (Scans_start (with_invocations _ c) inv H). Qed.

Lemma Scans_onCallback c inv args : Scans c -> Scans (onCallback f c inv args).
Proof.
  intros H. unfold onCallback. destruct (invocations c !! inv) as [iv|]; [|exact H].
  destruct (binds c !! i_bind iv) as [b|]; [|exact H].
  destruct (_ && _); [|exact H].
  destruct (decide _); [apply Scans_tryAgain; exact H|].
  destruct (decide _); exact H.
Qed.

Lemma Scans_cb_body c k args : Scans c -> Scans (cb_body f c k args).
Proof.
  intros H. unfold cb_body. destruct (frames c !! k) as [fr|]; [|exact H].
  destruct (f_hasCallback fr); [exact H|].
  assert (H1 : Scans (update_frame k (set_tid None) (update_frame k (set_hasCallback true) c)))
    by (eapply Scans_same; [| |exact H]; fsimpl; [reflexivity|rewrite !length_alter; lia]).
  unfold apply_callback. cbv zeta.
  destruct (f_callback fr) as [u| |inv]; try exact H1.
  match goal with |- Scans (onCallback f ?c1 _ _) =>
    apply (Scans_onCallback c1); exact H1 end.
Qed.

End ScansOpen.

Lemma Scans_cb c k args : Scans c -> Scans (cb c k args).
Proof. unfold cb. apply Scans_cb_body. intros c0 k0 a0 H0. exact H0. Qed.

Lemma Scans_step c ev : Scans c -> Scans (step c ev).
Proof.
  intros H. destruct ev as [name args u|name retry onRetry|b arguments|callback
                           |i err list now|k|i|channel msg|now]; cbn [step].
  - apply Scans_call; [apply Scans_cb|exact H].
  - exact H.
  - unfold bound. destruct (binds c !! b) as [bf|]; [|exact H].
    destruct (List.last arguments VUndefined); try exact H.
    cbn [default]. apply Scans_start; [apply Scans_cb|].
    destruct (b_onRetry bf); exact H.
  - exact H.
  - unfold keys_replied. destruct (keysPending c !! i) as [[name k]|]; [|exact H].
    assert (H1 : Scans (with_keysPending (delete i (keysPending c)) c))
      by (unfold Scans; fsimpl; apply Forall_delete; exact H).
    unfold keysReply. destruct (truthy err).
    + apply Scans_found; [apply Scans_cb|exact H1].
    + apply Scans_returnOneServer; [apply Scans_cb|]. exact H1.
  - assert (H1 : forall id, Scans (_removeMessageHandler (update_frame k (set_tid None) c) id)).
    { intros id. eapply Scans_same; [| |exact H]; unfold _removeMessageHandler; fsimpl;
        [reflexivity|rewrite length_alter; lia]. }
    destruct (timeout_expires_cases c k)
      as [->|(fr & d & _ & _ & [(_ & _ & ->)|(_ & _ & ->)])]; [exact H|apply H1|].
    apply Scans_cb. eapply Scans_same; [| |apply (H1 (m_id (f_msg fr)))].
    + apply removeServer_keysPending.
    + rewrite removeServer_frames. lia.
  - unfold retry_timer_expires. destruct (retryTimers c !! i) as [[inv d]|]; [|exact H].
    apply Scans_tryAgain; [apply Scans_cb|exact H].
  - rewrite on_message_cases; cbv zeta. destruct (negb _); [exact H|].
    destruct (String.eqb _ _); [|exact H].
    destruct (_messages c !! _); [|exact H].
    apply Scans_cb. exact H.
  - unfold sweep_tick. destruct (_clearServerListTid c); [|exact H].
    pose proof (clear_fold_only_cache (now - _serverMaxAge c * 1000)
                  (fst <$> map_to_list (_servers c)) c) as Hc.
    eapply Scans_same; [| |exact H].
    + exact (f_equal keysPending Hc).
    + destruct (clearServerList_frames_trace c now) as [-> _]. lia.
Qed.

(** In every execution of the client, every pending scan belongs to an
    existing call frame. *)
Lemma Scans_run options id evs : Scans (run (CloudsClient options id) evs).
Proof.
  assert (H : forall c, Scans c -> Scans (run c evs)).
  { unfold run. induction evs as [|ev evs' IH]; intros c Hc; [exact Hc|].
    cbn [foldl]. apply IH, Scans_step, Hc. }
  apply H. apply Forall_nil_2.
Qed.

(** ** The sweep timer and the connections *)

Lemma Conn_refl c : Conn c c.
Proof. unfold Conn. auto. Qed.

Lemma Conn_trans c1 c2 c3 : Conn c1 c2 -> Conn c2 c3 -> Conn c1 c3.
Proof. unfold Conn. intros (? & ? & ?) (? & ? & ?). repeat split; congruence. Qed.

Section ConnOpen.

Variable f : Client -> nat -> list Value -> Client.
Hypothesis Hf : forall c k a, Conn c (f c k a).

Lemma Conn_found c k err ret : Conn c (found f c k err ret).
Proof.
  unfold found. destruct (truthy err); [apply Hf|].
  destruct (frames c !! k); [|apply Conn_refl].
  unfold _sendCallRequest, Conn. fsimpl. auto.
Qed.

Lemma Conn_returnOneServer c name k : Conn c (returnOneServer f c name k).
Proof.
  unfold returnOneServer. destruct (_servers c !! name) as [l|]; [|apply Conn_refl].
  destruct (_ <? _)%nat; [apply Conn_found|].
  exact (Conn_found (with_draws _ c) k VNull _).
Qed.

Lemma Conn_findOneServer c name k : Conn c (_findOneServer f c name k).
Proof.
  unfold _findOneServer. cbv zeta.
  set (c1 := match _servers c !! name with Some _ => c | None => _ end).
  assert (H1 : Conn c c1).
  { subst c1. destruct (_servers c !! name); [apply Conn_refl|].
    unfold Conn. fsimpl. auto. }
  destruct (_ <? _)%nat.
  - eapply Conn_trans; [exact H1|]. unfold Conn. fsimpl. auto.
  - eapply Conn_trans; [exact H1|apply Conn_returnOneServer].
Qed.

Lemma Conn_call c name args callback : Conn c (call f c name args callback).
Proof.
  unfold call. cbv zeta.
  match goal with |- context [_findOneServer f ?c1 ?n ?k] =>
    pose proof (Conn_findOneServer c1 n k) as H end.
  unfold Conn in *. fsimpl. fsimpl in H. exact H.
Qed.

Lemma Conn_bound_call c inv args : Conn c (bound_call f c inv args).
Proof.
  unfold bound_call. destruct (invocations c !! inv) as [iv|]; [|apply Conn_refl].
  destruct (binds c !! i_bind iv); [apply Conn_call|apply Conn_refl].
Qed.

Lemma Conn_start c inv : Conn c (start f c inv).
Proof.
  unfold start. destruct (invocations c !! inv) as [iv|]; [|apply Conn_refl].
  destruct (binds c !! i_bind iv) as [b|]; [|apply Conn_refl].
  destruct (b_onRetry b) as [|g|j]; [apply Conn_refl|apply Conn_bound_call|].
  unfold default_onRetry. destruct (invocations c !! j); [apply Conn_bound_call|apply Conn_refl].
Qed.

Lemma Conn_tryAgain c inv : Conn c (tryAgain f c inv).
Proof. unfold tryAgain. exact (Conn_start (with_invocations _ c) inv). Qed.

Lemma Conn_onCallback c inv args : Conn c (onCallback f c inv args).
Proof.
  unfold onCallback. destruct (invocations c !! inv) as [iv|]; [|apply Conn_refl].
  destruct (binds c !! i_bind iv) as [b|]; [|apply Conn_refl].
  destruct (_ && _); [|exact (Conn_refl c)].
  destruct (decide _); [apply Conn_tryAgain|].
  destruct (decide _); exact (Conn_refl c).
Qed.

Lemma Conn_cb_body c k args : Conn c (cb_body f c k args).
Proof.
  unfold cb_body. destruct (frames c !! k) as [fr|]; [|apply Conn_refl].
  destruct (f_hasCallback fr); [apply Conn_refl|].
  unfold apply_callback. cbv zeta.
  destruct (f_callback fr) as [u| |inv]; try exact (Conn_refl c).
  match goal with |- Conn _ (onCallback f ?c1 _ _) =>
    exact (Conn_trans c c1 _ (Conn_refl c) (Conn_onCallback c1 _ _)) end.
Qed.

End ConnOpen.

Lemma Conn_cb c k args : Conn c (cb c k args).
Proof. unfold cb. apply Conn_cb_body. intros c0 k0 a0. exact (Conn_refl c0). Qed.

Lemma Conn_removeServer c serverId name : Conn c (evicted c serverId name).
Proof.
  unfold evicted.
  set (c1 := match _servers c !! name with Some _ => _ | None => _ end).
  assert (H1 : Conn c c1).
  { subst c1. destruct (_servers c !! name) as [l|]; [|apply Conn_refl].
    destruct (_ <? _)%nat; exact (Conn_refl c). }
  destruct (negb _); exact H1.
Qed.

Lemma Conn_clearServerList c now : Conn c (clearServerList c now).
Proof.
  unfold clearServerList.
  generalize (fst <$> map_to_list (_servers c)) as names.
  generalize (now - _serverMaxAge c * 1000) as t. intros t names.
  revert c. induction names as [|n names IH]; intros c; [apply Conn_refl|].
  cbn [foldl]. eapply Conn_trans; [|apply IH].
  unfold clear_one. destruct (_serversTimestamp c !! n) as [ts|]; [|apply Conn_refl].
  destruct (ts <=? t); exact (Conn_refl c).
Qed.

Lemma Conn_step c ev : is_exit ev = false -> Conn c (step c ev).
Proof.
  destruct ev as [name args u|name retry onRetry|b arguments|callback
                 |i err list now|k|i|channel msg|now]; cbn [step is_exit]; intros Hx.
  - apply Conn_call, Conn_cb.
  - exact (Conn_refl c).
  - unfold bound. destruct (binds c !! b) as [bf|]; [|exact (Conn_refl c)].
    destruct (List.last arguments VUndefined); try exact (Conn_refl c).
    cbn [default]. eapply Conn_trans; [|apply Conn_start, Conn_cb].
    destruct (b_onRetry bf); exact (Conn_refl c).
  - discriminate.
  - unfold keys_replied. destruct (keysPending c !! i) as [[name k]|]; [|exact (Conn_refl c)].
    unfold keysReply. destruct (truthy err).
    + exact (Conn_found cb Conn_cb (with_keysPending _ c) k err None).
    + exact (Conn_returnOneServer cb Conn_cb
               (_saveServerList (with_keysPending _ c) name _ now) name k).
  - destruct (timeout_expires_cases c k) as [->|(fr & d & _ & _ & [(_ & _ & ->)|(_ & _ & ->)])];
      [exact (Conn_refl c)|exact (Conn_refl c)|].
    eapply Conn_trans; [|apply Conn_cb].
    exact (Conn_removeServer (_removeMessageHandler (update_frame k (set_tid None) c) _) _ _).
  - unfold retry_timer_expires. destruct (retryTimers c !! i) as [[inv d]|]; [|exact (Conn_refl c)].
    exact (Conn_tryAgain cb Conn_cb (with_retryTimers _ c) inv).
  - rewrite on_message_cases; cbv zeta. destruct (negb _); [exact (Conn_refl c)|].
    destruct (String.eqb _ _); [|exact (Conn_refl c)].
    destruct (_messages c !! _); [|exact (Conn_refl c)].
    exact (Conn_cb (_removeMessageHandler c _) _ _).
  - unfold sweep_tick. destruct (_clearServerListTid c); [|exact (Conn_refl c)].
    apply Conn_clearServerList.
Qed.

Lemma Conn_run evs : forall c,
  forallb (fun ev => negb (is_exit ev)) evs = true -> Conn c (run c evs).
Proof.
  unfold run. induction evs as [|ev evs IH]; intros c H; [apply Conn_refl|].
  cbn [forallb] in H. apply andb_prop in H as [H1 H2]. apply negb_true_iff in H1.
  cbn [foldl]. eapply Conn_trans; [apply Conn_step; exact H1|apply IH; exact H2].
Qed.

Lemma closed_step c ev :
  _clearServerListTid c = None /\ _cp c = false /\ _cs c = false ->
  _clearServerListTid (step c ev) = None /\ _cp (step c ev) = false /\ _cs (step c ev) = false.
Proof.
  intros (H1 & H2 & H3). destruct (is_exit ev) eqn:E.
  - destruct ev; try discriminate. cbn [step]. unfold exit. fsimpl. auto.
  - destruct (Conn_step c ev E) as (K1 & K2 & K3). rewrite K1, K2, K3. auto.
Qed.

Lemma closed_run evs : forall c,
  _clearServerListTid c = None /\ _cp c = false /\ _cs c = false ->
  _clearServerListTid (run c evs) = None /\ _cp (run c evs) = false /\ _cs (run c evs) = false.
Proof.
  unfold run. induction evs as [|ev evs IH]; intros c H; [exact H|].
  cbn [foldl]. apply IH, closed_step, H.
Qed.

Lemma closed_after_exit evs : forall c,
  existsb is_exit evs = true ->
  _clearServerListTid (run c evs) = None /\ _cp (run c evs) = false /\ _cs (run c evs) = false.
Proof.
  induction evs as [|ev evs IH]; intros c H; [discriminate|].
  cbn [existsb] in H. change (run c (ev :: evs)) with (run (step c ev) evs).
  destruct (is_exit ev) eqn:E; [|apply IH; exact H].
  apply closed_run. destruct ev; try discriminate. cbn [step]. unfold exit. fsimpl. auto.
Qed.

(** X19: the sweep and the two connections live exactly until [exit].  In
    every execution without [exit] the sweep timer is armed, with the
    period of [serverMaxAge] * 500 ms set by the constructor, and both
    connections are open.  Once [exit] has run, whatever happens
    afterwards, the timer is cleared and the connections are closed for
    good: no later call, result or timer reopens them, and a tick of the
    sweep changes nothing, so cached lists no longer expire. *)
Theorem sweep_runs_until_exit options id evs :
  let c := run (CloudsClient options id) evs in
  (forallb (fun ev => negb (is_exit ev)) evs = true ->
     _clearServerListTid c = Some (_serverMaxAge c * 500) /\ _cp c = true /\ _cs c = true) /\
  (existsb is_exit evs = true ->
     _clearServerListTid c = None /\ _cp c = false /\ _cs c = false /\
     forall now, sweep_tick c now = c).
Proof.
  intros c. split; intros H.
  - destruct (Conn_run evs (CloudsClient options id) H) as (K1 & K2 & K3).
    destruct (Cfg_run (CloudsClient options id) evs) as (_ & _ & _ & K4 & _).
    fold c in K1, K2, K3, K4. rewrite K1, K2, K3, K4. auto.
  - destruct (closed_after_exit evs (CloudsClient options id) H) as (K1 & K2 & K3).
    fold c in K1, K2, K3. split; [exact K1|]. split; [exact K2|]. split; [exact K3|].
    intros now. unfold sweep_tick. rewrite K1. reflexivity.
Qed.

End Methods.

(** ** The client run in the reference environment *)

Abbreviation ref_run :=
  (run ref_pocketCallMessage ref_random_index ref_parseMessage ref_array_prototype
     ref_builtin_throws).
Abbreviation ref_step :=
  (step ref_pocketCallMessage ref_random_index ref_parseMessage ref_array_prototype
     ref_builtin_throws).
Abbreviation ref_bound := (bound ref_pocketCallMessage ref_random_index).
Abbreviation ref_timeout_expires :=
  (timeout_expires ref_pocketCallMessage ref_random_index ref_array_prototype).
Abbreviation ref_timer_fires :=
  (timer_fires ref_pocketCallMessage ref_random_index ref_array_prototype).
Abbreviation ref_listener :=
  (listener ref_pocketCallMessage ref_random_index ref_parseMessage ref_builtin_throws).
Abbreviation ref_removeServer := (_removeServer ref_array_prototype).
Abbreviation ref_attempts_time_out :=
  (attempts_time_out ref_pocketCallMessage ref_random_index ref_array_prototype).
Abbreviation default_options :=
  {| o_redis_prefix := None; o_timeout := None; o_serverMaxAge := None;
     o_notAutoCleanRemoteServer := false |}.
Abbreviation quiet_options :=
  {| o_redis_prefix := None; o_timeout := None; o_serverMaxAge := None;
     o_notAutoCleanRemoteServer := true |}.
Abbreviation short_lived_options :=
  {| o_redis_prefix := None; o_timeout := None; o_serverMaxAge := Some 2;
     o_notAutoCleanRemoteServer := false |}.

(** Client c1 has called service svc and waits for the scan. *)
Abbreviation ev_called := [UserCall "svc" [VNum 1] 7].
Abbreviation s_called := (ref_run (CloudsClient default_options "c1") ev_called).

(** The scan found servers s1 and s2, and the call went to s1. *)
Abbreviation ev_dispatched :=
  [UserCall "svc" [VNum 1] 7;
   KeysReplied 0 VNull (Some ["clouds:S:svc:s1"; "clouds:S:svc:s2"]) 100].
Abbreviation s_dispatched := (ref_run (CloudsClient default_options "c1") ev_dispatched).

(** The result of the call arrived. *)
Abbreviation ev_answered :=
  [UserCall "svc" [VNum 1] 7;
   KeysReplied 0 VNull (Some ["clouds:S:svc:s1"; "clouds:S:svc:s2"]) 100;
   MessageDelivered "clouds:L:c1" "result:m0::42"].
Abbreviation s_answered := (ref_run (CloudsClient default_options "c1") ev_answered).

(** The scan found no server. *)
Abbreviation s_empty :=
  (ref_run (CloudsClient default_options "c1")
     [UserCall "svc" [VNum 1] 7; KeysReplied 0 VNull (Some []) 100]).

(** A call in flight when the client exits, with remote cleanup disabled. *)
Abbreviation s_exited :=
  (ref_run (CloudsClient quiet_options "c1")
     [UserCall "svc" [VNum 1] 7;
      KeysReplied 0 VNull (Some ["clouds:S:svc:s1"]) 100;
      UserExit VUndefined]).

(** A cache entry stamped 0 in a client whose [serverMaxAge] is 2 seconds. *)
Abbreviation s_short :=
  (ref_run (CloudsClient short_lived_options "c1")
     [UserCall "svc" [VNum 1] 7; KeysReplied 0 VNull (Some ["clouds:S:svc:s1"]) 0]).

(** A call for the service named constructor went to s1, in a client whose
    [serverMaxAge] is 2 seconds; the tick of the sweep at 3 seconds has
    removed the list of that service, the timer of the call still pending. *)
Abbreviation ev_swept :=
  [UserCall "constructor" [VNum 1] 7;
   KeysReplied 0 VNull (Some ["clouds:S:constructor:s1"]) 100;
   SweepTick 3000].
Abbreviation s_swept := (ref_run (CloudsClient short_lived_options "c1") ev_swept).

(** A caller bound to svc without [onRetry]: no retry, and two retries. *)
Abbreviation s_bound0 := (ref_run (CloudsClient default_options "c1") [UserBind "svc" 0 None]).
Abbreviation s_bound2 := (ref_run (CloudsClient default_options "c1") [UserBind "svc" 2 None]).

Abbreviation ref_call :=
  (call ref_pocketCallMessage ref_random_index (cb ref_pocketCallMessage ref_random_index)).
Abbreviation ref_keys_replied := (keys_replied ref_pocketCallMessage ref_random_index).
Abbreviation ref_on_message :=
  (on_message ref_pocketCallMessage ref_random_index ref_parseMessage ref_builtin_throws).

(** A caller bound to svc with an [onRetry] that passes its arguments on. *)
Abbreviation s_bound_user :=
  (ref_run (CloudsClient default_options "c1")
     [UserBind "svc" 0 (Some (fun a : list Value => a))]).

(** The first attempt of an invocation of a caller bound without retry has
    been dispatched to s1. *)
Abbreviation s_attempt :=
  (ref_run (CloudsClient default_options "c1")
     [UserBind "svc" 0 None; UserInvoke 0 [VNum 1; VFn 10];
      KeysReplied 0 VNull (Some ["clouds:S:svc:s1"]) 100]).

(** The answered call saw its callback once; the cancelled timer and a
    second copy of the answer change nothing. *)
Lemma callback_at_most_once_witness :
  (applied 0 (trace s_answered) <= 1)%nat /\
  applied 0 (trace (ref_run s_answered
     [TimeoutExpired 0; MessageDelivered "clouds:L:c1" "result:m0::42"]))
    = applied 0 (trace s_answered).
Proof.
  destruct (callback_at_most_once ref_pocketCallMessage ref_random_index ref_parseMessage ref_array_prototype ref_builtin_throws
              default_options "c1" ev_answered 0) as [H1 H2].
  split; [exact H1|].
  eapply H2; [vm_compute; reflexivity|reflexivity].
Defined.

Example answered_once :
  rev (trace s_answered) =
    [Subscribe "clouds:L:c1" DebugFn; Keys "clouds:S:svc:*";
     Publish "clouds:L:s1" "call:m0:c1:svc" DebugFn;
     Apply 0 (UserFn 7) [VNull; VNum 42]].
Proof. vm_compute. reflexivity. Qed.

(** C2, as stated, fails: the scan for svc comes back empty and the callback
    gets the "no available server" error, but the per-call timer had been
    started, with the default delay of 60000 ms, when [call] was entered. *)
Lemma timer_started_before_discovery :
  _servers (ref_step s_called (KeysReplied 0 VNull (Some []) 5)) !! "svc" = Some [] /\
  trace (ref_step s_called (KeysReplied 0 VNull (Some []) 5)) !! 0%nat
    = Some (Apply 0 (UserFn 7) [no_available_server]) /\
  f_tid <$> frames s_called !! 0%nat = Some (Some 60000) /\
  ~ (forall fr, frames s_called !! 0%nat = Some fr -> f_tid fr = None).
Proof.
  split; [vm_compute; reflexivity|]. split; [vm_compute; reflexivity|].
  split; [vm_compute; reflexivity|].
  intros H.
  assert (Hf : f_tid <$> frames s_called !! 0%nat = Some (Some 60000))
    by (vm_compute; reflexivity).
  destruct (frames s_called !! 0%nat) as [fr|]; [|discriminate].
  cbn [fmap option_fmap option_map] in Hf. rewrite (H fr eq_refl) in Hf. discriminate.
Qed.

Lemma call_without_server_witness :
  _servers (ref_step s_called (KeysReplied 0 VNull (Some []) 5)) !! "svc" = Some [] /\
  applied 0 (trace (ref_step s_called (KeysReplied 0 VNull (Some []) 5))) = 1%nat /\
  publishes (trace (ref_step s_called (KeysReplied 0 VNull (Some []) 5)))
    = publishes (trace s_called).
Proof.
  destruct (call_without_server ref_pocketCallMessage ref_random_index ref_parseMessage ref_array_prototype ref_builtin_throws
              default_options "c1" ev_called) as [_ H2].
  edestruct (H2 0%nat "svc" 0%nat) as (A & _ & B & C & _);
    [vm_compute; reflexivity|vm_compute; reflexivity|reflexivity|
     exact (eq_refl : truthy VNull = false)|
     exact (eq_refl : default [] (Some (@nil string)) = [])|].
  split; [exact A|]. split; [exact B|exact C].
Defined.

(** C3, as stated, fails: the client exits while the call to s1 is in
    flight; the handler is still in the table, the timer of the call still
    expires, and the caller then receives the timeout error. *)
Lemma late_timeout_after_exit :
  _clearServerListTid s_exited = None /\
  _messages s_exited !! "m0" = Some 0%nat /\
  invocations_of 7 (trace s_exited) = [] /\
  invocations_of 7 (trace (ref_step s_exited (TimeoutExpired 0)))
    = [Apply 0 (UserFn 7) [call_timeout]] /\
  invocations_of 7 (trace (ref_step s_exited (TimeoutExpired 0)))
    <> invocations_of 7 (trace s_exited).
Proof.
  assert (H1 : invocations_of 7 (trace s_exited) = []) by (vm_compute; reflexivity).
  assert (H2 : invocations_of 7 (trace (ref_step s_exited (TimeoutExpired 0)))
               = [Apply 0 (UserFn 7) [call_timeout]]) by (vm_compute; reflexivity).
  split; [vm_compute; reflexivity|]. split; [vm_compute; reflexivity|].
  split; [exact H1|]. split; [exact H2|].
  rewrite H1, H2. discriminate.
Qed.

Lemma exit_leaves_pending_calls_witness :
  applied 0 (trace (exit s_dispatched VUndefined)) = 0%nat /\
  applied 0 (trace (ref_timeout_expires (exit s_dispatched VUndefined) 0)) = 1%nat.
Proof.
  destruct (exit_leaves_pending_calls ref_pocketCallMessage ref_random_index ref_parseMessage ref_array_prototype ref_builtin_throws default_options "c1" ev_dispatched VUndefined)
    as (_ & _ & _ & _ & _ & _ & _ & H).
  edestruct (H 0%nat) as (A & B & _);
    [vm_compute; reflexivity|reflexivity|vm_compute; reflexivity|].
  split; [exact A|exact B].
Defined.

(** The second invocation of a bound caller, with argument 2 and callback
    20, calls svc with the argument of the first invocation, 1; and the
    result of that call goes to the callback of the first invocation, 10. *)
Lemma second_invocation_reuses_first_witness :
  exists c1 c2 fr1 fr2,
    ref_bound s_bound0 0 ([VNum 1] ++ [VFn 10]) = Some c1 /\
    ref_bound c1 0 ([VNum 2] ++ [VFn 20]) = Some c2 /\
    frames c2 = (frames s_bound0 ++ [fr1; fr2])%list /\
    f_args fr1 = [VNum 1] /\ f_callback fr1 = OnCallback (length (invocations s_bound0)) /\
    f_args fr2 = [VNum 1] /\ f_callback fr2 = OnCallback (length (invocations s_bound0)) /\
    (exists iv2, invocations c2 !! S (length (invocations s_bound0)) = Some iv2 /\
       i_args iv2 = [VNum 2] /\ i_callback iv2 = 20%nat).
Proof.
  eapply (second_invocation_reuses_first ref_pocketCallMessage ref_random_index
            s_bound0 0); [vm_compute; reflexivity|reflexivity].
Defined.

Example second_invocation_example :
  rev (trace (ref_run s_bound0
    [UserInvoke 0 [VNum 1; VFn 10];
     KeysReplied 0 VNull (Some ["clouds:S:svc:s1"]) 100;
     MessageDelivered "clouds:L:c1" "result:m0::11";
     UserInvoke 0 [VNum 2; VFn 20];
     MessageDelivered "clouds:L:c1" "result:m1::22"])) =
  [Subscribe "clouds:L:c1" DebugFn;
   Keys "clouds:S:svc:*";
   Publish "clouds:L:s1" "call:m0:c1:svc" DebugFn;
   Apply 0 (OnCallback 0) [VNull; VNum 11];
   Outer 0 10 [VNull; VNum 11];
   Publish "clouds:L:s1" "call:m1:c1:svc" DebugFn;
   Apply 1 (OnCallback 0) [VNull; VNum 22];
   Outer 0 10 [VNull; VNum 22]].
Proof. vm_compute. reflexivity. Qed.

(** C5, as stated, fails: the empty list is in the cache with its
    timestamp, no sweep has run, and the next call for the same name sends
    a second KEYS scan instead of failing from the cached entry. *)
Lemma empty_cache_scanned_again :
  _servers s_empty !! "svc" = Some [] /\
  _serversTimestamp s_empty !! "svc" = Some 100 /\
  scans (trace s_empty) = [Keys "clouds:S:svc:*"] /\
  scans (trace (ref_step s_empty (UserCall "svc" [VNum 2] 8)))
    = [Keys "clouds:S:svc:*"; Keys "clouds:S:svc:*"] /\
  invocations_of 8 (trace (ref_step s_empty (UserCall "svc" [VNum 2] 8))) = [] /\
  scans (trace (ref_step s_empty (UserCall "svc" [VNum 2] 8))) <> scans (trace s_empty).
Proof.
  assert (H1 : scans (trace s_empty) = [Keys "clouds:S:svc:*"]) by (vm_compute; reflexivity).
  assert (H2 : scans (trace (ref_step s_empty (UserCall "svc" [VNum 2] 8)))
               = [Keys "clouds:S:svc:*"; Keys "clouds:S:svc:*"]) by (vm_compute; reflexivity).
  split; [vm_compute; reflexivity|]. split; [vm_compute; reflexivity|].
  split; [exact H1|]. split; [exact H2|]. split; [vm_compute; reflexivity|].
  rewrite H1, H2. discriminate.
Qed.

Lemma empty_list_cached_and_rescanned_witness :
  trace (_findOneServer ref_random_index
           (cb ref_pocketCallMessage ref_random_index) s_empty "svc" 1)
    = Keys (_key s_empty [Some "S"; Some "svc"; Some "*"]) :: trace s_empty.
Proof.
  destruct (empty_list_cached_and_rescanned ref_pocketCallMessage ref_random_index
              s_empty "svc" 1) as [_ H].
  destruct H as (A & _); [vm_compute; reflexivity|exact A].
Defined.

(** The call for svc that went to s1 times out: s1 leaves the list of svc,
    its key is deleted and the callback gets the error.  The call for the
    service named constructor times out after the sweep has removed the
    list of that service: [_removeServer] throws, no key is deleted and the
    callback is not applied. *)
Lemma timeout_evicts_server_witness :
  (_servers (ref_timeout_expires s_dispatched 0) !! "svc" = Some ["s2"] /\
   dels (trace (ref_timeout_expires s_dispatched 0))
     = Del "clouds:S:svc:s1" DebugFn :: dels (trace s_dispatched) /\
   applied 0 (trace (ref_timeout_expires s_dispatched 0)) = 1%nat) /\
  (_servers s_swept !! "constructor" = None /\
   ref_timer_fires s_swept 0 = Throws (ref_timeout_expires s_swept 0) /\
   trace (ref_timeout_expires s_swept 0) = trace s_swept /\
   applied 0 (trace (ref_timeout_expires s_swept 0)) = 0%nat).
Proof.
  split.
  - pose proof (timeout_evicts_server ref_pocketCallMessage ref_random_index ref_parseMessage
                  ref_array_prototype ref_builtin_throws default_options "c1" ev_dispatched
                  0%nat
                  {| f_name := "svc"; f_args := [VNum 1]; f_callback := UserFn 7;
                     f_msg := {| m_id := "m0"; m_data := "call:m0:c1:svc" |};
                     f_serverId := Some "s1"; f_hasCallback := false;
                     f_tid := Some 60000 |}
                  60000 "s1") as H.
    cbv zeta in H.
    destruct H as (_ & H & _); [vm_compute; reflexivity|reflexivity|reflexivity|].
    destruct H as (_ & A & _ & B & _ & C); [vm_compute; reflexivity|].
    split; [|split; [|exact C]].
    + etransitivity; [apply (A ["s1"; "s2"]); vm_compute; reflexivity|].
      vm_compute. reflexivity.
    + etransitivity; [exact B|]. vm_compute. reflexivity.
  - pose proof (timeout_evicts_server ref_pocketCallMessage ref_random_index ref_parseMessage
                  ref_array_prototype ref_builtin_throws short_lived_options "c1" ev_swept
                  0%nat
                  {| f_name := "constructor"; f_args := [VNum 1]; f_callback := UserFn 7;
                     f_msg := {| m_id := "m0"; m_data := "call:m0:c1:constructor" |};
                     f_serverId := Some "s1"; f_hasCallback := false;
                     f_tid := Some 60000 |}
                  60000 "s1") as H.
    cbv zeta in H.
    destruct H as (_ & _ & H & _); [vm_compute; reflexivity|reflexivity|reflexivity|].
    destruct H as (N & A & _ & B & C & _); [vm_compute; reflexivity|].
    split; [exact N|]. split; [exact A|]. split; [exact B|exact C].
Defined.

Example timeout_example :
  rev (trace (ref_step s_dispatched (TimeoutExpired 0))) =
    [Subscribe "clouds:L:c1" DebugFn; Keys "clouds:S:svc:*";
     Publish "clouds:L:s1" "call:m0:c1:svc" DebugFn;
     Del "clouds:S:svc:s1" DebugFn;
     Apply 0 (UserFn 7) [call_timeout]] /\
  _servers (ref_step s_dispatched (TimeoutExpired 0)) !! "svc" = Some ["s2"] /\
  _messages (ref_step s_dispatched (TimeoutExpired 0)) !! "m0" = None.
Proof. split; [|split]; vm_compute; reflexivity. Qed.

Example timeout_throws_example :
  ref_removeServer s_swept (Some "s1") "constructor" = Throws s_swept /\
  rev (trace (ref_step s_swept (TimeoutExpired 0))) =
    [Subscribe "clouds:L:c1" DebugFn; Keys "clouds:S:constructor:*";
     Publish "clouds:L:s1" "call:m0:c1:constructor" DebugFn] /\
  ref_step (ref_step s_swept (TimeoutExpired 0)) (TimeoutExpired 0)
    = ref_step s_swept (TimeoutExpired 0).
Proof. split; [|split]; vm_compute; reflexivity. Qed.

(** The first invocation of a caller bound to svc with limit 2 and no
    [onRetry], all of its attempts timing out. *)
Abbreviation ev_exhausted :=
  [UserBind "svc" 2 None;
   UserInvoke 0 [VNum 1; VFn 10];
   KeysReplied 0 VNull (Some ["clouds:S:svc:s1"]) 100; TimeoutExpired 0;
   KeysReplied 0 VNull (Some ["clouds:S:svc:s1"]) 200; TimeoutExpired 1;
   KeysReplied 0 VNull (Some ["clouds:S:svc:s1"]) 300; TimeoutExpired 2].
Abbreviation s_exhausted := (ref_run (CloudsClient default_options "c1") ev_exhausted).

(** A caller bound with limit 2 whose three attempts all time out: three
    calls are published and the outer callback 10 gets the timeout error.
    The second invocation of that caller, with argument 2 and callback 20,
    whose attempt times out: one call is published, with the argument of
    the first invocation, and the timeout error goes to callback 10
    again. *)
Lemma bind_retry_policy_witness :
  (exists c1, ref_bound s_bound2 0 ([VNum 1] ++ [VFn 10]) = Some c1 /\
     length (publishes (trace (ref_attempts_time_out (fun _ => ["clouds:S:svc:s1"])
                                 (fun _ => 100) c1 [0; 1; 2]%nat))) = 3%nat /\
     outer_calls (trace (ref_attempts_time_out (fun _ => ["clouds:S:svc:s1"])
                           (fun _ => 100) c1 [0; 1; 2]%nat))
       = [Outer 0 10 [call_timeout]]) /\
  (exists c2, ref_bound s_exhausted 0 ([VNum 2] ++ [VFn 20]) = Some c2 /\
     (exists fr, frames c2 !! 3%nat = Some fr /\
        f_args fr = [VNum 1] /\ f_callback fr = OnCallback 0) /\
     length (publishes (trace (ref_attempts_time_out (fun _ => ["clouds:S:svc:s1"])
                                 (fun _ => 400) c2 [3%nat]))) = 4%nat /\
     outer_calls (trace (ref_attempts_time_out (fun _ => ["clouds:S:svc:s1"])
                           (fun _ => 400) c2 [3%nat]))
       = [Outer 0 10 [call_timeout]; Outer 0 10 [call_timeout]]).
Proof.
  split.
  - destruct (bind_retry_policy ref_pocketCallMessage ref_random_index ref_array_prototype
                s_bound2) as (_ & _ & H & _).
    destruct (H 0%nat {| b_name := "svc"; b_retry := 2; b_timeout := 60000;
                         b_onRetry := NotAFunction |} [VNum 1] 10%nat
                (fun _ => ["clouds:S:svc:s1"]) (fun _ => 100))
      as (c1 & Hc1 & _ & Hpub & _ & _ & Hout & _);
      [vm_compute; reflexivity|vm_compute; discriminate|intros k; discriminate
      |apply Scans_run|left; reflexivity|].
    exists c1. split; [exact Hc1|]. split; [exact (Hpub eq_refl)|exact Hout].
  - destruct (bind_retry_policy ref_pocketCallMessage ref_random_index ref_array_prototype
                s_exhausted) as (_ & _ & _ & H).
    destruct (H 0%nat {| b_name := "svc"; b_retry := 2; b_timeout := 60000;
                         b_onRetry := DefaultOnRetry 0 |} 0%nat
                {| i_bind := 0; i_args := [VNum 1]; i_callback := 10; i_retryCounter := 2 |}
                [VNum 2] 20%nat (fun _ => ["clouds:S:svc:s1"]) (fun _ => 400))
      as (c2 & Hc2 & _ & Hfr & _ & _ & Hpub & _ & Hout & _);
      [vm_compute; reflexivity|reflexivity|vm_compute; reflexivity|reflexivity
      |vm_compute; discriminate|intros k; discriminate|apply Scans_run|].
    exists c2. split; [exact Hc2|]. split; [exact Hfr|].
    split; [etransitivity; [exact (Hpub eq_refl)|vm_compute; reflexivity]|].
    etransitivity; [exact Hout|]. vm_compute. reflexivity.
Defined.

Example later_invocation_example :
  rev (trace (ref_run s_exhausted
    [UserInvoke 0 [VNum 2; VFn 20];
     KeysReplied 0 VNull (Some ["clouds:S:svc:s1"]) 400; TimeoutExpired 3])) =
  (rev (trace s_exhausted) ++
   [Keys "clouds:S:svc:*";
    Publish "clouds:L:s1" "call:m3:c1:svc" DebugFn;
    Del "clouds:S:svc:s1" DebugFn;
    Apply 3 (OnCallback 0) [call_timeout];
    Outer 0 10 [call_timeout]])%list /\
  invocations_of 20 (trace (ref_run s_exhausted
    [UserInvoke 0 [VNum 2; VFn 20];
     KeysReplied 0 VNull (Some ["clouds:S:svc:s1"]) 400; TimeoutExpired 3])) = [].
Proof. split; vm_compute; reflexivity. Qed.

Example always_timing_out_example :
  rev (trace (ref_run s_bound2
    [UserInvoke 0 [VNum 1; VFn 10];
     KeysReplied 0 VNull (Some ["clouds:S:svc:s1"]) 100; TimeoutExpired 0;
     KeysReplied 0 VNull (Some ["clouds:S:svc:s1"]) 200; TimeoutExpired 1;
     KeysReplied 0 VNull (Some ["clouds:S:svc:s1"]) 300; TimeoutExpired 2])) =
  [Subscribe "clouds:L:c1" DebugFn;
   Keys "clouds:S:svc:*";
   Publish "clouds:L:s1" "call:m0:c1:svc" DebugFn;
   Del "clouds:S:svc:s1" DebugFn;
   Apply 0 (OnCallback 0) [call_timeout];
   Keys "clouds:S:svc:*";
   Publish "clouds:L:s1" "call:m1:c1:svc" DebugFn;
   Del "clouds:S:svc:s1" DebugFn;
   Apply 1 (OnCallback 0) [call_timeout];
   Keys "clouds:S:svc:*";
   Publish "clouds:L:s1" "call:m2:c1:svc" DebugFn;
   Del "clouds:S:svc:s1" DebugFn;
   Apply 2 (OnCallback 0) [call_timeout];
   Outer 0 10 [call_timeout]].
Proof. vm_compute. reflexivity. Qed.

Example no_server_retry_example :
  retryTimers (ref_run s_bound2
    [UserInvoke 0 [VNum 1; VFn 10]; KeysReplied 0 VNull (Some []) 100]) = [(0%nat, 60000)] /\
  invocations_of 10 (trace (ref_run s_bound2
    [UserInvoke 0 [VNum 1; VFn 10]; KeysReplied 0 VNull (Some []) 100])) = [].
Proof. split; vm_compute; reflexivity. Qed.

(** The result with id m0, error null and value 42 reaches the callback of
    the call as (null, 42).  A result with the id hasOwnProperty, which no
    call has, is not discarded: the listener throws. *)
Lemma listener_routes_results_witness :
  (exists c', ref_listener s_dispatched "clouds:L:c1" "result:m0::42" = Returns c' /\
     Apply 0 (UserFn 7) [VNull; VNum 42] ∈ trace c') /\
  (_messages s_dispatched !! "hasOwnProperty" = None /\
   ref_listener s_dispatched "clouds:L:c1" "result:hasOwnProperty::42"
     = Throws s_dispatched).
Proof.
  split.
  - destruct (listener_routes_results ref_pocketCallMessage ref_random_index ref_parseMessage
                ref_builtin_throws s_dispatched "clouds:L:c1" "result:m0::42")
      as (_ & _ & _ & H & _).
    destruct (H 0%nat) as (c' & Hc' & _ & _ & H');
      [vm_compute; reflexivity|vm_compute; reflexivity|vm_compute; reflexivity
      |vm_compute; discriminate|].
    exists c'. split; [exact Hc'|].
    edestruct H' as (_ & _ & A); [vm_compute; reflexivity|reflexivity|].
    apply A; vm_compute; reflexivity.
  - assert (Hn : _messages s_dispatched !! "hasOwnProperty" = None) by (vm_compute; reflexivity).
    split; [exact Hn|].
    destruct (listener_routes_results ref_pocketCallMessage ref_random_index ref_parseMessage
                ref_builtin_throws s_dispatched "clouds:L:c1" "result:hasOwnProperty::42")
      as (_ & _ & _ & _ & H).
    assert (H' := H ltac:(vm_compute; reflexivity) ltac:(vm_compute; reflexivity)
                    ltac:(vm_compute; reflexivity) ltac:(vm_compute; reflexivity)).
    etransitivity; [exact (proj2 H')|]. vm_compute. reflexivity.
Defined.

Example listener_drops_example :
  ref_listener s_dispatched "clouds:L:c2" "result:m0::42" = Returns s_dispatched /\
  ref_listener s_dispatched "clouds:L:c1" "call:m0::42" = Returns s_dispatched /\
  ref_listener s_dispatched "clouds:L:c1" "result:m9::42" = Returns s_dispatched.
Proof. split; [|split]; vm_compute; reflexivity. Qed.

Example listener_inherited_example :
  read_messages s_dispatched "toString" = HInherited "toString" /\
  ref_listener s_dispatched "clouds:L:c1" "result:toString::42" = Returns s_dispatched /\
  ref_listener s_dispatched "clouds:L:c1" "result:valueOf:failed:42" = Throws s_dispatched.
Proof. split; [|split]; vm_compute; reflexivity. Qed.

(** C9, as stated, fails at the boundary: with [serverMaxAge] 2 seconds, the
    entry stamped 0 is, at the tick at 2000 ms, exactly 2 seconds old and
    not older; the tick removes it all the same. *)
Lemma sweep_evicts_entry_of_exact_age :
  _serverMaxAge s_short = 2 /\
  _servers s_short !! "svc" = Some ["s1"] /\
  _serversTimestamp s_short !! "svc" = Some 0 /\
  ~ (0 < 2000 - _serverMaxAge s_short * 1000) /\
  _servers (ref_step s_short (SweepTick 2000)) !! "svc" = None /\
  _serversTimestamp (ref_step s_short (SweepTick 2000)) !! "svc" = None.
Proof.
  split; [vm_compute; reflexivity|]. split; [vm_compute; reflexivity|].
  split; [vm_compute; reflexivity|]. split; [vm_compute; discriminate|].
  split; vm_compute; reflexivity.
Qed.

Lemma sweep_evicts_at_max_age_witness :
  _servers (sweeps s_short [1000]) !! "svc" = Some ["s1"] /\
  _servers (sweeps s_short [1000; 2000]) !! "svc" = None /\
  _servers (sweeps s_short [1000; 2000; 3000]) !! "svc" = None.
Proof.
  destruct sweep_evicts_at_max_age as (_ & _ & _ & H).
  apply (H s_short "svc" ["s1"]); vm_compute; reflexivity.
Defined.

(** ** The further properties at concrete clients *)

(** The id s1 is read back from the key it is registered under. *)
Lemma registration_key_round_trip_witness :
  no_colon "s1" = true /\
  last_segment (_key s_called [Some "S"; Some "svc"; Some "s1"]) = "s1".
Proof.
  assert (H : no_colon "s1" = true) by reflexivity.
  split; [exact H|].
  destruct (registration_key_round_trip s_called "svc" "s1") as (_ & _ & A).
  exact (proj1 (A H)).
Defined.

(** The scan of the first call finds s1 and s2: both are cached at time
    100, and the call goes to s1. *)
Lemma discovery_dispatches_witness :
  _servers (ref_keys_replied s_called 0%nat VNull
              (Some ["clouds:S:svc:s1"; "clouds:S:svc:s2"]) 100) !! "svc" = Some ["s1"; "s2"] /\
  _serversTimestamp (ref_keys_replied s_called 0%nat VNull
              (Some ["clouds:S:svc:s1"; "clouds:S:svc:s2"]) 100) !! "svc" = Some 100 /\
  trace (ref_keys_replied s_called 0%nat VNull
              (Some ["clouds:S:svc:s1"; "clouds:S:svc:s2"]) 100)
    = Publish "clouds:L:s1" "call:m0:c1:svc" DebugFn :: trace s_called.
Proof.
  pose proof (discovery_dispatches ref_pocketCallMessage ref_random_index s_called 0%nat
                "svc" 0%nat
                {| f_name := "svc"; f_args := [VNum 1]; f_callback := UserFn 7;
                   f_msg := ref_pocketCallMessage 0 "c1" "svc" [VNum 1];
                   f_serverId := None; f_hasCallback := false; f_tid := Some 60000 |}
                VNull (Some ["clouds:S:svc:s1"; "clouds:S:svc:s2"]) 100) as H.
  cbv zeta in H.
  destruct H as (A & B & _ & _ & _ & _ & C & _);
    [vm_compute; reflexivity|vm_compute; reflexivity|reflexivity|
     vm_compute; discriminate|].
  split; [rewrite A; vm_compute; reflexivity|].
  split; [apply B; discriminate|]. rewrite C. vm_compute. reflexivity.
Defined.

(** A second call for svc, made when s1 and s2 are cached, is published to
    s1 at once, and the entry keeps its timestamp. *)
Lemma call_uses_cached_servers_witness :
  trace (ref_call s_dispatched "svc" [VNum 2] (UserFn 8))
    = Publish "clouds:L:s1" "call:m1:c1:svc" DebugFn :: trace s_dispatched /\
  keysPending (ref_call s_dispatched "svc" [VNum 2] (UserFn 8)) = keysPending s_dispatched /\
  _serversTimestamp (ref_call s_dispatched "svc" [VNum 2] (UserFn 8))
    = _serversTimestamp s_dispatched.
Proof.
  pose proof (call_uses_cached_servers ref_pocketCallMessage ref_random_index s_dispatched
                "svc" [VNum 2] (UserFn 8) "s1" ["s2"]) as H.
  cbv zeta in H.
  destruct H as (A & B & _ & _ & _ & C & _); [vm_compute; reflexivity|].
  split; [rewrite A; vm_compute; reflexivity|]. split; [exact B|exact C].
Defined.

(** The first call of a fresh client scans for svc and caches an empty
    list without a timestamp. *)
Lemma call_scans_on_cache_miss_witness :
  trace (ref_call (CloudsClient default_options "c1") "svc" [VNum 1] (UserFn 7))
    = Keys "clouds:S:svc:*" :: trace (CloudsClient default_options "c1") /\
  _servers (ref_call (CloudsClient default_options "c1") "svc" [VNum 1] (UserFn 7)) !! "svc"
    = Some [] /\
  _serversTimestamp (ref_call (CloudsClient default_options "c1") "svc" [VNum 1] (UserFn 7))
    = _serversTimestamp (CloudsClient default_options "c1").
Proof.
  pose proof (call_scans_on_cache_miss ref_pocketCallMessage ref_random_index
                (CloudsClient default_options "c1") "svc" [VNum 1] (UserFn 7)) as H.
  cbv zeta in H.
  destruct H as (A & _ & _ & _ & B & C); [left; vm_compute; reflexivity|].
  split; [rewrite A; vm_compute; reflexivity|]. split; [exact B|exact C].
Defined.

(** The scan of the first call fails with the error of the connection. *)
Lemma scan_error_reaches_callback_witness :
  publishes (trace (ref_keys_replied s_called 0%nat (VError "down" None) None 5))
    = publishes (trace s_called) /\
  _servers (ref_keys_replied s_called 0%nat (VError "down" None) None 5) = _servers s_called /\
  exists fr', frames (ref_keys_replied s_called 0%nat (VError "down" None) None 5) !! 0%nat
                = Some fr' /\ f_hasCallback fr' = true /\ f_tid fr' = None.
Proof.
  pose proof (scan_error_reaches_callback ref_pocketCallMessage ref_random_index s_called
                0%nat "svc" 0%nat
                {| f_name := "svc"; f_args := [VNum 1]; f_callback := UserFn 7;
                   f_msg := ref_pocketCallMessage 0 "c1" "svc" [VNum 1];
                   f_serverId := None; f_hasCallback := false; f_tid := Some 60000 |}
                (VError "down" None) None 5) as H.
  cbv zeta in H.
  destruct H as (_ & A & B & _ & _ & C);
    [vm_compute; reflexivity|vm_compute; reflexivity|reflexivity|reflexivity|
     discriminate|].
  split; [exact A|]. split; [exact B|exact C].
Defined.

(** The timestamp of svc in the cache has its list. *)
Lemma timestamps_belong_to_lists_witness :
  _serversTimestamp s_dispatched !! "svc" = Some 100 /\
  is_Some (_servers s_dispatched !! "svc").
Proof.
  assert (H : _serversTimestamp s_dispatched !! "svc" = Some 100) by (vm_compute; reflexivity).
  split; [exact H|].
  destruct (timestamps_belong_to_lists ref_pocketCallMessage ref_random_index ref_parseMessage ref_array_prototype ref_builtin_throws default_options "c1" ev_dispatched) as [A _].
  exact (A "svc" 100 H).
Defined.

(** While the scan for svc is not answered, the empty list of svc has no
    timestamp, and ticks of the sweep long after [serverMaxAge] keep it. *)
Lemma sweep_keeps_unstamped_entries_witness :
  _serversTimestamp s_called !! "svc" = None /\
  _servers (sweeps s_called [100000; 200000]) !! "svc" = Some [].
Proof.
  assert (H : _serversTimestamp s_called !! "svc" = None) by (vm_compute; reflexivity).
  split; [exact H|].
  destruct (sweep_keeps_unstamped_entries s_called "svc" [100000; 200000] H) as [A _].
  rewrite A. vm_compute. reflexivity.
Defined.

(** The handler stored under m0 is that of frame 0, whose message is m0;
    under the id toString the listener finds the function of
    Object.prototype, and leaves the client as it is. *)
Lemma handlers_match_their_calls_witness :
  (exists fr, frames s_dispatched !! 0%nat = Some fr /\ m_id (f_msg fr) = "m0") /\
  read_messages s_dispatched "toString" = HInherited "toString" /\
  state_of (ref_listener s_dispatched "clouds:L:c1" "result:toString::42") = s_dispatched.
Proof.
  destruct (handlers_match_their_calls ref_pocketCallMessage ref_random_index ref_parseMessage
              ref_array_prototype ref_builtin_throws default_options "c1" ev_dispatched)
    as (A & _ & C).
  split; [apply (A "m0" 0%nat); vm_compute; reflexivity|].
  split; [vm_compute; reflexivity|].
  apply (C "clouds:L:c1" "result:toString::42"). vm_compute. reflexivity.
Defined.

(** After the result of the dispatched call has arrived, the expiry of its
    timer does nothing. *)
Lemma answered_call_is_not_timed_out_witness :
  ref_timeout_expires (ref_on_message s_dispatched "clouds:L:c1" "result:m0::42") 0
    = ref_on_message s_dispatched "clouds:L:c1" "result:m0::42".
Proof.
  pose proof (answered_call_is_not_timed_out ref_pocketCallMessage ref_random_index ref_parseMessage ref_array_prototype ref_builtin_throws default_options "c1" ev_dispatched
                "clouds:L:c1" "result:m0::42" 0%nat) as H.
  cbv zeta in H.
  destruct H as [_ A];
    [vm_compute; reflexivity|vm_compute; reflexivity|vm_compute; reflexivity|].
  exact A.
Defined.


(** The timer of the first call expires before the scan is answered: the
    key deleted ends in a colon; the reply that comes later is still
    published to s1, and the callback is not applied a second time. *)
Lemma timer_before_discovery_witness :
  trace (ref_timeout_expires s_called 0)
    = Apply 0 (UserFn 7) [call_timeout] :: Del "clouds:S:svc:" DebugFn :: trace s_called /\
  trace (ref_keys_replied (ref_timeout_expires s_called 0) 0%nat VNull
           (Some ["clouds:S:svc:s1"]) 100)
    = Publish "clouds:L:s1" "call:m0:c1:svc" DebugFn :: trace (ref_timeout_expires s_called 0) /\
  applied 0 (trace (ref_keys_replied (ref_timeout_expires s_called 0) 0%nat VNull
                      (Some ["clouds:S:svc:s1"]) 100)) = 1%nat.
Proof.
  pose proof (timer_before_discovery ref_pocketCallMessage ref_random_index ref_parseMessage ref_array_prototype ref_builtin_throws default_options "c1" ev_called 0%nat
                {| f_name := "svc"; f_args := [VNum 1]; f_callback := UserFn 7;
                   f_msg := {| m_id := "m0"; m_data := "call:m0:c1:svc" |};
                   f_serverId := None; f_hasCallback := false; f_tid := Some 60000 |}
                60000 7%nat) as H.
  cbv zeta in H.
  destruct H as (_ & _ & A & B);
    [vm_compute; reflexivity|reflexivity|reflexivity|reflexivity|vm_compute; reflexivity|].
  split; [rewrite A; vm_compute; reflexivity|].
  destruct (B 0%nat (Some ["clouds:S:svc:s1"]) 100) as (C & _ & D);
    [vm_compute; reflexivity|vm_compute; discriminate|].
  split; [rewrite C; vm_compute; reflexivity|exact D].
Defined.

(** Two invocations of a caller bound with [onRetry] call svc with 1 and
    with 2, each completing into its own [onCallback]. *)
Lemma supplied_onRetry_is_per_invocation_witness :
  exists c1 c2 fr1 fr2,
    ref_bound s_bound_user 0 ([VNum 1] ++ [VFn 10]) = Some c1 /\
    ref_bound c1 0 ([VNum 2] ++ [VFn 20]) = Some c2 /\
    frames c2 = (frames s_bound_user ++ [fr1; fr2])%list /\
    f_args fr1 = [VNum 1] /\ f_callback fr1 = OnCallback (length (invocations s_bound_user)) /\
    f_args fr2 = [VNum 2] /\
    f_callback fr2 = OnCallback (S (length (invocations s_bound_user))).
Proof.
  destruct (supplied_onRetry_is_per_invocation ref_pocketCallMessage ref_random_index
              s_bound_user 0%nat
              {| b_name := "svc"; b_retry := 0; b_timeout := 60000;
                 b_onRetry := UserOnRetry (fun a : list Value => a) |}
              (fun a : list Value => a) [VNum 1] 10%nat [VNum 2] 20%nat)
    as (c1 & c2 & fr1 & fr2 & A & B & C & _ & D & E & _ & F & G & _);
    [vm_compute; reflexivity|reflexivity|].
  exists c1, c2, fr1, fr2.
  split; [exact A|]. split; [exact B|]. split; [exact C|]. split; [exact D|].
  split; [exact E|]. split; [exact F|exact G].
Defined.

(** The result 42 of the attempt arrives without error: the outer callback
    10 gets null and 42, and no retry is scheduled. *)
Lemma bound_success_completes_witness :
  trace (ref_on_message s_attempt "clouds:L:c1" "result:m0::42")
    = Outer 0 10 [VNull; VNum 42] :: Apply 0 (OnCallback 0) [VNull; VNum 42]
        :: trace s_attempt /\
  length (frames (ref_on_message s_attempt "clouds:L:c1" "result:m0::42"))
    = length (frames s_attempt) /\
  retryTimers (ref_on_message s_attempt "clouds:L:c1" "result:m0::42")
    = retryTimers s_attempt.
Proof.
  pose proof (bound_success_completes ref_pocketCallMessage ref_random_index ref_parseMessage ref_builtin_throws s_attempt "clouds:L:c1" "result:m0::42" 0%nat) as H.
  cbv zeta in H.
  edestruct H as (A & B & C & _);
    [vm_compute; reflexivity|vm_compute; reflexivity|vm_compute; reflexivity|
     vm_compute; reflexivity|vm_compute; reflexivity|reflexivity|reflexivity|
     vm_compute; reflexivity|vm_compute; reflexivity|].
  split; [rewrite A; vm_compute; reflexivity|]. split; [exact B|exact C].
Defined.

(** An invocation of the caller bound to svc returns with one new call
    frame at most and without any callback applied. *)
Lemma call_returns_before_any_callback_witness :
  exists c', ref_bound s_bound0 0 [VNum 1; VFn 10] = Some c' /\
    applied 0 (trace c') = applied 0 (trace s_bound0) /\
    invocations_of 10 (trace c') = invocations_of 10 (trace s_bound0) /\
    (length (frames c') <= S (length (frames s_bound0)))%nat.
Proof.
  assert (E : ref_bound s_bound0 0 [VNum 1; VFn 10]
              = Some (default s_bound0 (ref_bound s_bound0 0 [VNum 1; VFn 10])))
    by (vm_compute; reflexivity).
  exists (default s_bound0 (ref_bound s_bound0 0 [VNum 1; VFn 10])).
  split; [exact E|].
  destruct (call_returns_before_any_callback ref_pocketCallMessage ref_random_index s_bound0)
    as [_ A].
  exact (A 0%nat [VNum 1; VFn 10] _ 0%nat 10%nat E).
Defined.

(** The dispatched call has its timer pending, and the expiry of the timer
    delivers the timeout error to its callback, once. *)
Lemma every_call_completes_witness :
  Apply 0 (UserFn 7) [call_timeout] ∈ trace (ref_timeout_expires s_dispatched 0) /\
  applied 0 (trace (ref_timeout_expires s_dispatched 0)) = 1%nat.
Proof.
  pose proof (every_call_completes ref_pocketCallMessage ref_random_index
                ref_parseMessage ref_array_prototype ref_builtin_throws
                default_options "c1" ev_dispatched 0%nat
                {| f_name := "svc"; f_args := [VNum 1]; f_callback := UserFn 7;
                   f_msg := {| m_id := "m0"; m_data := "call:m0:c1:svc" |};
                   f_serverId := Some "s1"; f_hasCallback := false; f_tid := Some 60000 |}) as H.
  cbv zeta in H.
  destruct H as (_ & _ & _ & A & _); [vm_compute; reflexivity|].
  apply A; [exists 60000; reflexivity|vm_compute; reflexivity].
Defined.

(** The timer of the call for the service named constructor expires after
    the sweep has removed the list of that service: the call is left
    without timer and without callback. *)
Example call_left_open_example :
  run_throws ref_pocketCallMessage ref_random_index ref_parseMessage ref_array_prototype
    ref_builtin_throws (CloudsClient short_lived_options "c1")
    (ev_swept ++ [TimeoutExpired 0]) = true /\
  (fun fr => (f_hasCallback fr, f_tid fr))
    <$> frames (ref_step s_swept (TimeoutExpired 0)) !! 0%nat = Some (false, None).
Proof. split; vm_compute; reflexivity. Qed.


(** Evicting s1 from the servers of svc leaves s2; evicting a server of
    the service named constructor, which has no list, throws. *)
Lemma removeServer_cache_witness :
  (exists c', ref_removeServer s_dispatched (Some "s1") "svc" = Returns c' /\
     _servers c' !! "svc" = Some ["s2"]) /\
  ref_removeServer s_dispatched (Some "s1") "constructor" = Throws s_dispatched.
Proof.
  split.
  - pose proof (removeServer_cache ref_array_prototype s_dispatched "s1" "svc") as K.
    cbv zeta in K. destruct K as (A & _).
    destruct (A ["s1"; "s2"]) as (c' & Hc' & Hl & _); [vm_compute; reflexivity|].
    exists c'. split; [exact Hc'|]. etransitivity; [exact Hl|]. vm_compute. reflexivity.
  - pose proof (removeServer_cache ref_array_prototype s_dispatched "s1" "constructor") as K.
    cbv zeta in K. destruct K as (_ & A & _).
    assert (A' := A ltac:(vm_compute; reflexivity)).
    assert (Ht : removeServer_throws ref_array_prototype s_dispatched "constructor" = true)
      by (vm_compute; reflexivity).
    rewrite Ht in A'. exact A'.
Defined.

(** A tick of the sweep at 2000 ms in the client whose [serverMaxAge] is 2
    seconds leaves the trace and the call frames as they are. *)
Lemma sweep_touches_only_the_cache_witness :
  frames (sweep_tick s_short 2000) = frames s_short /\
  _messages (sweep_tick s_short 2000) = _messages s_short /\
  trace (sweep_tick s_short 2000) = trace s_short /\
  _servers s_short !! "svc" = Some ["s1"].
Proof.
  pose proof (sweep_touches_only_the_cache s_short 1000) as K. cbv zeta in K.
  destruct K as (_ & _ & _ & _ & _ & _ & _ & D & _).
  pose proof (sweep_touches_only_the_cache s_short 2000) as H. cbv zeta in H.
  destruct H as (A & B & _ & _ & _ & _ & C & _).
  split; [exact A|]. split; [exact B|]. split; [exact C|].
  apply D. vm_compute. reflexivity.
Defined.

(** Client c1 while its call is dispatched has the sweep armed every 30
    seconds and both connections open; after [exit], and after the timer of
    the call has expired on top of it, the sweep timer is cleared and the
    connections are closed. *)
Lemma sweep_runs_until_exit_witness :
  (_clearServerListTid s_dispatched = Some 30000 /\
   _cp s_dispatched = true /\ _cs s_dispatched = true) /\
  (_clearServerListTid (ref_run (CloudsClient default_options "c1")
      [UserCall "svc" [VNum 1] 7; UserExit VUndefined; TimeoutExpired 0]) = None /\
   _cp (ref_run (CloudsClient default_options "c1")
      [UserCall "svc" [VNum 1] 7; UserExit VUndefined; TimeoutExpired 0]) = false /\
   _cs (ref_run (CloudsClient default_options "c1")
      [UserCall "svc" [VNum 1] 7; UserExit VUndefined; TimeoutExpired 0]) = false).
Proof.
  split.
  - pose proof (sweep_runs_until_exit ref_pocketCallMessage ref_random_index ref_parseMessage ref_array_prototype ref_builtin_throws default_options "c1" ev_dispatched) as H.
    cbv zeta in H. destruct H as [H _].
    destruct H as (A & B & C); [reflexivity|].
    split; [rewrite A; vm_compute; reflexivity|]. split; [exact B|exact C].
  - pose proof (sweep_runs_until_exit ref_pocketCallMessage ref_random_index ref_parseMessage ref_array_prototype ref_builtin_throws default_options "c1"
                  [UserCall "svc" [VNum 1] 7; UserExit VUndefined; TimeoutExpired 0]) as H.
    cbv zeta in H. destruct H as [_ H].
    destruct H as (A & B & C & _); [reflexivity|].
    split; [exact A|]. split; [exact B|exact C].
Defined.
